(** * Bilingual-Study-Flow: the Gemini orchestrator and the dashboard exports

    A shallow embedding of [services/geminiService.ts] (cancellation wrapper,
    upload poll loop, response expansion, error mapping) and of the
    [Dashboard] component's pure and effectful helpers ([parseTime],
    [exportSRT], [handleNoteClick], [handleDownloadDubbedAudio]).

    Conventions.
    - JavaScript strings are modelled as [string]; every separator the code
      looks for is an ASCII character, so the byte view and the UTF-16 view
      split at the same places.
    - JavaScript numbers are an interface ([JSNumber]): the code only adds,
      multiplies, divides and rounds them, and converts strings with
      [Number(...)]; theorems hold for every implementation of the interface.
    - Asynchronous code is written in a state-and-exception monad whose state
      is a logical clock (one tick per [await]) and the log of the platform
      calls issued so far.  A thrown exception keeps the log.
    - Remote and platform operations answer as an environment record says;
      calls whose result the program does not read (state setters, console
      output, audio node wiring) are recorded as issued and return normally.
      The two Web Audio calls that check a number computed from subtitle
      text, the constructor of the offline context and [start], are recorded
      as issued and then throw or return as the environment says. *)

From Stdlib Require Import String Ascii List ZArith Lia Bool Arith QArith Qround DecimalString.
Import ListNotations.

Set Warnings "-register-all".

Local Open Scope list_scope.
Local Open Scope string_scope.

(* ===================================================================== *)
(** ** JavaScript strings *)
(* ===================================================================== *)

Module JSString.

(** [s.split(sep)] for a one-character separator: always at least one field. *)
Fixpoint split (sep : ascii) (s : string) : list string :=
  match s with
  | EmptyString => [EmptyString]
  | String c rest =>
      if Ascii.eqb c sep then EmptyString :: split sep rest
      else match split sep rest with
           | [] => [String c EmptyString]
           | field :: fields => String c field :: fields
           end
  end.

(** [hay.includes(needle)]. *)
Fixpoint includes (needle hay : string) : bool :=
  match hay with
  | EmptyString => String.prefix needle EmptyString
  | String _ rest => String.prefix needle hay || includes needle rest
  end.

(** Number of occurrences of a character. *)
Fixpoint count_char (c : ascii) (s : string) : nat :=
  match s with
  | EmptyString => 0
  | String d rest => (if Ascii.eqb d c then 1 else 0) + count_char c rest
  end.

(** Decimal rendering of an array index or counter, as a template literal
    prints it. *)
Definition of_nat (n : nat) : string := NilEmpty.string_of_uint (Nat.to_uint n).

(** A string is falsy exactly when it is empty. *)
Definition truthy (s : string) : bool :=
  match s with EmptyString => false | _ => true end.

End JSString.

(* ===================================================================== *)
(** ** JavaScript numbers *)
(* ===================================================================== *)

(** The operations the program performs on numbers.  [round_full_percent]
    is the one arithmetic fact used: for an array length [n],
    [Math.round((n / n) * 100)] is [100]. *)
Class JSNumber := {
  num : Type;
  of_Z : Z -> num;
  nadd : num -> num -> num;
  nmul : num -> num -> num;
  ndiv : num -> num -> num;
  nfloor : num -> num;
  nround : num -> num;
  Number : string -> num;
  falsy_num : num -> bool;
  round_full_percent :
    forall n : Z, (0 < n < 2 ^ 32)%Z ->
      nround (nmul (ndiv (of_Z n) (of_Z n)) (of_Z 100)) = of_Z 100
}.

(** An executable implementation: exact rationals kept in lowest terms, with
    [None] for NaN (and for every non-finite result).  [Number] reads an
    optionally space-padded run of decimal digits. *)
Module QNumber.

Definition lift2 (f : Q -> Q -> Q) (a b : option Q) : option Q :=
  match a, b with
  | Some x, Some y => Some (Qred (f x y))
  | _, _ => None
  end.

Definition div (a b : option Q) : option Q :=
  match a, b with
  | Some x, Some y => if Qeq_bool y 0 then None else Some (Qred (x / y))
  | _, _ => None
  end.

Definition floor (a : option Q) : option Q :=
  option_map (fun x => inject_Z (Qfloor x)) a.

Definition round (a : option Q) : option Q :=
  option_map (fun x => inject_Z (Qfloor (x + (1 # 2)))) a.

Definition digit (c : ascii) : option Z :=
  let n := nat_of_ascii c in
  if (48 <=? n)%nat && (n <=? 57)%nat then Some (Z.of_nat (n - 48)) else None.

Fixpoint digits (acc : Z) (s : string) : option Z :=
  match s with
  | EmptyString => Some acc
  | String c rest =>
      match digit c with
      | Some d => digits (10 * acc + d) rest
      | None => None
      end
  end.

Fixpoint drop_spaces (s : string) : string :=
  match s with
  | String c rest => if Ascii.eqb c " " then drop_spaces rest else s
  | EmptyString => EmptyString
  end.

Fixpoint rev_string (acc s : string) : string :=
  match s with
  | EmptyString => acc
  | String c rest => rev_string (String c acc) rest
  end.

Definition trim (s : string) : string :=
  rev_string "" (drop_spaces (rev_string "" (drop_spaces s))).

Definition parse (s : string) : option Q :=
  option_map inject_Z (digits 0 (trim s)).

Definition falsy (a : option Q) : bool :=
  match a with
  | None => true
  | Some x => Qeq_bool x 0
  end.

Definition QNum : JSNumber.
Proof.
  refine {| num := option Q;
            of_Z := fun z => Some (inject_Z z);
            nadd := lift2 Qplus;
            nmul := lift2 Qmult;
            ndiv := div;
            nfloor := floor;
            nround := round;
            Number := parse;
            falsy_num := falsy |}.
  intros n Hn. unfold div.
  assert (Hz : Qeq_bool (inject_Z n) 0 = false).
  { unfold Qeq_bool, inject_Z; simpl. apply Z.eqb_neq. lia. }
  rewrite Hz.
  assert (Hone : Qred (inject_Z n / inject_Z n) = 1%Q).
  { change 1%Q with (Qred 1). apply Qred_complete.
    apply Qmult_inv_r. intro H. apply Qeq_bool_neq in Hz. contradiction. }
  rewrite Hone. reflexivity.
Defined.

End QNumber.

Local Close Scope Q_scope.

(* ===================================================================== *)
(** ** Values, errors and the effect monad *)
(* ===================================================================== *)

(** A thrown [Error] object; the program only ever reads [message]. *)
Record js_error := JsError { message : string }.

Definition cancelled_msg : string := "Processing cancelled by user.".

Section Values.
Context {N : JSNumber}.

(** The result of [JSON.parse], plus [undefined] for absent properties. *)
Inductive value :=
| VUndefined
| VNull
| VBool (b : bool)
| VNumber (n : num)
| VString (s : string)
| VArray (items : list value)
| VObject (props : list (string * value)).

(** ToBoolean. *)
Definition truthy (v : value) : bool :=
  match v with
  | VUndefined | VNull => false
  | VBool b => b
  | VNumber n => negb (falsy_num n)
  | VString s => JSString.truthy s
  | VArray _ | VObject _ => true
  end.

Fixpoint lookup (key : string) (props : list (string * value)) : option value :=
  match props with
  | [] => None
  | (k, v) :: rest => if String.eqb k key then Some v else lookup key rest
  end.

(** The value of [v.key] where the read does not throw: [undefined] when
    the property is absent or [v] is a primitive or an array (none of the
    short keys of the compact schema is inherited from a prototype). *)
Definition field (v : value) (key : string) : value :=
  match v with
  | VObject props =>
      match lookup key props with
      | Some x => x
      | None => VUndefined
      end
  | _ => VUndefined
  end.

(** Every key of [keys] is a property of the object [v]. *)
Definition has_fields (keys : list string) (v : value) : bool :=
  match v with
  | VObject props =>
      forallb (fun k => match lookup k props with Some _ => true | None => false end) keys
  | _ => false
  end.

End Values.

(** The outcome of a settled promise: rejection or fulfilment. *)
Definition outcome (T : Type) : Type := (js_error + T)%type.

(** ** Cooperative cancellation

    The abort event can only be dispatched while the running function is
    suspended.  [fires_at = Some 0] is a signal aborted before the call
    starts; [Some (S k)] fires while the await that begins at clock [k] is
    pending; [None] never fires. *)
Record AbortSignal := { fires_at : option nat }.

(** [signal.aborted] read at clock [now]. *)
Definition aborted (signal : AbortSignal) (now : nat) : bool :=
  match fires_at signal with
  | Some t => (t <=? now)%nat
  | None => false
  end.

(** The abort listener registered at clock [now] runs before the pending
    operation settles. *)
Definition fires_during (signal : AbortSignal) (now : nat) : bool :=
  match fires_at signal with
  | Some t => (t =? S now)%nat
  | None => false
  end.

(** [signal?.aborted]. *)
Definition opt_aborted (signal : option AbortSignal) (now : nat) : bool :=
  match signal with
  | Some sg => aborted sg now
  | None => false
  end.

Definition cancelled : js_error := JsError cancelled_msg.

(** [runWithCancellation(promise, signal)], as the outcome the caller's
    [await] observes when the wrapper is entered at clock [now]. *)
Definition runWithCancellation {T : Type}
    (promise : outcome T) (signal : option AbortSignal) (now : nat) : outcome T :=
  match signal with
  | None => promise
  | Some sg =>
      if aborted sg now then inl cancelled
      else if fires_during sg now then inl cancelled
      else promise
  end.

(** A hand-written promise whose only link to the signal is an abort
    listener added when it starts at clock [now]: the listener rejects it if
    the event is dispatched before the operation settles. *)
Definition abort_or {T : Type}
    (signal : option AbortSignal) (settled : outcome T) (now : nat) : outcome T :=
  match signal with
  | Some sg => if fires_during sg now then inl cancelled else settled
  | None => settled
  end.

(** ** State and exceptions *)
Section Monad.
Variable event : Type.

Record state := { clock : nat; log : list event; draws : nat }.

Definition M (A : Type) : Type := state -> outcome A * state.

Definition ret {A} (a : A) : M A := fun st => (inr a, st).

Definition bind {A B} (c : M A) (k : A -> M B) : M B :=
  fun st =>
    match c st with
    | (inr a, st') => k a st'
    | (inl e, st') => (inl e, st')
    end.

Definition throw {A} (e : js_error) : M A := fun st => (inl e, st).

(** [try { body } catch (error) { handler }]. *)
Definition try_catch {A} (body : M A) (handler : js_error -> M A) : M A :=
  fun st =>
    match body st with
    | (inr a, st') => (inr a, st')
    | (inl e, st') => handler e st'
    end.

(** [try { body } finally { cleanup }]. *)
Definition try_finally {A} (body : M A) (cleanup : M unit) : M A :=
  fun st =>
    match body st with
    | (r, st') =>
        match cleanup st' with
        | (inr _, st'') => (r, st'')
        | (inl e, st'') => (inl e, st'')
        end
    end.

(** The state after one more platform call. *)
Definition push (e : event) (st : state) : state :=
  {| clock := clock st; log := (log st ++ [e])%list; draws := draws st |}.

(** The state after one more suspension. *)
Definition tick (st : state) : state :=
  {| clock := S (clock st); log := log st; draws := draws st |}.

(** A platform call, appended to the log. *)
Definition emit (e : event) : M unit := fun st => (inr tt, push e st).

Definition now : M nat := fun st => (inr (clock st), st).

(** [await p]: the promise's outcome may depend on the clock at which the
    wait starts; the wait takes one tick. *)
Definition await {A} (p : nat -> outcome A) : M A :=
  fun st => (p (clock st), tick st).

(** Synchronous code that may throw. *)
Definition lift {A} (r : outcome A) : M A := fun st => (r, st).

(** [Math.random().toString()]: the next draw of the given source. *)
Definition draw (source : nat -> string) : M string :=
  fun st =>
    (inr (source (draws st)),
     {| clock := clock st; log := log st; draws := S (draws st) |}).

(** [array.map(f)] where the callback may throw. *)
Fixpoint mapM {A B} (f : A -> M B) (items : list A) : M (list B) :=
  match items with
  | [] => ret []
  | x :: rest => bind (f x) (fun y => bind (mapM f rest) (fun ys => ret (y :: ys)))
  end.

Definition when (b : bool) (c : M unit) : M unit := if b then c else ret tt.

End Monad.

Arguments clock {event} _.
Arguments log {event} _.
Arguments draws {event} _.
Arguments Build_state {event} _ _ _.
Arguments ret {event A} _ _.
Arguments bind {event A B} _ _ _.
Arguments throw {event A} _ _.
Arguments try_catch {event A} _ _ _.
Arguments try_finally {event A} _ _ _.
Arguments push {event} _ _.
Arguments tick {event} _.
Arguments emit {event} _ _.
Arguments now {event} _.
Arguments await {event A} _ _.
Arguments lift {event A} _ _.
Arguments draw {event} _ _.
Arguments mapM {event A B} _ _ _.
Arguments when {event} _ _ _.

Declare Scope js_scope.
Delimit Scope js_scope with js.
Notation "x <- c ;; k" := (bind c (fun x => k))
  (at level 61, c at next level, right associativity) : js_scope.
Notation "c ;; k" := (bind c (fun _ => k))
  (at level 61, right associativity) : js_scope.
Local Open Scope js_scope.

(** Truthiness of an optional string: absent and empty are both falsy. *)
Definition present (o : option string) : bool :=
  match o with
  | Some s => JSString.truthy s
  | None => false
  end.

(** How a template literal prints an optional string. *)
Definition show_opt (o : option string) : string :=
  match o with
  | Some s => s
  | None => "undefined"
  end.

(** [o === s] for an optional string. *)
Definition opt_is (o : option string) (s : string) : bool :=
  match o with
  | Some x => String.eqb x s
  | None => false
  end.

(* ===================================================================== *)
(** ** services/geminiService.ts *)
(* ===================================================================== *)

Module GeminiService.
Section Service.
Context {N : JSNumber}.

Record File := { file_name : string; file_type : string; file_size : Z }.

Record ProcessingOptions := {
  originalLanguage : string;
  generateNotes : bool;
  generateFlashcards : bool
}.

Inductive Part :=
| InlineData (mimeType : string) (data : option string)
| FileData (fileUri mimeType : string).

(** The option-dependent pieces of [promptText]; the fixed wording around
    them is not modelled. *)
Record Prompt := {
  langInstruction : string;
  notesClause : string;
  cardsClause : string
}.

Inductive event :=
| ConsoleLog (msg : string)
| ConsoleError (msg : string) (err : js_error)
| StatusUpdate (msg : string) (progress : num)
| ReadAsDataURL (fileName : string)
| FilesUpload (displayName mimeType : string)
| FilesGet (fileName : string)
| SetTimeout (ms : Z)
| GenerateContent (model : string) (media : Part) (prompt : Prompt).

(** File read, upload, status poll and generation request. *)
Definition is_io (e : event) : bool :=
  match e with
  | ReadAsDataURL _ | FilesUpload _ _ | FilesGet _ | GenerateContent _ _ _ => true
  | _ => false
  end.

Definition is_poll (e : event) : bool :=
  match e with FilesGet _ => true | _ => false end.

Definition is_delay (ms : Z) (e : event) : bool :=
  match e with SetTimeout d => (d =? ms)%Z | _ => false end.

Definition is_timer (e : event) : bool :=
  match e with SetTimeout _ => true | _ => false end.

(** The application records, with the values the response put in them. *)
Record Subtitle := {
  id : value;
  startTime : value;
  endTime : value;
  textOriginal : value;
  textVietnamese : value
}.

Record Note := { timestamp : value; title : value; content : value }.

Record Flashcard := {
  card_id : value;
  term : value;
  definition : value;
  context : value
}.

Record ProcessedData := {
  subtitles : list Subtitle;
  notes : list Note;
  flashcards : list Flashcard
}.

Record UploadResult := { uri : option string; name : option string }.
Record FileStatus := { file_state : option string }.
Record GenerateResponse := { text : option string }.

Inductive ReadOutcome :=
| ReadError
| ReadEnd (result : option string).

(** Everything outside the program: the credential, what each remote or
    platform operation answers, the JSON parser, the random source, and the
    [TypeError] the engine raises on a bad property access or call. *)
Record Env := {
  API_KEY : option string;
  reader : ReadOutcome;
  files_upload : outcome UploadResult;
  files_get : nat -> outcome FileStatus;
  generateContent : outcome GenerateResponse;
  JSON_parse : string -> outcome value;
  Math_random : nat -> string;
  type_error : js_error
}.

(** What [onloadend] settles the promise with, given [reader.result]. *)
Definition on_loadend (result : option string) : outcome (option string) :=
  if present result
  then inr (nth_error (JSString.split "," (show_opt result)) 1)
  else inl (JsError "Failed to read file").

(** The abort listener calls [reader.abort()] and then [reject]; the reader
    dispatches [loadend] before [abort()] returns, with a null [result], so
    [onloadend] has already rejected the promise when the listener's own
    [reject] runs, and a settled promise keeps its first outcome. *)
Definition fileToGenerativePart (env : Env) (file : File)
    (signal : option AbortSignal) : M event (option string) :=
  emit (ReadAsDataURL (file_name file)) ;;
  await (fun t =>
    let interrupted :=
      match signal with
      | Some sg => fires_during sg t
      | None => false
      end in
    if interrupted then on_loadend None
    else match reader env with
         | ReadError => inl (JsError "Error reading file")
         | ReadEnd result => on_loadend result
         end).

Definition maxAttempts : nat := 120.
Definition delayMs : Z := 5000.

Definition timed_out : js_error := JsError "File upload timed out.".

(** The inter-poll wait: the timer, raced against the abort listener. *)
Definition poll_delay (signal : option AbortSignal) : M event unit :=
  emit (SetTimeout delayMs) ;;
  await (abort_or signal (inr tt)).

(** The [for] loop of [waitForFileActive], entered at index [i] with
    [remaining = maxAttempts - i] iterations to go. *)
Fixpoint poll_from (env : Env) (fileName : string) (onStatusUpdate : bool)
    (signal : option AbortSignal) (remaining i : nat) : M event unit :=
  match remaining with
  | O => throw timed_out
  | S remaining' =>
      t <- now ;;
      if opt_aborted signal t then throw cancelled else
      emit (FilesGet fileName) ;;
      fileStatus <- await (runWithCancellation (files_get env i) signal) ;;
      let state := file_state fileStatus in
      emit (ConsoleLog ("File state: " ++ show_opt state)) ;;
      if opt_is state "ACTIVE" then ret tt else
      if opt_is state "FAILED"
      then throw (JsError "File processing failed on Gemini server.") else
      when onStatusUpdate
        (emit (StatusUpdate
                 ("Google is processing video... (State: " ++ show_opt state ++ ")")
                 (nadd (of_Z 40)
                    (nfloor (nmul (ndiv (of_Z (Z.of_nat i)) (of_Z (Z.of_nat maxAttempts)))
                                  (of_Z 35)))))) ;;
      poll_delay signal ;;
      poll_from env fileName onStatusUpdate signal remaining' (S i)
  end.

Definition waitForFileActive (env : Env) (fileName : string)
    (onStatusUpdate : bool) (signal : option AbortSignal) : M event unit :=
  emit (ConsoleLog ("Waiting for file " ++ fileName ++ " to become active...")) ;;
  poll_from env fileName onStatusUpdate signal maxAttempts 0.

(** Property read [v.key], for the short keys of the compact schema: it
    throws on [null] and [undefined], and yields [undefined] where the
    property is absent. *)
Definition get (env : Env) (v : value) (key : string) : M event value :=
  match v with
  | VUndefined | VNull => throw (type_error env)
  | _ => ret (field v key)
  end.

(** [v.map(f)]: only an array has a callable [map]. *)
Definition array_map {A} (env : Env) (v : value) (f : value -> M event A)
    : M event (list A) :=
  match v with
  | VArray items => mapM f items
  | _ => throw (type_error env)
  end.

Definition to_subtitle (env : Env) (s : value) : M event Subtitle :=
  i <- get env s "i" ;;
  st <- get env s "s" ;;
  e <- get env s "e" ;;
  en <- get env s "en" ;;
  vi <- get env s "vi" ;;
  ret {| id := i; startTime := st; endTime := e;
         textOriginal := en; textVietnamese := vi |}.

Definition to_note (env : Env) (n : value) : M event Note :=
  ts <- get env n "ts" ;;
  ti <- get env n "ti" ;;
  co <- get env n "co" ;;
  ret {| timestamp := ts; title := ti; content := co |}.

Definition to_flashcard (env : Env) (c : value) : M event Flashcard :=
  cid <- get env c "id" ;;
  cid' <- (if truthy cid then ret cid
           else r <- draw (Math_random env) ;; ret (VString r)) ;;
  t <- get env c "t" ;;
  d <- get env c "d" ;;
  cx <- get env c "c" ;;
  ret {| card_id := cid'; term := t; definition := d; context := cx |}.

(** The expansion of the compact response into [ProcessedData]. *)
Definition expand (env : Env) (rawData : value) : M event ProcessedData :=
  subs <- get env rawData "subs" ;;
  subtitles' <- array_map env subs (to_subtitle env) ;;
  nts <- get env rawData "nts" ;;
  notes' <- array_map env nts (to_note env) ;;
  cards <- get env rawData "cards" ;;
  flashcards' <- array_map env cards (to_flashcard env) ;;
  ret {| subtitles := subtitles'; notes := notes'; flashcards := flashcards' |}.

Definition INLINE_SIZE_LIMIT : Z := 20 * 1024 * 1024.

Definition promptText (options : ProcessingOptions) : Prompt :=
  {| langInstruction :=
       if String.eqb (originalLanguage options) "Auto Detect"
       then "Detect language automatically."
       else "Original language is " ++ originalLanguage options ++ ".";
     notesClause :=
       if generateNotes options
       then "Required, approx 1 note every 2-3 mins" else "Return empty array";
     cardsClause :=
       if generateFlashcards options
       then "Required, max 10 key terms" else "Return empty array" |}.

(** The body of the [try] block. *)
Definition process_body (env : Env) (file : File) (options : ProcessingOptions)
    (onStatusUpdate : bool) (signal : option AbortSignal) : M event ProcessedData :=
  t <- now ;;
  if opt_aborted signal t then throw cancelled else
  if negb (present (API_KEY env)) then throw (JsError "API Key is missing.") else
  mediaPart <-
    (if (file_size file <? INLINE_SIZE_LIMIT)%Z then
       when onStatusUpdate (emit (StatusUpdate "Optimizing small file..." (of_Z 30))) ;;
       base64Data <- fileToGenerativePart env file signal ;;
       ret (InlineData (file_type file) base64Data)
     else
       when onStatusUpdate
         (emit (StatusUpdate "Uploading large file to Gemini..." (of_Z 10))) ;;
       emit (FilesUpload (file_name file) (file_type file)) ;;
       uploadResult <- await (runWithCancellation (files_upload env) signal) ;;
       if negb (present (uri uploadResult)) || negb (present (name uploadResult))
       then throw (JsError "Upload failed.") else
       when onStatusUpdate
         (emit (StatusUpdate "File uploaded. Waiting for processing..." (of_Z 40))) ;;
       waitForFileActive env (show_opt (name uploadResult)) onStatusUpdate signal ;;
       ret (FileData (show_opt (uri uploadResult)) (file_type file))) ;;
  when onStatusUpdate
    (emit (StatusUpdate "AI is analyzing FULL content (Deep Processing)..." (of_Z 80))) ;;
  emit (GenerateContent "gemini-3-flash-preview" mediaPart (promptText options)) ;;
  response <- await (runWithCancellation (generateContent env) signal) ;;
  if negb (present (text response)) then throw (JsError "No response from AI") else
  rawData <- lift (JSON_parse env (show_opt (text response))) ;;
  expand env rawData.

Definition quota_exceeded : js_error :=
  JsError "API Quota Exceeded. Please try again later.".
Definition overloaded : js_error := JsError "Server overloaded. Try again shortly.".
Definition safety_blocked : js_error := JsError "Content blocked by safety filters.".
Definition context_exceeded : js_error := JsError "File too long (Context Exceeded).".
Definition invalid_key : js_error := JsError "Invalid API Key.".

(** The fixed set of messages the [catch] block substitutes. *)
Definition friendly_errors : list js_error :=
  [quota_exceeded; overloaded; safety_blocked; context_exceeded; invalid_key].

(** The [catch] block. *)
Definition process_catch (error : js_error) : M event ProcessedData :=
  if String.eqb (message error) cancelled_msg then throw error else
  emit (ConsoleError "Gemini processing error:" error) ;;
  let msg := message error in
  if JSString.includes "429" msg then throw quota_exceeded else
  if JSString.includes "503" msg then throw overloaded else
  if JSString.includes "SAFETY" msg then throw safety_blocked else
  if JSString.includes "400" msg && JSString.includes "context" msg
  then throw context_exceeded else
  if JSString.includes "403" msg then throw invalid_key else
  throw error.

Definition processMediaWithGemini (env : Env) (file : File)
    (options : ProcessingOptions) (onStatusUpdate : bool)
    (signal : option AbortSignal) : M event ProcessedData :=
  try_catch (process_body env file options onStatusUpdate signal) process_catch.

(** A fresh invocation: clock at zero, nothing logged, no draw taken. *)
Definition start : state event := {| clock := 0; log := []; draws := 0 |}.

End Service.

(** ** getTTSAudio *)
Section Speech.
Variables (ev AudioBuffer : Type).

Record TTSEnv := {
  tts_API_KEY : option string;
  (** the speech request issued for the line at a given position: rejection,
      or the optional chain down to [inlineData.data] *)
  tts_generateContent : nat -> outcome (option string);
  (** [decodeAudioData(decode(base64), ctx, 24000, 1)] *)
  decodeAudio : string -> outcome AudioBuffer
}.

(** [request] is how the caller's log records the network call; [line] tells
    which answer of the environment this call receives. *)
Definition getTTSAudio (request : string -> string -> string -> ev)
    (tenv : TTSEnv) (line : nat) (text voiceName : string) : M ev AudioBuffer :=
  if negb (present (tts_API_KEY tenv)) then throw (JsError "API Key missing") else
  emit (request "gemini-2.5-flash-preview-tts" text voiceName) ;;
  base64Audio <- await (fun _ => tts_generateContent tenv line) ;;
  if negb (present base64Audio) then throw (JsError "No audio data generated") else
  lift (decodeAudio tenv (show_opt base64Audio)).

End Speech.

Arguments tts_API_KEY {AudioBuffer} _.
Arguments tts_generateContent {AudioBuffer} _ _.
Arguments decodeAudio {AudioBuffer} _ _.
Arguments getTTSAudio {ev AudioBuffer} _ _ _ _ _ _.

End GeminiService.

(* ===================================================================== *)
(** ** components/Dashboard.tsx *)
(* ===================================================================== *)

Module Dashboard.
Section Component.
Context {N : JSNumber} {AudioBuffer : Type}.

(** The records as the component's props type them. *)
Record Subtitle := {
  id : num;
  startTime : string;
  endTime : string;
  textOriginal : string;
  textVietnamese : string
}.

Record File := { file_name : string }.

Definition parseTime (timeStr : string) : num :=
  let parts := map Number (JSString.split ":" timeStr) in
  match parts with
  | [p0; p1; p2] => nadd (nadd (nmul p0 (of_Z 3600)) (nmul p1 (of_Z 60))) p2
  | [p0; p1] => nadd (nmul p0 (of_Z 60)) p1
  | _ => of_Z 0
  end.

(** The state of the offline rendering context: its construction arguments
    and the sources connected to its destination with their start offsets. *)
Record OfflineAudioContext := {
  numberOfChannels : num;
  length : num;
  sampleRate : num;
  scheduled : list (AudioBuffer * num)
}.

(** What [startRendering] resolves to: a buffer with the context's channel
    count, length and rate, holding the mix of the scheduled sources. *)
Record RenderedBuffer := {
  rb_numberOfChannels : num;
  rb_length : num;
  rb_sampleRate : num;
  rb_mix : list (AudioBuffer * num)
}.

(** Modelled from the spec: [audioBufferToWav] is imported from
    services/geminiService but is not defined there.  The spec describes its
    result as a standard uncompressed PCM container holding the final mixed
    buffer, at the buffer's fixed sample rate and channel count; a file of
    [wav_frames] sample frames at [wav_sampleRate] lasts
    [wav_frames / wav_sampleRate] seconds. *)
Record Wav := {
  wav_numChannels : num;
  wav_sampleRate : num;
  wav_frames : num;
  wav_audio : list (AudioBuffer * num)
}.

Definition audioBufferToWav (buffer : RenderedBuffer) : Wav :=
  {| wav_numChannels := rb_numberOfChannels buffer;
     wav_sampleRate := rb_sampleRate buffer;
     wav_frames := rb_length buffer;
     wav_audio := rb_mix buffer |}.

Inductive export_type := bilingual | original | vietnamese.

Definition type_name (type : export_type) : string :=
  match type with
  | bilingual => "bilingual"
  | original => "original"
  | vietnamese => "vietnamese"
  end.

(** The platform calls of the component, as the log records them.
    [NewOfflineAudioContext] is the constructor call with its arguments,
    recorded whether the constructor then returns or throws. *)
Inductive event :=
| SeekTo (seconds : num)
| SetIsGeneratingDub (b : bool)
| SetDubProgress (p : num)
| SetShowExportMenu (b : bool)
| NewAudioContext
| NewOfflineAudioContext (channels frames rate : num)
| TTSRequest (model text voiceName : string)
| StartRendering
| ConsoleWarn (line : num) (err : js_error)
| ConsoleError (msg : string) (err : js_error)
| Alert (msg : string)
| DownloadText (filename content : string)
| DownloadWav (filename : string) (wav : Wav).

(** [videoRef.current?.seekTo(seconds)]. *)
Definition seek (mounted : bool) (seconds : num) : M event unit :=
  when mounted (emit (SeekTo seconds)).

Definition handleNoteClick (mounted : bool) (timestampStr : string) : M event unit :=
  let seconds := parseTime timestampStr in
  seek mounted seconds.

(** The earlier revision of the component parses in place. *)
Definition handleNoteClick_inline (mounted : bool) (timestampStr : string)
    : M event unit :=
  let parts := map Number (JSString.split ":" timestampStr) in
  let seconds := of_Z 0 in
  let seconds :=
    match parts with
    | [p0; p1; p2] => nadd (nadd (nmul p0 (of_Z 3600)) (nmul p1 (of_Z 60))) p2
    | [p0; p1] => nadd (nmul p0 (of_Z 60)) p1
    | _ => seconds
    end in
  seek mounted seconds.

(** *** exportSRT *)

Definition nl : string := String (ascii_of_nat 10) EmptyString.

(** Millisecond normalisation of one timestamp. *)
Definition srt_time (t : string) : string :=
  if JSString.includes "," t then t else t ++ ",000".

(** One pass of the [forEach] callback over [content]. *)
Definition srt_step (type : export_type) (content : string)
    (sub : Subtitle) (index : nat) : string :=
  let start := srt_time (startTime sub) in
  let end_ := srt_time (endTime sub) in
  let content := content ++ (JSString.of_nat (index + 1) ++ nl) in
  let content := content ++ (start ++ " --> " ++ end_ ++ nl) in
  match type with
  | bilingual =>
      let content := content ++ (textOriginal sub ++ nl) in
      content ++ (textVietnamese sub ++ nl ++ nl)
  | original => content ++ (textOriginal sub ++ nl ++ nl)
  | vietnamese => content ++ (textVietnamese sub ++ nl ++ nl)
  end.

Fixpoint srt_forEach (type : export_type) (subs : list Subtitle)
    (index : nat) (content : string) : string :=
  match subs with
  | [] => content
  | sub :: rest => srt_forEach type rest (S index) (srt_step type content sub index)
  end.

(** The text handed to the [Blob]. *)
Definition srt_content (type : export_type) (subs : list Subtitle) : string :=
  srt_forEach type subs 0 "".

(** [file.name.split('.')[0]]. *)
Definition base_name (file : File) : string :=
  hd "" (JSString.split "." (file_name file)).

Definition exportSRT (file : File) (subs : list Subtitle) (type : export_type)
    : M event unit :=
  let content := srt_content type subs in
  emit (DownloadText (base_name file ++ "_" ++ type_name type ++ ".srt") content) ;;
  emit (SetShowExportMenu false).

(** *** handleDownloadDubbedAudio *)

(** Everything outside the component.  Two Web Audio calls receive numbers
    that the component computes from subtitle text, and check them: the
    constructor of the offline context throws unless the length converts to
    a positive number of frames within the platform's range ([NaN] converts
    to 0), and [start] throws for an offset that is not finite or is
    negative.  The two laws name arguments that are always accepted: a
    minute of audio at 24000 Hz, and the offset 0. *)
Record DubEnv := {
  speech : GeminiService.TTSEnv AudioBuffer;
  (** [new OfflineAudioContext(1, length, 24000)]: what it throws, or the
      [length] of the context it creates *)
  offline_context : num -> outcome num;
  (** [source.start(when)]: what it throws, if anything *)
  source_start : num -> option js_error;
  (** [None]: [startRendering] resolves; [Some e]: it rejects with [e] *)
  rendering : option js_error;
  minute_accepted :
    offline_context (nmul (of_Z 24000) (of_Z 60)) = inr (nmul (of_Z 24000) (of_Z 60));
  zero_accepted : source_start (of_Z 0) = None
}.

(** The context with one more source started on it. *)
Definition started (ctx : OfflineAudioContext) (buffer : AudioBuffer) (when : num)
    : OfflineAudioContext :=
  {| numberOfChannels := numberOfChannels ctx;
     length := length ctx;
     sampleRate := sampleRate ctx;
     scheduled := (scheduled ctx ++ [(buffer, when)])%list |}.

(** [createBufferSource], [source.buffer = buffer], [connect(destination)],
    [start(when)].  When [start] throws, the source was created and
    connected but never started, so it adds nothing to the rendering. *)
Definition schedule (env : DubEnv) (ctx : OfflineAudioContext) (buffer : AudioBuffer)
    (when : num) : M event OfflineAudioContext :=
  match source_start env when with
  | Some e => throw e
  | None => ret (started ctx buffer when)
  end.

(** [Math.round((processedCount / subtitles.length) * 100)]. *)
Definition percent (processedCount total : nat) : num :=
  nround (nmul (ndiv (of_Z (Z.of_nat processedCount)) (of_Z (Z.of_nat total)))
               (of_Z 100)).

(** The inner [try]/[catch] of the loop body, for the subtitle at position
    [line]: speech is requested and scheduled at the parsed start time; a
    failure of the request or of [start] is logged and leaves the context as
    it was. *)
Definition dub_line (env : DubEnv) (line : nat) (sub : Subtitle)
    (offlineCtx : OfflineAudioContext) : M event OfflineAudioContext :=
  let startTime := parseTime (startTime sub) in
  try_catch
    (buffer <- GeminiService.getTTSAudio TTSRequest (speech env) line
                 (textVietnamese sub) "Kore" ;;
     schedule env offlineCtx buffer startTime)
    (fun e => emit (ConsoleWarn (id sub) e) ;; ret offlineCtx).

(** The [for ... of] loop; [line] is the position of the head of [subs] in
    the whole list, [total] is [subtitles.length]. *)
Fixpoint dub_loop (env : DubEnv) (total : nat) (subs : list Subtitle) (line : nat)
    (offlineCtx : OfflineAudioContext) (processedCount : nat)
    : M event (OfflineAudioContext * nat) :=
  match subs with
  | [] => ret (offlineCtx, processedCount)
  | sub :: rest =>
      offlineCtx' <- dub_line env line sub offlineCtx ;;
      let processedCount := S processedCount in
      emit (SetDubProgress (percent processedCount total)) ;;
      dub_loop env total rest (S line) offlineCtx' processedCount
  end.

Definition startRendering (env : DubEnv) (ctx : OfflineAudioContext)
    : M event RenderedBuffer :=
  emit StartRendering ;;
  await (fun _ =>
    match rendering env with
    | Some e => inl e
    | None => inr {| rb_numberOfChannels := numberOfChannels ctx;
                     rb_length := length ctx;
                     rb_sampleRate := sampleRate ctx;
                     rb_mix := scheduled ctx |}
    end).

Definition totalDuration (subtitles : list Subtitle) : num :=
  match List.last (map Some subtitles) None with
  | Some lastSub => nadd (parseTime (endTime lastSub)) (of_Z 10)
  | None => of_Z 60
  end.

(** The body of the [try] block. *)
Definition dub_body (env : DubEnv) (file : File) (subtitles : list Subtitle)
    : M event unit :=
  emit NewAudioContext ;;
  let totalDuration := totalDuration subtitles in
  let sampleRate := of_Z 24000 in
  let channels := of_Z 1 in
  let frames := nmul sampleRate totalDuration in
  emit (NewOfflineAudioContext channels frames sampleRate) ;;
  length <- lift (offline_context env frames) ;;
  let offlineCtx :=
    {| numberOfChannels := channels; length := length;
       sampleRate := sampleRate; scheduled := [] |} in
  r <- dub_loop env (List.length subtitles) subtitles 0 offlineCtx 0 ;;
  renderedBuffer <- startRendering env (fst r) ;;
  let wavBlob := audioBufferToWav renderedBuffer in
  emit (DownloadWav (base_name file ++ "_dubbed_audio.wav") wavBlob).

Definition handleDownloadDubbedAudio (env : DubEnv) (file : File)
    (subtitles : list Subtitle) (isGeneratingDub : bool) : M event unit :=
  if isGeneratingDub then ret tt else
  emit (SetIsGeneratingDub true) ;;
  emit (SetDubProgress (of_Z 0)) ;;
  try_finally
    (try_catch (dub_body env file subtitles)
       (fun error =>
          emit (ConsoleError "Dubbing generation failed" error) ;;
          emit (Alert "Could not generate dubbed audio. Check API quota or video length.")))
    (emit (SetIsGeneratingDub false) ;; emit (SetDubProgress (of_Z 0))).

Definition start : state event := {| clock := 0; log := []; draws := 0 |}.

End Component.
End Dashboard.

(* ===================================================================== *)
(** ** Vocabulary of the properties *)
(* ===================================================================== *)

Section OrchestratorVocabulary.
Context {N : JSNumber}.

(** The number of log entries satisfying [p]. *)
Definition tally (p : GeminiService.event -> bool) (st : state (@GeminiService.event N)) : nat :=
  List.length (filter p (log st)).

(** No cancellation: there is no signal, or it never fires. *)
Definition never_fires (signal : option AbortSignal) : Prop :=
  match signal with
  | Some sg => fires_at sg = None
  | None => True
  end.

(** The poll at attempt [i] is answered, with a state that is neither
    ACTIVE nor FAILED. *)
Definition still_processing (env : GeminiService.Env) (i : nat) : Prop :=
  exists fileStatus,
    GeminiService.files_get env i = inr fileStatus /\
    opt_is (GeminiService.file_state fileStatus) "ACTIVE" = false /\
    opt_is (GeminiService.file_state fileStatus) "FAILED" = false.

(** The long-named records read field by field from one element. *)
Definition subtitle_of (s : value) : GeminiService.Subtitle :=
  {| GeminiService.id := field s "i";
     GeminiService.startTime := field s "s";
     GeminiService.endTime := field s "e";
     GeminiService.textOriginal := field s "en";
     GeminiService.textVietnamese := field s "vi" |}.

Definition note_of (n : value) : GeminiService.Note :=
  {| GeminiService.timestamp := field n "ts";
     GeminiService.title := field n "ti";
     GeminiService.content := field n "co" |}.

Definition flashcard_of (c : value) : GeminiService.Flashcard :=
  {| GeminiService.card_id := field c "id";
     GeminiService.term := field c "t";
     GeminiService.definition := field c "d";
     GeminiService.context := field c "c" |}.

End OrchestratorVocabulary.

Section DashboardVocabulary.
Context {N : JSNumber} {AudioBuffer : Type}.

(** The block the subtitle at position [index] contributes in original-only
    mode: index line, timestamp line, original text, blank line. *)
Definition original_block (index : nat) (sub : @Dashboard.Subtitle N) : string :=
  JSString.of_nat (index + 1) ++ Dashboard.nl
  ++ Dashboard.srt_time (Dashboard.startTime sub) ++ " --> "
  ++ Dashboard.srt_time (Dashboard.endTime sub) ++ Dashboard.nl
  ++ Dashboard.textOriginal sub ++ Dashboard.nl ++ Dashboard.nl.

Fixpoint blocks_from (index : nat) (subs : list (@Dashboard.Subtitle N)) : list string :=
  match subs with
  | [] => []
  | sub :: rest => original_block index sub :: blocks_from (S index) rest
  end.

(** Concatenation of blocks. *)
Definition join (blocks : list string) : string := fold_right append "" blocks.

(** Two subtitles that differ at most in their translated text. *)
Definition same_but_translation (a b : @Dashboard.Subtitle N) : Prop :=
  Dashboard.id a = Dashboard.id b /\
  Dashboard.startTime a = Dashboard.startTime b /\
  Dashboard.endTime a = Dashboard.endTime b /\
  Dashboard.textOriginal a = Dashboard.textOriginal b.





End DashboardVocabulary.

(** Sample data over the executable numbers, with base64 payloads standing
    for audio buffers. *)
Module Samples.

Definition line1 : @Dashboard.Subtitle QNumber.QNum :=
  {| Dashboard.id := of_Z 1;
     Dashboard.startTime := "00:00:01";
     Dashboard.endTime := "00:00:02,500";
     Dashboard.textOriginal := "Hello";
     Dashboard.textVietnamese := "Xin chao" |}.

Definition line2 : @Dashboard.Subtitle QNumber.QNum :=
  {| Dashboard.id := of_Z 2;
     Dashboard.startTime := "00:00:03";
     Dashboard.endTime := "00:00:04";
     Dashboard.textOriginal := "Goodbye";
     Dashboard.textVietnamese := "Tam biet" |}.

Definition line2_retranslated : @Dashboard.Subtitle QNumber.QNum :=
  {| Dashboard.id := of_Z 2;
     Dashboard.startTime := "00:00:03";
     Dashboard.endTime := "00:00:04";
     Dashboard.textOriginal := "Goodbye";
     Dashboard.textVietnamese := "Hen gap lai" |}.

Definition line3 : @Dashboard.Subtitle QNumber.QNum :=
  {| Dashboard.id := of_Z 3;
     Dashboard.startTime := "00:01:05";
     Dashboard.endTime := "00:01:07";
     Dashboard.textOriginal := "Thanks";
     Dashboard.textVietnamese := "Cam on" |}.

(** A line whose translation is the same word as the original. *)
Definition line_ok : @Dashboard.Subtitle QNumber.QNum :=
  {| Dashboard.id := of_Z 1;
     Dashboard.startTime := "00:00:01";
     Dashboard.endTime := "00:00:02";
     Dashboard.textOriginal := "OK";
     Dashboard.textVietnamese := "OK" |}.

Definition video : Dashboard.File := {| Dashboard.file_name := "lesson.mp4" |}.

(** Speech synthesis fails for the second line only. *)
Definition flaky_speech : GeminiService.TTSEnv string :=
  {| GeminiService.tts_API_KEY := Some "key";
     GeminiService.tts_generateContent :=
       fun line => if (line =? 1)%nat then inl (JsError "503 Service Unavailable")
                   else inr (Some "UENN");
     GeminiService.decodeAudio := fun base64 => inr base64 |}.

(** The argument checks of a browser, on the executable numbers.  The
    length is converted as an [unsigned long] (truncated, modulo 2^32) and
    rejected when the result is 0; the offset is rejected when it is [NaN] or
    negative. *)
Definition to_uint32 (q : Q) : Z :=
  Z.modulo (Z.quot (Qnum q) (Zpos (Qden q))) (2 ^ 32).

Definition browser_context (length : option Q) : outcome (option Q) :=
  match length with
  | None => inl (JsError "NotSupportedError")
  | Some q =>
      if (to_uint32 q =? 0)%Z then inl (JsError "NotSupportedError")
      else inr (Some (inject_Z (to_uint32 q)))
  end.

Definition browser_start (when : option Q) : option js_error :=
  match when with
  | None => Some (JsError "TypeError")
  | Some q => if Qle_bool (inject_Z 0) q then None else Some (JsError "RangeError")
  end.

Definition flaky_dub : @Dashboard.DubEnv QNumber.QNum string :=
  @Dashboard.Build_DubEnv QNumber.QNum string
    flaky_speech browser_context browser_start None eq_refl eq_refl.


Definition empty_ctx : @Dashboard.OfflineAudioContext QNumber.QNum string :=
  {| Dashboard.numberOfChannels := of_Z 1;
     Dashboard.length := of_Z 1848000;
     Dashboard.sampleRate := of_Z 24000;
     Dashboard.scheduled := [] |}.

Definition subtitle_json : @value QNumber.QNum :=
  VObject [("i", VNumber (of_Z 1)); ("s", VString "00:00:01"); ("e", VString "00:00:02");
           ("en", VString "Hello"); ("vi", VString "Xin chao")].

Definition note_json : @value QNumber.QNum :=
  VObject [("ts", VString "00:00:01"); ("ti", VString "Greeting");
           ("co", VString "How to say hello")].

Definition card_json (id : string) : @value QNumber.QNum :=
  VObject [("id", VString id); ("t", VString "hello"); ("d", VString "a greeting");
           ("c", VString "Hello, world")].

Definition response_props (card_id : string) : list (string * @value QNumber.QNum) :=
  [("subs", VArray [subtitle_json]); ("nts", VArray [note_json]);
   ("cards", VArray [card_json card_id])].

(** The upload never leaves the PROCESSING state; the parser is a stand-in
    that answers the sample response whatever the text. *)
Definition env_with (random : string) : @GeminiService.Env QNumber.QNum :=
  {| GeminiService.API_KEY := Some "key";
     GeminiService.reader := GeminiService.ReadEnd (Some "data:video/mp4;base64,AAAA");
     GeminiService.files_upload :=
       inr {| GeminiService.uri := Some "https://files/abc";
              GeminiService.name := Some "files/abc" |};
     GeminiService.files_get :=
       fun _ => inr {| GeminiService.file_state := Some "PROCESSING" |};
     GeminiService.generateContent := inr {| GeminiService.text := Some "{}" |};
     GeminiService.JSON_parse := fun _ => inr (VObject (response_props "c1"));
     GeminiService.Math_random := fun _ => random;
     GeminiService.type_error := JsError "TypeError" |}.

(** The first status request fails on the network. *)
Definition offline_env : @GeminiService.Env QNumber.QNum :=
  {| GeminiService.API_KEY := Some "key";
     GeminiService.reader := GeminiService.ReadEnd (Some "data:video/mp4;base64,AAAA");
     GeminiService.files_upload :=
       inr {| GeminiService.uri := Some "https://files/abc";
              GeminiService.name := Some "files/abc" |};
     GeminiService.files_get := fun _ => inl (JsError "Failed to fetch");
     GeminiService.generateContent := inr {| GeminiService.text := Some "{}" |};
     GeminiService.JSON_parse := fun _ => inr (VObject (response_props "c1"));
     GeminiService.Math_random := fun _ => "0.25";
     GeminiService.type_error := JsError "TypeError" |}.

Definition small_file : GeminiService.File :=
  {| GeminiService.file_name := "lesson.mp4";
     GeminiService.file_type := "video/mp4";
     GeminiService.file_size := 1024 |}.

Definition auto_options : GeminiService.ProcessingOptions :=
  {| GeminiService.originalLanguage := "Auto Detect";
     GeminiService.generateNotes := true;
     GeminiService.generateFlashcards := true |}.

End Samples.

(* ===================================================================== *)
(** ** Further vocabulary: logs, response shapes, export blocks *)
(* ===================================================================== *)

Section LogVocabulary.
Context {event : Type}.

(** How many logged calls belong to the class [p]. *)
Definition calls (p : event -> bool) (st : state event) : nat :=
  List.length (filter p (log st)).

(** [c] issues no call of the class [p], however it ends. *)
Definition silent {A : Type} (p : event -> bool) (c : M event A) : Prop :=
  forall st, calls p (snd (c st)) = calls p st.

End LogVocabulary.

Section OrchestratorShapes.
Context {N : JSNumber}.

Definition is_generate (e : @GeminiService.event N) : bool :=
  match e with GeminiService.GenerateContent _ _ _ => true | _ => false end.

Definition is_status (e : @GeminiService.event N) : bool :=
  match e with GeminiService.StatusUpdate _ _ => true | _ => false end.

Definition is_read (e : @GeminiService.event N) : bool :=
  match e with GeminiService.ReadAsDataURL _ => true | _ => false end.

Definition is_upload (e : @GeminiService.event N) : bool :=
  match e with GeminiService.FilesUpload _ _ => true | _ => false end.

(** The calls of the out-of-band path: upload, status poll, poll timer. *)
Definition is_out_of_band (e : @GeminiService.event N) : bool :=
  match e with
  | GeminiService.FilesUpload _ _ | GeminiService.FilesGet _
  | GeminiService.SetTimeout _ => true
  | _ => false
  end.

(** The poll at attempt [i] is answered with the state ACTIVE. *)
Definition reports_active (env : GeminiService.Env) (i : nat) : Prop :=
  exists fileStatus,
    GeminiService.files_get env i = inr fileStatus /\
    opt_is (GeminiService.file_state fileStatus) "ACTIVE" = true.

(** The poll at attempt [i] is answered with the state FAILED. *)
Definition reports_failed (env : GeminiService.Env) (i : nat) : Prop :=
  exists fileStatus,
    GeminiService.files_get env i = inr fileStatus /\
    opt_is (GeminiService.file_state fileStatus) "FAILED" = true.

(** Neither [null] nor [undefined]: a value whose properties can be read. *)
Definition readable (v : @value N) : bool :=
  match v with
  | VUndefined | VNull => false
  | _ => true
  end.

(** An array none of whose elements is [null] or [undefined]. *)
Definition readable_array (v : @value N) : bool :=
  match v with
  | VArray items => forallb readable items
  | _ => false
  end.

(** The responses the expansion accepts. *)
Definition expandable (rawData : @value N) : bool :=
  readable rawData
  && readable_array (field rawData "subs")
  && readable_array (field rawData "nts")
  && readable_array (field rawData "cards").

Definition items_of (v : @value N) : list value :=
  match v with
  | VArray items => items
  | _ => []
  end.

(** The flashcards of an array of cards when the random source has already
    been drawn [k] times: a truthy [id] is kept, a falsy one is replaced by
    the next draw. *)
Fixpoint assign_ids (random : nat -> string) (k : nat) (cards : list (@value N))
    : list GeminiService.Flashcard :=
  match cards with
  | [] => []
  | c :: rest =>
      if truthy (field c "id")
      then flashcard_of c :: assign_ids random k rest
      else {| GeminiService.card_id := VString (random k);
              GeminiService.term := field c "t";
              GeminiService.definition := field c "d";
              GeminiService.context := field c "c" |}
           :: assign_ids random (S k) rest
  end.

(** The number of cards whose [id] is falsy. *)
Definition generated_ids (cards : list (@value N)) : nat :=
  List.length (filter (fun c => negb (truthy (field c "id"))) cards).

(** The data the expansion builds from an accepted response when the random
    source has been drawn [k] times. *)
Definition expanded (random : nat -> string) (k : nat) (rawData : @value N)
    : GeminiService.ProcessedData :=
  {| GeminiService.subtitles := map subtitle_of (items_of (field rawData "subs"));
     GeminiService.notes := map note_of (items_of (field rawData "nts"));
     GeminiService.flashcards := assign_ids random k (items_of (field rawData "cards")) |}.

(** A status update, if the caller passed a callback. *)
Definition status_if (onStatusUpdate : bool) (msg : string) (progress : num)
    : list (@GeminiService.event N) :=
  if onStatusUpdate then [GeminiService.StatusUpdate msg progress] else [].

(** What the [catch] block throws for an error other than the cancellation. *)
Definition translated (error : js_error) : js_error :=
  let msg := message error in
  if JSString.includes "429" msg then GeminiService.quota_exceeded
  else if JSString.includes "503" msg then GeminiService.overloaded
  else if JSString.includes "SAFETY" msg then GeminiService.safety_blocked
  else if JSString.includes "400" msg && JSString.includes "context" msg
       then GeminiService.context_exceeded
  else if JSString.includes "403" msg then GeminiService.invalid_key
  else error.

End OrchestratorShapes.

Section DashboardShapes.
Context {N : JSNumber} {AudioBuffer : Type}.

(** The text lines of a block and its closing blank line, by mode. *)
Definition text_lines (type : Dashboard.export_type) (sub : @Dashboard.Subtitle N)
    : string :=
  match type with
  | Dashboard.bilingual =>
      Dashboard.textOriginal sub ++ Dashboard.nl
      ++ Dashboard.textVietnamese sub ++ Dashboard.nl ++ Dashboard.nl
  | Dashboard.original => Dashboard.textOriginal sub ++ Dashboard.nl ++ Dashboard.nl
  | Dashboard.vietnamese => Dashboard.textVietnamese sub ++ Dashboard.nl ++ Dashboard.nl
  end.

(** The block of the subtitle at position [index], in any mode. *)
Definition srt_block (type : Dashboard.export_type) (index : nat)
    (sub : @Dashboard.Subtitle N) : string :=
  JSString.of_nat (index + 1) ++ Dashboard.nl
  ++ Dashboard.srt_time (Dashboard.startTime sub) ++ " --> "
  ++ Dashboard.srt_time (Dashboard.endTime sub) ++ Dashboard.nl
  ++ text_lines type sub.

Fixpoint srt_blocks (type : Dashboard.export_type) (index : nat)
    (subs : list (@Dashboard.Subtitle N)) : list string :=
  match subs with
  | [] => []
  | sub :: rest => srt_block type index sub :: srt_blocks type (S index) rest
  end.

(** Two subtitles that differ at most in their original text. *)
Definition same_but_original (a b : @Dashboard.Subtitle N) : Prop :=
  Dashboard.id a = Dashboard.id b /\
  Dashboard.startTime a = Dashboard.startTime b /\
  Dashboard.endTime a = Dashboard.endTime b /\
  Dashboard.textVietnamese a = Dashboard.textVietnamese b.

(** The double quote character, as a string. *)
Definition dquote : string := String (ascii_of_nat 34) EmptyString.

Definition generateFFmpegCommand (file : Dashboard.File) : string :=
  let videoName := Dashboard.file_name file in
  let audioName := Dashboard.base_name file ++ "_dubbed_audio.wav" in
  let outputName := Dashboard.base_name file ++ "_final.mp4" in
  "ffmpeg -i " ++ dquote ++ videoName ++ dquote
  ++ " -i " ++ dquote ++ audioName ++ dquote
  ++ " -c:v copy -c:a aac -map 0:v:0 -map 1:a:0 -shortest "
  ++ dquote ++ outputName ++ dquote.

(** What [getTTSAudio] returns or throws for the line at position [line]. *)
Definition tts_result (tenv : GeminiService.TTSEnv AudioBuffer) (line : nat)
    : outcome AudioBuffer :=
  if negb (present (GeminiService.tts_API_KEY tenv))
  then inl (JsError "API Key missing")
  else match GeminiService.tts_generateContent tenv line with
       | inl e => inl e
       | inr base64Audio =>
           if negb (present base64Audio)
           then inl (JsError "No audio data generated")
           else GeminiService.decodeAudio tenv (show_opt base64Audio)
       end.

(** The context with more sources started on it. *)
Definition add_sources (ctx : @Dashboard.OfflineAudioContext N AudioBuffer)
    (sources : list (AudioBuffer * num)) : Dashboard.OfflineAudioContext :=
  {| Dashboard.numberOfChannels := Dashboard.numberOfChannels ctx;
     Dashboard.length := Dashboard.length ctx;
     Dashboard.sampleRate := Dashboard.sampleRate ctx;
     Dashboard.scheduled := (Dashboard.scheduled ctx ++ sources)%list |}.

(** What the inner [try] block ends with for the subtitle at position
    [line]: the buffer and the offset of the source it started, or the error
    of the speech request or of [start]. *)
Definition line_result (env : @Dashboard.DubEnv N AudioBuffer) (line : nat)
    (sub : @Dashboard.Subtitle N) : outcome (AudioBuffer * num) :=
  match tts_result (Dashboard.speech env) line with
  | inl e => inl e
  | inr buffer =>
      match Dashboard.source_start env (Dashboard.parseTime (Dashboard.startTime sub)) with
      | Some e => inl e
      | None => inr (buffer, Dashboard.parseTime (Dashboard.startTime sub))
      end
  end.

Definition sources_of (r : outcome (AudioBuffer * num)) : list (AudioBuffer * num) :=
  match r with
  | inr source => [source]
  | inl _ => []
  end.

(** The sources the loop starts, in list order; [line] is the position of
    the head of [subs]. *)
Fixpoint started_lines (env : @Dashboard.DubEnv N AudioBuffer) (line : nat)
    (subs : list (@Dashboard.Subtitle N)) : list (AudioBuffer * num) :=
  match subs with
  | [] => []
  | sub :: rest =>
      (sources_of (line_result env line sub) ++ started_lines env (S line) rest)%list
  end.

(** What one pass of the loop body logs. *)
Definition line_trace (env : @Dashboard.DubEnv N AudioBuffer) (total line count : nat)
    (sub : @Dashboard.Subtitle N) : list (@Dashboard.event N AudioBuffer) :=
  ((if present (GeminiService.tts_API_KEY (Dashboard.speech env))
    then [Dashboard.TTSRequest "gemini-2.5-flash-preview-tts"
            (Dashboard.textVietnamese sub) "Kore"]
    else [])
   ++ match line_result env line sub with
      | inl e => [Dashboard.ConsoleWarn (Dashboard.id sub) e]
      | inr _ => []
      end
   ++ [Dashboard.SetDubProgress (Dashboard.percent (S count) total)])%list.

Fixpoint loop_trace (env : @Dashboard.DubEnv N AudioBuffer) (total line count : nat)
    (subs : list (@Dashboard.Subtitle N)) : list (@Dashboard.event N AudioBuffer) :=
  match subs with
  | [] => []
  | sub :: rest =>
      (line_trace env total line count sub
       ++ loop_trace env total (S line) (S count) rest)%list
  end.

Definition is_tts_request (e : @Dashboard.event N AudioBuffer) : bool :=
  match e with Dashboard.TTSRequest _ _ _ => true | _ => false end.

Definition is_download (e : @Dashboard.event N AudioBuffer) : bool :=
  match e with
  | Dashboard.DownloadWav _ _ | Dashboard.DownloadText _ _ => true
  | _ => false
  end.

Definition is_alert (e : @Dashboard.event N AudioBuffer) : bool :=
  match e with Dashboard.Alert _ => true | _ => false end.

Definition is_warning (e : @Dashboard.event N AudioBuffer) : bool :=
  match e with Dashboard.ConsoleWarn _ _ => true | _ => false end.

Definition is_rendering (e : @Dashboard.event N AudioBuffer) : bool :=
  match e with Dashboard.StartRendering => true | _ => false end.

(** The audio file of a run whose context has [frames] frames: one channel
    at 24000 Hz, holding the started sources. *)
Definition exported_wav (env : @Dashboard.DubEnv N AudioBuffer) (frames : num)
    (subs : list (@Dashboard.Subtitle N)) : @Dashboard.Wav N AudioBuffer :=
  {| Dashboard.wav_numChannels := of_Z 1;
     Dashboard.wav_sampleRate := of_Z 24000;
     Dashboard.wav_frames := frames;
     Dashboard.wav_audio := started_lines env 0 subs |}.

(** What the outer [catch] block logs. *)
Definition failure_trace (error : js_error) : list (@Dashboard.event N AudioBuffer) :=
  [Dashboard.ConsoleError "Dubbing generation failed" error;
   Dashboard.Alert "Could not generate dubbed audio. Check API quota or video length."].

(** The length the handler asks for. *)
Definition requested_frames (subs : list (@Dashboard.Subtitle N)) : num :=
  nmul (of_Z 24000) (Dashboard.totalDuration subs).

(** What the handler logs between raising and lowering the in-progress
    flag. *)
Definition run_trace (env : @Dashboard.DubEnv N AudioBuffer) (file : Dashboard.File)
    (subs : list (@Dashboard.Subtitle N)) : list (@Dashboard.event N AudioBuffer) :=
  ([Dashboard.NewAudioContext;
    Dashboard.NewOfflineAudioContext (of_Z 1) (requested_frames subs) (of_Z 24000)]
   ++ match Dashboard.offline_context env (requested_frames subs) with
      | inl e => failure_trace e
      | inr frames =>
          loop_trace env (List.length subs) 0 0 subs
          ++ Dashboard.StartRendering
             :: match Dashboard.rendering env with
                | None =>
                    [Dashboard.DownloadWav
                       (Dashboard.base_name file ++ "_dubbed_audio.wav")
                       (exported_wav env frames subs)]
                | Some e => failure_trace e
                end
      end)%list.

End DashboardShapes.

(** ** Further sample data *)

Module Scenarios.

(** Like [Samples.env_with], but the upload leaves the PROCESSING state at
    poll [k], where the status request meets [answer]; cards come without an
    [id]. *)
Definition settles (k : nat) (answer : outcome GeminiService.FileStatus)
    : @GeminiService.Env QNumber.QNum :=
  {| GeminiService.API_KEY := Some "key";
     GeminiService.reader := GeminiService.ReadEnd (Some "data:video/mp4;base64,AAAA");
     GeminiService.files_upload :=
       inr {| GeminiService.uri := Some "https://files/abc";
              GeminiService.name := Some "files/abc" |};
     GeminiService.files_get :=
       fun i => if (i <? k)%nat
                then inr {| GeminiService.file_state := Some "PROCESSING" |}
                else answer;
     GeminiService.generateContent := inr {| GeminiService.text := Some "{}" |};
     GeminiService.JSON_parse := fun _ => inr (VObject (Samples.response_props ""));
     GeminiService.Math_random := fun _ => "0.25";
     GeminiService.type_error := JsError "TypeError" |}.

Definition active : outcome GeminiService.FileStatus :=
  inr {| GeminiService.file_state := Some "ACTIVE" |}.

Definition failed : outcome GeminiService.FileStatus :=
  inr {| GeminiService.file_state := Some "FAILED" |}.

(** No credential is configured. *)
Definition keyless : @GeminiService.Env QNumber.QNum :=
  {| GeminiService.API_KEY := None;
     GeminiService.reader := GeminiService.ReadEnd (Some "data:video/mp4;base64,AAAA");
     GeminiService.files_upload :=
       inr {| GeminiService.uri := Some "https://files/abc";
              GeminiService.name := Some "files/abc" |};
     GeminiService.files_get := fun _ => active;
     GeminiService.generateContent := inr {| GeminiService.text := Some "{}" |};
     GeminiService.JSON_parse := fun _ => inr (VObject (Samples.response_props "c1"));
     GeminiService.Math_random := fun _ => "0.25";
     GeminiService.type_error := JsError "TypeError" |}.

(** The upload is answered with a URI but without a name. *)
Definition nameless_upload : @GeminiService.Env QNumber.QNum :=
  {| GeminiService.API_KEY := Some "key";
     GeminiService.reader := GeminiService.ReadEnd (Some "data:video/mp4;base64,AAAA");
     GeminiService.files_upload :=
       inr {| GeminiService.uri := Some "https://files/abc";
              GeminiService.name := None |};
     GeminiService.files_get := fun _ => active;
     GeminiService.generateContent := inr {| GeminiService.text := Some "{}" |};
     GeminiService.JSON_parse := fun _ => inr (VObject (Samples.response_props "c1"));
     GeminiService.Math_random := fun _ => "0.25";
     GeminiService.type_error := JsError "TypeError" |}.

(** The answered text is cut short, and the parser says where. *)
Definition unparsable : @GeminiService.Env QNumber.QNum :=
  {| GeminiService.API_KEY := Some "key";
     GeminiService.reader := GeminiService.ReadEnd (Some "data:video/mp4;base64,AAAA");
     GeminiService.files_upload :=
       inr {| GeminiService.uri := Some "https://files/abc";
              GeminiService.name := Some "files/abc" |};
     GeminiService.files_get := fun _ => active;
     GeminiService.generateContent := inr {| GeminiService.text := Some "{" |};
     GeminiService.JSON_parse :=
       fun _ => inl (JsError "Unexpected token } in JSON at position 429");
     GeminiService.Math_random := fun _ => "0.25";
     GeminiService.type_error := JsError "TypeError" |}.

(** 50 MiB: above the inline limit. *)
Definition large_file : GeminiService.File :=
  {| GeminiService.file_name := "lecture.mp4";
     GeminiService.file_type := "video/mp4";
     GeminiService.file_size := 52428800 |}.

(** Speech synthesis without a credential. *)
Definition keyless_dub : @Dashboard.DubEnv QNumber.QNum string :=
  @Dashboard.Build_DubEnv QNumber.QNum string
    {| GeminiService.tts_API_KEY := None;
       GeminiService.tts_generateContent := fun _ => inr (Some "UENN");
       GeminiService.decodeAudio := fun base64 => inr base64 |}
    Samples.browser_context Samples.browser_start None eq_refl eq_refl.

(** Every speech request is answered. *)
Definition steady_dub : @Dashboard.DubEnv QNumber.QNum string :=
  @Dashboard.Build_DubEnv QNumber.QNum string
    {| GeminiService.tts_API_KEY := Some "key";
       GeminiService.tts_generateContent := fun _ => inr (Some "UENN");
       GeminiService.decodeAudio := fun base64 => inr base64 |}
    Samples.browser_context Samples.browser_start None eq_refl eq_refl.

(** A line whose start time is a bare number of seconds. *)
Definition line_bare : @Dashboard.Subtitle QNumber.QNum :=
  {| Dashboard.id := of_Z 1;
     Dashboard.startTime := "42";
     Dashboard.endTime := "00:00:45";
     Dashboard.textOriginal := "Hello";
     Dashboard.textVietnamese := "Xin chao" |}.

End Scenarios.

(* ===================================================================== *)
(** * Properties *)
(* ===================================================================== *)

(** ** Strings *)

Section StringFacts.

Lemma split_length (sep : ascii) (s : string) :
  List.length (JSString.split sep s) = S (JSString.count_char sep s).
Proof.
  induction s as [|c rest IH]; simpl; [reflexivity|].
  destruct (Ascii.eqb c sep); simpl.
  - now rewrite IH.
  - destruct (JSString.split sep rest) as [|field fields]; simpl in *; [discriminate|].
    exact IH.
Qed.

Lemma split_no_separator (sep : ascii) (s : string) :
  JSString.count_char sep s = 0 -> JSString.split sep s = [s].
Proof.
  induction s as [|c rest IH]; simpl; [reflexivity|].
  destruct (Ascii.eqb c sep); simpl; [discriminate|].
  intros H. now rewrite (IH H).
Qed.

Lemma count_char_In (c : ascii) (s : string) :
  JSString.count_char c s = 0 <-> ~ In c (list_ascii_of_string s).
Proof.
  induction s as [|d rest IH]; simpl.
  - split; [intros _ []|reflexivity].
  - destruct (Ascii.eqb_spec d c) as [->|Hne]; simpl.
    + split; [discriminate|]. intros H. exfalso. apply H. now left.
    + rewrite IH. split.
      * intros H [E|HI]; [now apply Hne|now apply H].
      * intros H HI. apply H. now right.
Qed.

(** [includes] of a one-character needle is membership of the character. *)
Lemma includes_char (c : ascii) (s : string) :
  JSString.includes (String c EmptyString) s = negb (JSString.count_char c s =? 0)%nat.
Proof.
  induction s as [|d rest IH]; [reflexivity|].
  cbn [JSString.includes JSString.count_char String.prefix].
  rewrite IH.
  destruct (ascii_dec c d) as [->|Hne].
  - rewrite Ascii.eqb_refl. now destruct rest.
  - destruct (Ascii.eqb_spec d c) as [E|_]; [now subst|].
    reflexivity.
Qed.

Lemma append_assoc (a b c : string) : (a ++ b) ++ c = a ++ (b ++ c).
Proof. induction a as [|x a IH]; simpl; [reflexivity|now rewrite IH]. Qed.

Lemma append_empty_r (a : string) : a ++ "" = a.
Proof. induction a as [|x a IH]; simpl; [reflexivity|now rewrite IH]. Qed.

Lemma includes_app_r (needle a b : string) :
  JSString.includes needle b = true -> JSString.includes needle (a ++ b) = true.
Proof.
  intros H. induction a as [|x a IH]; simpl; [exact H|].
  rewrite IH. apply orb_true_r.
Qed.

Lemma prefix_app (a b : string) : String.prefix a (a ++ b) = true.
Proof.
  induction a as [|x a IH]; simpl; [now destruct b|].
  destruct (ascii_dec x x) as [_|Hne]; [exact IH|now elim Hne].
Qed.

Lemma includes_of_prefix (needle hay : string) :
  String.prefix needle hay = true -> JSString.includes needle hay = true.
Proof.
  intros H. destruct hay; cbn [JSString.includes]; [exact H|].
  rewrite H. reflexivity.
Qed.

Lemma includes_prefix (needle rest : string) :
  JSString.includes needle (needle ++ rest) = true.
Proof. apply includes_of_prefix, prefix_app. Qed.

End StringFacts.

(** ** The dashboard: timestamps and subtitle export *)

Section DashboardFacts.
Context {N : JSNumber} {AudioBuffer : Type}.

Local Abbreviation event := (@Dashboard.event N AudioBuffer).

Lemma parseTime_three (timeStr h m s : string) :
  JSString.split ":" timeStr = [h; m; s] ->
  Dashboard.parseTime timeStr =
  nadd (nadd (nmul (Number h) (of_Z 3600)) (nmul (Number m) (of_Z 60))) (Number s).
Proof. unfold Dashboard.parseTime. now intros ->. Qed.

Lemma parseTime_two (timeStr m s : string) :
  JSString.split ":" timeStr = [m; s] ->
  Dashboard.parseTime timeStr = nadd (nmul (Number m) (of_Z 60)) (Number s).
Proof. unfold Dashboard.parseTime. now intros ->. Qed.

Lemma parseTime_other (timeStr : string) :
  List.length (JSString.split ":" timeStr) <> 3 ->
  List.length (JSString.split ":" timeStr) <> 2 ->
  Dashboard.parseTime timeStr = of_Z 0.
Proof.
  unfold Dashboard.parseTime.
  destruct (JSString.split ":" timeStr) as [|a [|b [|c [|d l]]]]; simpl; intros H3 H2;
    try reflexivity; [now elim H2 | now elim H3].
Qed.

Lemma handleNoteClick_inline_agrees (mounted : bool) (timestampStr : string) :
  @Dashboard.handleNoteClick_inline N AudioBuffer mounted timestampStr =
  Dashboard.handleNoteClick mounted timestampStr.
Proof.
  unfold Dashboard.handleNoteClick_inline, Dashboard.handleNoteClick, Dashboard.parseTime.
  now destruct (map Number (JSString.split ":" timestampStr)) as [|a [|b [|c [|d l]]]].
Qed.

Lemma srt_step_original (content : string) (sub : Dashboard.Subtitle) (index : nat) :
  Dashboard.srt_step Dashboard.original content sub index
  = content ++ original_block index sub.
Proof.
  unfold Dashboard.srt_step, original_block.
  now rewrite !append_assoc.
Qed.

Lemma srt_forEach_original (subs : list Dashboard.Subtitle) :
  forall index content,
    Dashboard.srt_forEach Dashboard.original subs index content
    = content ++ join (blocks_from index subs).
Proof.
  induction subs as [|sub rest IH]; intros index content;
    cbn [Dashboard.srt_forEach blocks_from].
  - apply eq_sym, append_empty_r.
  - rewrite IH, srt_step_original, append_assoc. reflexivity.
Qed.

Lemma blocks_from_length (subs : list Dashboard.Subtitle) :
  forall index, List.length (blocks_from index subs) = List.length subs.
Proof. induction subs as [|sub rest IH]; intros index; simpl; [|rewrite IH]; reflexivity. Qed.

Lemma blocks_from_nth (subs : list Dashboard.Subtitle) :
  forall index i sub,
    nth_error subs i = Some sub ->
    nth_error (blocks_from index subs) i = Some (original_block (index + i) sub).
Proof.
  induction subs as [|s rest IH]; intros index [|i] sub H; simpl in *; try discriminate.
  - injection H as ->. now rewrite Nat.add_0_r.
  - rewrite (IH (S index) i sub H). f_equal. f_equal. lia.
Qed.

Lemma blocks_from_translation (subs subs' : list Dashboard.Subtitle) :
  Forall2 same_but_translation subs subs' ->
  forall index, blocks_from index subs = blocks_from index subs'.
Proof.
  induction 1 as [|a b l l' (Hid & Hs & He & Ho) _ IH]; intros index; simpl; [reflexivity|].
  rewrite IH. unfold original_block. now rewrite Hs, He, Ho.
Qed.

(** C7, as amended.  In original-only mode the exported text is the
    concatenation, in list order, of exactly one block per subtitle, the block
    at position [i] being the line [i+1], the line [<start> --> <end>], the
    original text and a blank line; the translated text is never written: the
    export is the same for any two lists that differ only in translated
    text. *)
Theorem exportSRT_original_blocks (subs : list Dashboard.Subtitle) :
  Dashboard.srt_content Dashboard.original subs = join (blocks_from 0 subs) /\
  List.length (blocks_from 0 subs) = List.length subs /\
  (forall i sub, nth_error subs i = Some sub ->
     nth_error (blocks_from 0 subs) i = Some (original_block i sub)) /\
  (forall subs', Forall2 same_but_translation subs subs' ->
     Dashboard.srt_content Dashboard.original subs'
     = Dashboard.srt_content Dashboard.original subs) /\
  (forall (file : Dashboard.File) (st : state event),
     Dashboard.exportSRT file subs Dashboard.original st
     = (inr tt,
        push (Dashboard.SetShowExportMenu false)
          (push (Dashboard.DownloadText
                   (Dashboard.base_name file ++ "_original.srt")
                   (join (blocks_from 0 subs))) st))).
Proof.
  assert (Hc : forall l, Dashboard.srt_content Dashboard.original l = join (blocks_from 0 l)).
  { intros l. unfold Dashboard.srt_content. now rewrite srt_forEach_original. }
  split; [apply Hc|]. split; [apply blocks_from_length|].
  split; [intros i sub H; now rewrite (blocks_from_nth subs 0 i sub H)|].
  split.
  - intros subs' H. rewrite !Hc. now rewrite (blocks_from_translation subs subs' H).
  - intros file st. unfold Dashboard.exportSRT. rewrite Hc. reflexivity.
Qed.

End DashboardFacts.

(** ** The effect monad *)

Section MonadFacts.
Context {event : Type}.

Lemma bind_inr_inv {A B} (c : M event A) (k : A -> M event B) st b st' :
  bind c k st = (inr b, st') ->
  exists a st1, c st = (inr a, st1) /\ k a st1 = (inr b, st').
Proof.
  unfold bind. destruct (c st) as [[e|a] st1]; [discriminate|].
  intros H. now exists a, st1.
Qed.

Lemma mapM_length {A B} (f : A -> M event B) (items : list A) :
  forall st ys st', mapM f items st = (inr ys, st') -> List.length ys = List.length items.
Proof.
  induction items as [|x rest IH]; intros st ys st' H; cbn [mapM] in H.
  - injection H as <- _. reflexivity.
  - apply bind_inr_inv in H as (y & st1 & _ & H).
    apply bind_inr_inv in H as (ys' & st2 & Hrest & H).
    injection H as <- _. simpl. f_equal. exact (IH _ _ _ Hrest).
Qed.

(** A callback that neither throws nor touches the state maps like [map]. *)
Lemma mapM_pure {A B} (f : A -> M event B) (g : A -> B) (items : list A) st :
  Forall (fun x => f x st = (inr (g x), st)) items ->
  mapM f items st = (inr (map g items), st).
Proof.
  induction 1 as [|x rest Hx _ IH]; cbn [mapM map]; [reflexivity|].
  unfold bind at 1. rewrite Hx. unfold bind at 1. rewrite IH. reflexivity.
Qed.

Lemma push_clock (e : event) st : clock (push e st) = clock st.
Proof. reflexivity. Qed.

Lemma push_log (e : event) st : log (push e st) = (log st ++ [e])%list.
Proof. reflexivity. Qed.

Lemma tick_clock (st : state event) : clock (tick st) = S (clock st).
Proof. reflexivity. Qed.

Lemma tick_log (st : state event) : log (tick st) = log st.
Proof. reflexivity. Qed.

End MonadFacts.

(** ** The orchestrator *)

Section GeminiFacts.
Context {N : JSNumber}.

Local Abbreviation gstate := (state (@GeminiService.event N)).

Lemma tally_push p e (st : gstate) :
  tally p (push e st) = tally p st + (if p e then 1 else 0).
Proof.
  unfold tally. rewrite push_log, filter_app, length_app. simpl.
  now destruct (p e).
Qed.

Lemma tally_tick p (st : gstate) : tally p (tick st) = tally p st.
Proof. reflexivity. Qed.

Lemma never_fires_quiet (signal : option AbortSignal) (t : nat) :
  never_fires signal ->
  opt_aborted signal t = false /\
  (forall T (p : outcome T), runWithCancellation p signal t = p) /\
  match signal with
  | Some sg => fires_during sg t = false
  | None => True
  end.
Proof.
  destruct signal as [sg|]; simpl; [|now auto].
  intros H. unfold aborted, fires_during, runWithCancellation, aborted, fires_during.
  rewrite H. auto.
Qed.

(** One full iteration of the poll loop that neither returns nor throws. *)
Lemma poll_step (env : GeminiService.Env) (fileName : string)
    (onStatusUpdate : bool) (signal : option AbortSignal)
    (remaining i : nat) (st : gstate) (fileStatus : GeminiService.FileStatus) :
  opt_aborted signal (clock st) = false ->
  runWithCancellation (GeminiService.files_get env i) signal (clock st) = inr fileStatus ->
  opt_is (GeminiService.file_state fileStatus) "ACTIVE" = false ->
  opt_is (GeminiService.file_state fileStatus) "FAILED" = false ->
  abort_or signal (inr tt) (S (clock st)) = inr tt ->
  exists st3,
    GeminiService.poll_from env fileName onStatusUpdate signal (S remaining) i st
    = GeminiService.poll_from env fileName onStatusUpdate signal remaining (S i) st3 /\
    clock st3 = S (S (clock st)) /\
    forall p,
      (forall m q, p (GeminiService.StatusUpdate m q) = false) ->
      (forall m, p (GeminiService.ConsoleLog m) = false) ->
      tally p st3 = tally p st
        + (if p (GeminiService.FilesGet fileName) then 1 else 0)
        + (if p (GeminiService.SetTimeout GeminiService.delayMs) then 1 else 0).
Proof.
  intros Hab Hget Hactive Hfailed Hwait.
  cbn [GeminiService.poll_from].
  unfold bind at 1, now at 1. rewrite Hab.
  unfold bind at 1, emit at 1.
  unfold bind at 1, await at 1. rewrite push_clock, Hget.
  unfold bind at 1, emit at 1. rewrite Hactive, Hfailed.
  set (st1 := push _ (tick (push _ st))).
  unfold bind at 1.
  set (upd := when onStatusUpdate _).
  assert (Hupd : exists st2, upd st1 = (inr tt, st2) /\ clock st2 = clock st1 /\
            forall p, (forall m q, p (GeminiService.StatusUpdate m q) = false) ->
                      tally p st2 = tally p st1).
  { unfold upd, when. destruct onStatusUpdate.
    - eexists. split; [reflexivity|]. split; [reflexivity|].
      intros p Hp. rewrite tally_push, Hp. lia.
    - exists st1. now repeat split. }
  destruct Hupd as (st2 & -> & Hclk2 & Htal2).
  unfold bind at 1, GeminiService.poll_delay at 1, bind at 1, emit at 1, await at 1.
  rewrite push_clock, Hclk2.
  change (clock st1) with (S (clock st)). rewrite Hwait.
  eexists. split; [reflexivity|]. split.
  - rewrite tick_clock, push_clock, Hclk2. reflexivity.
  - intros p Hp Hl. rewrite tally_tick, tally_push, (Htal2 p Hp).
    unfold st1. rewrite tally_push, tally_tick, tally_push, Hl. lia.
Qed.

Lemma poll_from_timeout (env : GeminiService.Env) (fileName : string)
    (onStatusUpdate : bool) (signal : option AbortSignal) :
  never_fires signal ->
  forall remaining i (st : gstate),
    (forall j, i <= j < i + remaining -> still_processing env j) ->
    exists st',
      GeminiService.poll_from env fileName onStatusUpdate signal remaining i st
      = (inl GeminiService.timed_out, st') /\
      tally GeminiService.is_poll st' = tally GeminiService.is_poll st + remaining /\
      tally GeminiService.is_timer st' = tally GeminiService.is_timer st + remaining /\
      tally (GeminiService.is_delay GeminiService.delayMs) st'
      = tally (GeminiService.is_delay GeminiService.delayMs) st + remaining.
Proof.
  intros Hquiet. induction remaining as [|remaining IH]; intros i st Hpolls.
  - exists st. cbn [GeminiService.poll_from]. unfold throw.
    repeat split; lia.
  - destruct (Hpolls i ltac:(lia)) as (fs & Hget & Hactive & Hfailed).
    destruct (never_fires_quiet signal (clock st) Hquiet) as (Hab & Hrun & _).
    destruct (never_fires_quiet signal (S (clock st)) Hquiet) as (_ & _ & Hdur).
    destruct (poll_step env fileName onStatusUpdate signal remaining i st fs)
      as (st3 & -> & _ & Htal); auto.
    { now rewrite Hrun. }
    { unfold abort_or. destruct signal; [now rewrite Hdur|reflexivity]. }
    destruct (IH (S i) st3) as (st' & Hrun' & Hp & Ht & Hd).
    { intros j Hj. apply Hpolls. lia. }
    exists st'. split; [exact Hrun'|].
    rewrite Hp, Ht, Hd, !Htal by reflexivity. simpl. repeat split; lia.
Qed.

(** C4, as amended. When no cancellation fires and every one of the 120
    status polls is answered, with a state other than ACTIVE and FAILED,
    [waitForFileActive] issues exactly 120 polls, each followed by one
    5000 ms timer, and then throws the error whose message is
    [File upload timed out.]. *)
Theorem waitForFileActive_times_out (env : GeminiService.Env) (fileName : string)
    (onStatusUpdate : bool) (signal : option AbortSignal) (st : gstate) :
  never_fires signal ->
  (forall i, i < GeminiService.maxAttempts -> still_processing env i) ->
  exists st',
    GeminiService.waitForFileActive env fileName onStatusUpdate signal st
    = (inl (JsError "File upload timed out."), st') /\
    tally GeminiService.is_poll st' = tally GeminiService.is_poll st + 120 /\
    tally GeminiService.is_timer st' = tally GeminiService.is_timer st + 120 /\
    tally (GeminiService.is_delay 5000) st'
    = tally (GeminiService.is_delay 5000) st + 120.
Proof.
  intros Hquiet Hpolls.
  unfold GeminiService.waitForFileActive, bind at 1, emit at 1.
  set (st0 := push _ st).
  destruct (poll_from_timeout env fileName onStatusUpdate signal Hquiet
              GeminiService.maxAttempts 0 st0) as (st' & Hrun & Hp & Ht & Hd).
  { intros j Hj. apply Hpolls. lia. }
  exists st'. split; [exact Hrun|].
  unfold st0 in Hp, Ht, Hd. rewrite tally_push in Hp, Ht, Hd. simpl in Hp, Ht, Hd.
  change GeminiService.delayMs with 5000%Z in Hd.
  change GeminiService.maxAttempts with 120 in Hp, Ht, Hd.
  repeat split; lia.
Qed.

Lemma signal_before (sg : AbortSignal) (t c : nat) :
  fires_at sg = Some t -> c < t -> aborted sg c = false.
Proof. unfold aborted. intros -> H. apply Nat.leb_gt. exact H. Qed.

Lemma signal_not_during (sg : AbortSignal) (t c : nat) :
  fires_at sg = Some t -> t <> S c -> fires_during sg c = false.
Proof. unfold fires_during. intros -> H. now apply Nat.eqb_neq. Qed.

Lemma signal_during (sg : AbortSignal) (t c : nat) :
  fires_at sg = Some t -> t = S c -> fires_during sg c = true.
Proof. unfold fires_during. intros -> ->. apply Nat.eqb_refl. Qed.

(** An iteration whose poll is answered but whose delay is interrupted. *)
Lemma poll_step_delay_cancelled (env : GeminiService.Env) (fileName : string)
    (onStatusUpdate : bool) (signal : option AbortSignal)
    (remaining i : nat) (st : gstate) (fileStatus : GeminiService.FileStatus) :
  opt_aborted signal (clock st) = false ->
  runWithCancellation (GeminiService.files_get env i) signal (clock st) = inr fileStatus ->
  opt_is (GeminiService.file_state fileStatus) "ACTIVE" = false ->
  opt_is (GeminiService.file_state fileStatus) "FAILED" = false ->
  abort_or signal (inr tt) (S (clock st)) = inl cancelled ->
  exists st',
    GeminiService.poll_from env fileName onStatusUpdate signal (S remaining) i st
    = (inl cancelled, st') /\
    tally GeminiService.is_poll st' = tally GeminiService.is_poll st + 1.
Proof.
  intros Hab Hget Hactive Hfailed Hwait.
  cbn [GeminiService.poll_from].
  unfold bind at 1, now at 1. rewrite Hab.
  unfold bind at 1, emit at 1.
  unfold bind at 1, await at 1. rewrite push_clock, Hget.
  unfold bind at 1, emit at 1. rewrite Hactive, Hfailed.
  set (st1 := push _ (tick (push _ st))).
  unfold bind at 1.
  set (upd := when onStatusUpdate _).
  assert (Hupd : exists st2, upd st1 = (inr tt, st2) /\ clock st2 = clock st1 /\
            tally GeminiService.is_poll st2 = tally GeminiService.is_poll st1).
  { unfold upd, when. destruct onStatusUpdate.
    - eexists. split; [reflexivity|]. split; [reflexivity|].
      rewrite tally_push. simpl. lia.
    - exists st1. now repeat split. }
  destruct Hupd as (st2 & -> & Hclk2 & Htal2).
  unfold bind at 1, GeminiService.poll_delay at 1, bind at 1, emit at 1, await at 1.
  rewrite push_clock, Hclk2.
  change (clock st1) with (S (clock st)). rewrite Hwait.
  eexists. split; [reflexivity|].
  rewrite tally_tick, tally_push, Htal2.
  unfold st1. rewrite tally_push, tally_tick, tally_push. simpl. lia.
Qed.

Lemma poll_from_cancelled (env : GeminiService.Env) (fileName : string)
    (onStatusUpdate : bool) (sg : AbortSignal) (t : nat) :
  fires_at sg = Some t ->
  forall k remaining i (st : gstate),
    k < remaining ->
    (forall j, i <= j < i + k -> still_processing env j) ->
    (t = S (clock st + 2 * k) \/
     (t = S (S (clock st + 2 * k)) /\ still_processing env (i + k))) ->
    exists st',
      GeminiService.poll_from env fileName onStatusUpdate (Some sg) remaining i st
      = (inl cancelled, st') /\
      tally GeminiService.is_poll st' = tally GeminiService.is_poll st + S k.
Proof.
  intros Hsg. induction k as [|k IH]; intros remaining i st Hk Hpolls Hwhen;
    (destruct remaining as [|remaining]; [lia|]).
  - destruct Hwhen as [Ht|[Ht (fs & Hget & Hactive & Hfailed)]].
    + cbn [GeminiService.poll_from].
      unfold bind at 1, now at 1. cbn [opt_aborted].
      rewrite (signal_before sg t (clock st) Hsg) by lia.
      unfold bind at 1, emit at 1. unfold bind at 1, await at 1.
      rewrite push_clock. unfold runWithCancellation.
      rewrite (signal_before sg t (clock st) Hsg) by lia.
      rewrite (signal_during sg t (clock st) Hsg) by lia.
      eexists. split; [reflexivity|].
      rewrite tally_tick, tally_push. reflexivity.
    + rewrite Nat.add_0_r in Hget.
      destruct (poll_step_delay_cancelled env fileName onStatusUpdate (Some sg)
                  remaining i st fs) as (st' & Hrun & Htal); auto.
      * cbn [opt_aborted]. apply (signal_before sg t); [exact Hsg|lia].
      * unfold runWithCancellation.
        rewrite (signal_before sg t (clock st) Hsg) by lia.
        rewrite (signal_not_during sg t (clock st) Hsg) by lia. exact Hget.
      * unfold abort_or. rewrite (signal_during sg t (S (clock st)) Hsg) by lia.
        reflexivity.
      * exists st'. split; [exact Hrun|exact Htal].
  - destruct (Hpolls i ltac:(lia)) as (fs & Hget & Hactive & Hfailed).
    destruct (poll_step env fileName onStatusUpdate (Some sg) remaining i st fs)
      as (st3 & -> & Hclk & Htal); auto.
    + cbn [opt_aborted]. apply (signal_before sg t); [exact Hsg|].
      destruct Hwhen as [->|[-> _]]; lia.
    + unfold runWithCancellation.
      rewrite (signal_before sg t (clock st) Hsg)
        by (destruct Hwhen as [->|[-> _]]; lia).
      rewrite (signal_not_during sg t (clock st) Hsg)
        by (destruct Hwhen as [->|[-> _]]; lia).
      exact Hget.
    + unfold abort_or.
      rewrite (signal_not_during sg t (S (clock st)) Hsg)
        by (destruct Hwhen as [->|[-> _]]; lia).
      reflexivity.
    + destruct (IH remaining (S i) st3) as (st' & Hrun & Hp).
      * lia.
      * intros j Hj. apply Hpolls. lia.
      * rewrite Hclk. destruct Hwhen as [->|[-> Hlast]]; [left; lia|right].
        split; [lia|]. replace (S i + k) with (i + S k) by lia. exact Hlast.
      * exists st'. split; [exact Hrun|].
        rewrite Hp, Htal by reflexivity. simpl. lia.
Qed.

(** C6. Let the abort event fire while iteration [k] of the poll loop is
    suspended, either in its status request or, that request having been
    answered with a state other than ACTIVE and FAILED, in its delay; the
    earlier polls were answered in the same way, so the loop is still running.
    Then [waitForFileActive] throws the cancellation error, which is not the
    timeout error, having issued [k + 1] polls, no more than the bound. *)
Theorem waitForFileActive_cancelled (env : GeminiService.Env) (fileName : string)
    (onStatusUpdate : bool) (sg : AbortSignal) (t k : nat) (st : gstate) :
  fires_at sg = Some t ->
  k < GeminiService.maxAttempts ->
  (forall j, j < k -> still_processing env j) ->
  (t = S (clock st + 2 * k) \/
   (t = S (S (clock st + 2 * k)) /\ still_processing env k)) ->
  exists st',
    GeminiService.waitForFileActive env fileName onStatusUpdate (Some sg) st
    = (inl (JsError "Processing cancelled by user."), st') /\
    JsError "Processing cancelled by user." <> GeminiService.timed_out /\
    tally GeminiService.is_poll st' = tally GeminiService.is_poll st + S k /\
    S k <= GeminiService.maxAttempts.
Proof.
  intros Hsg Hk Hpolls Hwhen.
  unfold GeminiService.waitForFileActive, bind at 1, emit at 1.
  set (st0 := push _ st).
  destruct (poll_from_cancelled env fileName onStatusUpdate sg t Hsg
              k GeminiService.maxAttempts 0 st0) as (st' & Hrun & Hp).
  - exact Hk.
  - intros j Hj. apply Hpolls. lia.
  - exact Hwhen.
  - exists st'. split; [exact Hrun|]. split; [discriminate|].
    split; [|lia]. rewrite Hp. unfold st0. rewrite tally_push. simpl. lia.
Qed.

Lemma process_catch_cancelled (st : gstate) :
  @GeminiService.process_catch N cancelled st = (inl cancelled, st).
Proof. reflexivity. Qed.

(** C5. With a signal that is already aborted when the call starts,
    [processMediaWithGemini] throws the cancellation error and leaves the
    state as it found it: nothing is logged, so no file read, upload, status
    poll or generation request is issued. *)
Theorem processMedia_already_aborted (env : GeminiService.Env)
    (file : GeminiService.File) (options : GeminiService.ProcessingOptions)
    (onStatusUpdate : bool) (sg : AbortSignal) :
  fires_at sg = Some 0 ->
  (forall st : gstate,
     GeminiService.processMediaWithGemini env file options onStatusUpdate (Some sg) st
     = (inl (JsError "Processing cancelled by user."), st)) /\
  filter GeminiService.is_io
    (log (snd (GeminiService.processMediaWithGemini env file options onStatusUpdate
                 (Some sg) GeminiService.start))) = [].
Proof.
  intros Hsg.
  assert (H : forall st : gstate,
     GeminiService.processMediaWithGemini env file options onStatusUpdate (Some sg) st
     = (inl (JsError "Processing cancelled by user."), st)).
  { intros st.
    unfold GeminiService.processMediaWithGemini, try_catch, GeminiService.process_body.
    unfold bind at 1, now at 1. cbn [opt_aborted]. unfold aborted. rewrite Hsg.
    cbn [Nat.leb]. unfold throw at 1. apply process_catch_cancelled. }
  split; [exact H|]. rewrite H. reflexivity.
Qed.

Ltac inv_bind H :=
  let a := fresh "a" in
  let s := fresh "st" in
  let Ha := fresh "Hrun" in
  apply bind_inr_inv in H as (a & s & Ha & H).

Lemma get_inr_inv (env : GeminiService.Env) (v : value) (key : string)
    (st st' : gstate) (x : value) :
  GeminiService.get env v key st = (inr x, st') -> x = field v key /\ st' = st.
Proof.
  destruct v; cbn [GeminiService.get]; unfold throw, ret; intros H;
    try discriminate; now injection H as <- <-.
Qed.

Lemma array_map_inr_inv {A} (env : GeminiService.Env) (v : value)
    (f : value -> M GeminiService.event A) (st st' : gstate) (ys : list A) :
  GeminiService.array_map env v f st = (inr ys, st') ->
  exists items, v = VArray items /\ List.length ys = List.length items.
Proof.
  destruct v; cbn [GeminiService.array_map]; unfold throw; intros H; try discriminate.
  exists items. split; [reflexivity|]. exact (mapM_length f items st ys st' H).
Qed.

(** A successful expansion consumed three arrays and kept their lengths. *)
Lemma expand_inr_inv (env : GeminiService.Env) (rawData : value)
    (st st' : gstate) (pd : GeminiService.ProcessedData) :
  GeminiService.expand env rawData st = (inr pd, st') ->
  exists ss ns cs,
    field rawData "subs" = VArray ss /\
    field rawData "nts" = VArray ns /\
    field rawData "cards" = VArray cs /\
    List.length (GeminiService.subtitles pd) = List.length ss /\
    List.length (GeminiService.notes pd) = List.length ns /\
    List.length (GeminiService.flashcards pd) = List.length cs.
Proof.
  unfold GeminiService.expand. intros H.
  inv_bind H. apply get_inr_inv in Hrun as [-> ->].
  inv_bind H. apply array_map_inr_inv in Hrun as (ss & Hss & Ls).
  inv_bind H. apply get_inr_inv in Hrun as [-> ->].
  inv_bind H. apply array_map_inr_inv in Hrun as (ns & Hns & Ln).
  inv_bind H. apply get_inr_inv in Hrun as [-> ->].
  inv_bind H. apply array_map_inr_inv in Hrun as (cs & Hcs & Lc).
  unfold ret in H. injection H as <- _.
  exists ss, ns, cs. cbn. auto 10.
Qed.

Lemma runWithCancellation_inr {T} (p : outcome T) signal t (x : T) :
  runWithCancellation p signal t = inr x -> p = inr x.
Proof.
  unfold runWithCancellation. destruct signal as [sg|]; [|auto].
  destruct (aborted sg t); [discriminate|].
  destruct (fires_during sg t); [discriminate|auto].
Qed.

(** What the [catch] block throws. *)
Lemma process_catch_throws (error : js_error) (st : gstate) :
  exists e st',
    @GeminiService.process_catch N error st = (inl e, st') /\
    (e = error \/ In e GeminiService.friendly_errors).
Proof.
  unfold GeminiService.process_catch.
  destruct (String.eqb (message error) cancelled_msg).
  { exists error, st. split; [reflexivity|now left]. }
  unfold bind, emit, throw.
  destruct (JSString.includes "429" (message error)).
  { eexists _, _. split; [reflexivity|]. right. simpl. auto. }
  destruct (JSString.includes "503" (message error)).
  { eexists _, _. split; [reflexivity|]. right. simpl. auto. }
  destruct (JSString.includes "SAFETY" (message error)).
  { eexists _, _. split; [reflexivity|]. right. simpl. auto. }
  destruct (JSString.includes "400" (message error) && JSString.includes "context" (message error)).
  { eexists _, _. split; [reflexivity|]. right. simpl. auto. }
  destruct (JSString.includes "403" (message error)).
  { eexists _, _. split; [reflexivity|]. right. simpl. auto 6. }
  eexists _, _. split; [reflexivity|now left].
Qed.

(** A returned result comes from one answered generation request whose text
    parsed to an object with three arrays. *)
Lemma process_body_inr_inv (env : GeminiService.Env) (file : GeminiService.File)
    (options : GeminiService.ProcessingOptions) (onStatusUpdate : bool)
    (signal : option AbortSignal) (st st' : gstate) (pd : GeminiService.ProcessedData) :
  GeminiService.process_body env file options onStatusUpdate signal st = (inr pd, st') ->
  exists response rawData ss ns cs,
    GeminiService.generateContent env = inr response /\
    present (GeminiService.text response) = true /\
    GeminiService.JSON_parse env (show_opt (GeminiService.text response)) = inr rawData /\
    field rawData "subs" = VArray ss /\
    field rawData "nts" = VArray ns /\
    field rawData "cards" = VArray cs /\
    List.length (GeminiService.subtitles pd) = List.length ss /\
    List.length (GeminiService.notes pd) = List.length ns /\
    List.length (GeminiService.flashcards pd) = List.length cs.
Proof.
  unfold GeminiService.process_body. intros H.
  inv_bind H. clear Hrun.
  destruct (opt_aborted signal a); [discriminate|].
  destruct (negb (present (GeminiService.API_KEY env))); [discriminate|].
  inv_bind H. clear Hrun.
  inv_bind H. clear Hrun.
  inv_bind H. clear Hrun.
  inv_bind H. unfold await in Hrun. injection Hrun as Hresp _.
  apply runWithCancellation_inr in Hresp.
  destruct (present (GeminiService.text a3)) eqn:Htext; [|discriminate].
  cbn [negb] in H.
  inv_bind H. unfold lift in Hrun. injection Hrun as Hparse _.
  apply expand_inr_inv in H as (ss & ns & cs & H).
  exists a3, a4, ss, ns, cs. auto 10.
Qed.

(** C2. [processMediaWithGemini] either returns the [ProcessedData] its body
    built, whose three sequences come from the three arrays of the one parsed
    response and have their lengths, or throws; and what it throws is the
    error the body threw (the cancellation error among them) or, that error
    not being the cancellation, one of the five fixed messages. *)
Theorem processMedia_all_or_nothing (env : GeminiService.Env)
    (file : GeminiService.File) (options : GeminiService.ProcessingOptions)
    (onStatusUpdate : bool) (signal : option AbortSignal) (st : gstate) :
  match fst (GeminiService.processMediaWithGemini env file options onStatusUpdate signal st) with
  | inr pd =>
      fst (GeminiService.process_body env file options onStatusUpdate signal st) = inr pd /\
      exists response rawData ss ns cs,
        GeminiService.generateContent env = inr response /\
        present (GeminiService.text response) = true /\
        GeminiService.JSON_parse env (show_opt (GeminiService.text response)) = inr rawData /\
        field rawData "subs" = VArray ss /\
        field rawData "nts" = VArray ns /\
        field rawData "cards" = VArray cs /\
        List.length (GeminiService.subtitles pd) = List.length ss /\
        List.length (GeminiService.notes pd) = List.length ns /\
        List.length (GeminiService.flashcards pd) = List.length cs
  | inl e =>
      exists original,
        fst (GeminiService.process_body env file options onStatusUpdate signal st)
        = inl original /\
        (e = original \/
         (message original <> "Processing cancelled by user." /\
          In e [JsError "API Quota Exceeded. Please try again later.";
                JsError "Server overloaded. Try again shortly.";
                JsError "Content blocked by safety filters.";
                JsError "File too long (Context Exceeded).";
                JsError "Invalid API Key."]))
  end.
Proof.
  unfold GeminiService.processMediaWithGemini, try_catch.
  destruct (GeminiService.process_body env file options onStatusUpdate signal st)
    as [[original|pd] st1] eqn:Hbody.
  - destruct (process_catch_throws original st1) as (e & st' & Hc & He).
    rewrite Hc. cbn [fst]. exists original. split; [reflexivity|].
    destruct He as [->|He]; [now left|].
    destruct (String.eqb_spec (message original) cancelled_msg) as [Hm|Hm].
    + left. unfold GeminiService.process_catch in Hc.
      rewrite Hm, String.eqb_refl in Hc. unfold throw in Hc. now injection Hc as <- _.
    + right. split; [exact Hm|exact He].
  - cbn [fst]. split; [reflexivity|].
    exact (process_body_inr_inv env file options onStatusUpdate signal st st1 pd Hbody).
Qed.

(** *** The renaming *)

Lemma has_fields_object (keys : list string) (v : value) :
  has_fields keys v = true -> exists props, v = VObject props.
Proof. destruct v; try discriminate. intros _. now eexists. Qed.

(** A required field that is present is read back as it stands. *)
Lemma has_fields_lookup (keys : list string) (v : value) (k : string) :
  has_fields keys v = true -> In k keys ->
  exists props, v = VObject props /\ lookup k props = Some (field v k).
Proof.
  destruct v; try discriminate. cbn [has_fields field]. intros H Hk.
  exists props. split; [reflexivity|].
  rewrite forallb_forall in H. specialize (H k Hk).
  now destruct (lookup k props).
Qed.

Lemma to_subtitle_object (env : GeminiService.Env) props (st : gstate) :
  GeminiService.to_subtitle env (VObject props) st
  = (inr (subtitle_of (VObject props)), st).
Proof. reflexivity. Qed.

Lemma to_note_object (env : GeminiService.Env) props (st : gstate) :
  GeminiService.to_note env (VObject props) st = (inr (note_of (VObject props)), st).
Proof. reflexivity. Qed.

Lemma to_flashcard_kept (env : GeminiService.Env) props (st : gstate) :
  truthy (field (VObject props) "id") = true ->
  GeminiService.to_flashcard env (VObject props) st
  = (inr (flashcard_of (VObject props)), st).
Proof.
  intros H. unfold GeminiService.to_flashcard.
  unfold bind at 1. cbn [GeminiService.get]. unfold ret at 1.
  unfold bind at 1. rewrite H. reflexivity.
Qed.

Lemma to_flashcard_generated (env : GeminiService.Env) props (st : gstate) :
  truthy (field (VObject props) "id") = false ->
  GeminiService.to_flashcard env (VObject props) st
  = (inr {| GeminiService.card_id := VString (GeminiService.Math_random env (draws st));
            GeminiService.term := field (VObject props) "t";
            GeminiService.definition := field (VObject props) "d";
            GeminiService.context := field (VObject props) "c" |},
     {| clock := clock st; log := log st; draws := S (draws st) |}).
Proof.
  intros H. unfold GeminiService.to_flashcard.
  unfold bind at 1. cbn [GeminiService.get]. unfold ret at 1.
  unfold bind at 1. rewrite H. reflexivity.
Qed.

Lemma forallb_Forall {A} (p : A -> bool) (l : list A) :
  forallb p l = true -> Forall (fun x => p x = true) l.
Proof. intros H. apply Forall_forall. now apply forallb_forall. Qed.

(** C1, as amended.  Let the response be an object whose [subs], [nts] and
    [cards] are arrays of objects having every required field, every card
    [id] being truthy (a non-empty string).  Then, whatever the environment,
    the random source and the state, the expansion returns the same
    [ProcessedData]: the three arrays mapped element by element, in order,
    each required field read back under its long name.  A card whose [id] is
    falsy receives the next draw of the random source as identifier. *)
Theorem expand_renames (props : list (string * value)) (ss ns cs : list value) :
  lookup "subs" props = Some (VArray ss) ->
  lookup "nts" props = Some (VArray ns) ->
  lookup "cards" props = Some (VArray cs) ->
  forallb (has_fields ["i"; "s"; "e"; "en"; "vi"]) ss = true ->
  forallb (has_fields ["ts"; "ti"; "co"]) ns = true ->
  forallb (has_fields ["id"; "t"; "d"; "c"]) cs = true ->
  forallb (fun c => truthy (field c "id")) cs = true ->
  (forall (env : GeminiService.Env) (st : gstate),
     GeminiService.expand env (VObject props) st
     = (inr {| GeminiService.subtitles := map subtitle_of ss;
               GeminiService.notes := map note_of ns;
               GeminiService.flashcards := map flashcard_of cs |}, st)) /\
  (forall i s, nth_error ss i = Some s ->
     nth_error (map subtitle_of ss) i = Some (subtitle_of s) /\
     exists p, s = VObject p /\
       lookup "i" p = Some (GeminiService.id (subtitle_of s)) /\
       lookup "s" p = Some (GeminiService.startTime (subtitle_of s)) /\
       lookup "e" p = Some (GeminiService.endTime (subtitle_of s)) /\
       lookup "en" p = Some (GeminiService.textOriginal (subtitle_of s)) /\
       lookup "vi" p = Some (GeminiService.textVietnamese (subtitle_of s))) /\
  (forall i n, nth_error ns i = Some n ->
     nth_error (map note_of ns) i = Some (note_of n) /\
     exists p, n = VObject p /\
       lookup "ts" p = Some (GeminiService.timestamp (note_of n)) /\
       lookup "ti" p = Some (GeminiService.title (note_of n)) /\
       lookup "co" p = Some (GeminiService.content (note_of n))) /\
  (forall i c, nth_error cs i = Some c ->
     nth_error (map flashcard_of cs) i = Some (flashcard_of c) /\
     exists p, c = VObject p /\
       lookup "id" p = Some (GeminiService.card_id (flashcard_of c)) /\
       lookup "t" p = Some (GeminiService.term (flashcard_of c)) /\
       lookup "d" p = Some (GeminiService.definition (flashcard_of c)) /\
       lookup "c" p = Some (GeminiService.context (flashcard_of c))) /\
  List.length (map subtitle_of ss) = List.length ss /\
  List.length (map note_of ns) = List.length ns /\
  List.length (map flashcard_of cs) = List.length cs /\
  (forall (env : GeminiService.Env) p (st : gstate),
     truthy (field (VObject p) "id") = false ->
     exists card st',
       GeminiService.to_flashcard env (VObject p) st = (inr card, st') /\
       GeminiService.card_id card = VString (GeminiService.Math_random env (draws st)) /\
       draws st' = S (draws st)).
Proof.
  intros Hsubs Hnts Hcards Hss Hns Hcs Hids.
  split; [|split; [|split; [|split]]].
  - intros env st. unfold GeminiService.expand.
    unfold bind at 1. cbn [GeminiService.get field]. rewrite Hsubs. unfold ret at 1.
    unfold bind at 1. cbn [GeminiService.array_map].
    rewrite (mapM_pure (GeminiService.to_subtitle env) subtitle_of ss st).
    2:{ apply forallb_Forall in Hss. eapply Forall_impl; [|exact Hss].
        intros s Hs. apply has_fields_object in Hs as (p & ->). reflexivity. }
    unfold bind at 1. cbn [GeminiService.get field]. rewrite Hnts. unfold ret at 1.
    unfold bind at 1. cbn [GeminiService.array_map].
    rewrite (mapM_pure (GeminiService.to_note env) note_of ns st).
    2:{ apply forallb_Forall in Hns. eapply Forall_impl; [|exact Hns].
        intros s Hs. apply has_fields_object in Hs as (p & ->). reflexivity. }
    unfold bind at 1. cbn [GeminiService.get field]. rewrite Hcards. unfold ret at 1.
    unfold bind at 1. cbn [GeminiService.array_map].
    rewrite (mapM_pure (GeminiService.to_flashcard env) flashcard_of cs st).
    2:{ apply Forall_forall. intros c Hc.
        rewrite forallb_forall in Hcs, Hids.
        destruct (has_fields_object _ _ (Hcs c Hc)) as (p & ->).
        apply to_flashcard_kept. exact (Hids _ Hc). }
    reflexivity.
  - intros i s Hi. split; [now apply map_nth_error|].
    rewrite forallb_forall in Hss. pose proof (Hss s (nth_error_In _ _ Hi)) as Hs.
    destruct (has_fields_object _ _ Hs) as (p & ->). exists p.
    split; [reflexivity|].
    repeat split;
      match goal with
      | |- lookup ?k _ = _ =>
          destruct (has_fields_lookup _ _ k Hs) as (p' & Hp & Hl);
          [simpl; auto 10|now injection Hp as <-]
      end.
  - intros i s Hi. split; [now apply map_nth_error|].
    rewrite forallb_forall in Hns. pose proof (Hns s (nth_error_In _ _ Hi)) as Hs.
    destruct (has_fields_object _ _ Hs) as (p & ->). exists p.
    split; [reflexivity|].
    repeat split;
      match goal with
      | |- lookup ?k _ = _ =>
          destruct (has_fields_lookup _ _ k Hs) as (p' & Hp & Hl);
          [simpl; auto 10|now injection Hp as <-]
      end.
  - intros i s Hi. split; [now apply map_nth_error|].
    rewrite forallb_forall in Hcs. pose proof (Hcs s (nth_error_In _ _ Hi)) as Hs.
    destruct (has_fields_object _ _ Hs) as (p & ->). exists p.
    split; [reflexivity|].
    repeat split;
      match goal with
      | |- lookup ?k _ = _ =>
          destruct (has_fields_lookup _ _ k Hs) as (p' & Hp & Hl);
          [simpl; auto 10|now injection Hp as <-]
      end.
  - rewrite !length_map. repeat split.
    intros env p st H. eexists _, _.
    split; [apply to_flashcard_generated; exact H|]. split; reflexivity.
Qed.

End GeminiFacts.

(* ===================================================================== *)
(** * Further properties *)
(* ===================================================================== *)

(** ** Which calls a computation can issue *)

Section SilentFacts.
Context {event : Type}.
Variable p : event -> bool.

Lemma calls_push (e : event) (st : state event) :
  calls p (push e st) = calls p st + (if p e then 1 else 0).
Proof.
  unfold calls. rewrite push_log, filter_app, length_app. simpl.
  now destruct (p e).
Qed.

Lemma calls_tick (st : state event) : calls p (tick st) = calls p st.
Proof. reflexivity. Qed.

Lemma silent_ret {A} (a : A) : silent p (ret (event := event) a).
Proof. intros st. reflexivity. Qed.

Lemma silent_throw {A} (e : js_error) : silent p (throw (event := event) (A := A) e).
Proof. intros st. reflexivity. Qed.

Lemma silent_lift {A} (r : outcome A) : silent p (lift (event := event) r).
Proof. intros st. reflexivity. Qed.

Lemma silent_now : silent p (now (event := event)).
Proof. intros st. reflexivity. Qed.

Lemma silent_await {A} (q : nat -> outcome A) : silent p (await (event := event) q).
Proof. intros st. reflexivity. Qed.

Lemma silent_draw (source : nat -> string) : silent p (draw (event := event) source).
Proof. intros st. reflexivity. Qed.

Lemma silent_emit (e : event) : p e = false -> silent p (emit e).
Proof. intros H st. cbn [emit snd]. rewrite calls_push, H. lia. Qed.

Lemma silent_bind {A B} (c : M event A) (k : A -> M event B) :
  silent p c -> (forall a, silent p (k a)) -> silent p (bind c k).
Proof.
  intros Hc Hk st. unfold bind. specialize (Hc st).
  destruct (c st) as [[e|a] st1]; cbn [snd] in *; [exact Hc|].
  now rewrite (Hk a st1).
Qed.

Lemma silent_try_catch {A} (c : M event A) (h : js_error -> M event A) :
  silent p c -> (forall e, silent p (h e)) -> silent p (try_catch c h).
Proof.
  intros Hc Hh st. unfold try_catch. specialize (Hc st).
  destruct (c st) as [[e|a] st1]; cbn [snd] in *; [|exact Hc].
  now rewrite (Hh e st1).
Qed.

Lemma silent_when (b : bool) (c : M event unit) : silent p c -> silent p (when b c).
Proof. destruct b; [auto|intros _; apply silent_ret]. Qed.

Lemma silent_mapM {A B} (f : A -> M event B) (items : list A) :
  (forall x, silent p (f x)) -> silent p (mapM f items).
Proof.
  intros Hf. induction items as [|x rest IH]; cbn [mapM].
  - apply silent_ret.
  - apply silent_bind; [apply Hf|]. intros y.
    apply silent_bind; [exact IH|]. intros ys. apply silent_ret.
Qed.

End SilentFacts.

(** Decomposes a goal [silent p c] along the structure of [c]. *)
Ltac silence :=
  repeat first
    [ apply silent_ret | apply silent_throw | apply silent_lift | apply silent_now
    | apply silent_await | apply silent_draw
    | apply silent_emit; reflexivity
    | apply silent_when
    | apply silent_bind; [|intros ?]
    | match goal with
      | |- silent _ (if ?b then _ else _) => destruct b
      | |- silent _ (match ?x with _ => _ end) => destruct x
      end ].

(** ** The orchestrator, further *)

(** Membership in a log given as a concatenation. *)
Ltac find_or :=
  match goal with
  | |- _ \/ _ => (left; find_or) || (right; find_or)
  | |- _ => reflexivity
  end.

Ltac in_trace := repeat (rewrite in_app_iff || cbn [In]); find_or.

Section GeminiMore.
Context {N : JSNumber}.

Local Abbreviation gstate := (state (@GeminiService.event N)).

Lemma silent_get p (env : GeminiService.Env) (v : value) (key : string) :
  silent p (GeminiService.get env v key).
Proof. unfold GeminiService.get. silence. Qed.

Lemma silent_array_map p {A} (env : GeminiService.Env) (v : value)
    (f : value -> M GeminiService.event A) :
  (forall x, silent p (f x)) -> silent p (GeminiService.array_map env v f).
Proof.
  intros Hf. unfold GeminiService.array_map.
  destruct v; try apply silent_throw. now apply silent_mapM.
Qed.

Lemma silent_expand p (env : GeminiService.Env) (rawData : value) :
  silent p (GeminiService.expand env rawData).
Proof.
  unfold GeminiService.expand.
  apply silent_bind; [apply silent_get|intros subs].
  apply silent_bind.
  { apply silent_array_map. intros s. unfold GeminiService.to_subtitle.
    repeat (apply silent_bind; [apply silent_get|intros ?]). apply silent_ret. }
  intros subtitles'.
  apply silent_bind; [apply silent_get|intros nts].
  apply silent_bind.
  { apply silent_array_map. intros s. unfold GeminiService.to_note.
    repeat (apply silent_bind; [apply silent_get|intros ?]). apply silent_ret. }
  intros notes'.
  apply silent_bind; [apply silent_get|intros cards].
  apply silent_bind.
  { apply silent_array_map. intros s. unfold GeminiService.to_flashcard.
    apply silent_bind; [apply silent_get|intros cid].
    apply silent_bind; [silence|intros cid'].
    repeat (apply silent_bind; [apply silent_get|intros ?]). apply silent_ret. }
  intros flashcards'. apply silent_ret.
Qed.

Lemma silent_poll_from p (env : GeminiService.Env) (fileName : string)
    (onStatusUpdate : bool) (signal : option AbortSignal) :
  p (GeminiService.FilesGet fileName) = false ->
  p (GeminiService.SetTimeout GeminiService.delayMs) = false ->
  (forall m, p (GeminiService.ConsoleLog m) = false) ->
  (onStatusUpdate = true -> forall m q, p (GeminiService.StatusUpdate m q) = false) ->
  forall remaining i,
    silent p (GeminiService.poll_from env fileName onStatusUpdate signal remaining i).
Proof.
  intros Hget Htimer Hlog Hstatus.
  induction remaining as [|remaining IH]; intros i; cbn [GeminiService.poll_from].
  - apply silent_throw.
  - apply silent_bind; [apply silent_now|intros t].
    destruct (opt_aborted signal t); [apply silent_throw|].
    apply silent_bind; [now apply silent_emit|intros _].
    apply silent_bind; [apply silent_await|intros fileStatus].
    cbv zeta.
    apply silent_bind; [apply silent_emit, Hlog|intros _].
    destruct (opt_is _ "ACTIVE"); [apply silent_ret|].
    destruct (opt_is _ "FAILED"); [apply silent_throw|].
    apply silent_bind.
    { destruct onStatusUpdate; [|apply silent_ret].
      apply silent_emit. now apply Hstatus. }
    intros _.
    apply silent_bind; [|intros _; apply IH].
    unfold GeminiService.poll_delay.
    apply silent_bind; [now apply silent_emit|intros _]. apply silent_await.
Qed.

Lemma silent_waitForFileActive p (env : GeminiService.Env) (fileName : string)
    (onStatusUpdate : bool) (signal : option AbortSignal) :
  p (GeminiService.FilesGet fileName) = false ->
  p (GeminiService.SetTimeout GeminiService.delayMs) = false ->
  (forall m, p (GeminiService.ConsoleLog m) = false) ->
  (onStatusUpdate = true -> forall m q, p (GeminiService.StatusUpdate m q) = false) ->
  silent p (GeminiService.waitForFileActive env fileName onStatusUpdate signal).
Proof.
  intros Hget Htimer Hlog Hstatus. unfold GeminiService.waitForFileActive.
  apply silent_bind; [apply silent_emit, Hlog|intros _].
  now apply silent_poll_from.
Qed.

Lemma silent_process_catch p (error : js_error) :
  (forall m e, p (GeminiService.ConsoleError (N := N) m e) = false) ->
  silent p (GeminiService.process_catch error).
Proof.
  intros H. unfold GeminiService.process_catch.
  destruct (String.eqb (message error) cancelled_msg); [apply silent_throw|].
  apply silent_bind; [apply silent_emit, H|intros _].
  cbv zeta. silence.
Qed.

(** [k] quiet iterations: polls answered with a state other than ACTIVE and
    FAILED, nothing interrupting. *)
Lemma poll_quiet_prefix (env : GeminiService.Env) (fileName : string)
    (onStatusUpdate : bool) (signal : option AbortSignal) :
  never_fires signal ->
  forall k remaining i (st : gstate),
    (forall j, i <= j < i + k -> still_processing env j) ->
    exists st',
      GeminiService.poll_from env fileName onStatusUpdate signal (k + remaining) i st
      = GeminiService.poll_from env fileName onStatusUpdate signal remaining (i + k) st' /\
      calls GeminiService.is_poll st' = calls GeminiService.is_poll st + k /\
      calls GeminiService.is_timer st' = calls GeminiService.is_timer st + k.
Proof.
  intros Hquiet. induction k as [|k IH]; intros remaining i st Hpolls.
  - exists st. rewrite Nat.add_0_r. cbn [Nat.add]. repeat split; lia.
  - destruct (Hpolls i ltac:(lia)) as (fs & Hget & Hactive & Hfailed).
    destruct (never_fires_quiet signal (clock st) Hquiet) as (Hab & Hrun & _).
    destruct (never_fires_quiet signal (S (clock st)) Hquiet) as (_ & _ & Hdur).
    cbn [Nat.add].
    destruct (poll_step env fileName onStatusUpdate signal (k + remaining) i st fs)
      as (st3 & -> & _ & Htal); auto.
    { now rewrite Hrun. }
    { unfold abort_or. destruct signal; [now rewrite Hdur|reflexivity]. }
    destruct (IH remaining (S i) st3) as (st' & Hrest & Hp & Ht).
    { intros j Hj. apply Hpolls. lia. }
    exists st'. replace (i + S k) with (S i + k) by lia.
    split; [exact Hrest|].
    rewrite Hp, Ht. change (calls GeminiService.is_poll st3) with (tally GeminiService.is_poll st3).
    change (calls GeminiService.is_timer st3) with (tally GeminiService.is_timer st3).
    rewrite !Htal by reflexivity. unfold tally, calls. simpl. lia.
Qed.

(** The iteration whose poll is answered, from the point of view of the
    environment, when nothing interrupts. *)
Lemma poll_answered (env : GeminiService.Env) (fileName : string)
    (onStatusUpdate : bool) (signal : option AbortSignal)
    (remaining i : nat) (st : gstate) (answer : outcome GeminiService.FileStatus) :
  never_fires signal ->
  GeminiService.files_get env i = answer ->
  let st1 := tick (push (GeminiService.FilesGet fileName) st) in
  match answer with
  | inl e =>
      GeminiService.poll_from env fileName onStatusUpdate signal (S remaining) i st
      = (inl e, st1)
  | inr fileStatus =>
      let st2 := push (GeminiService.ConsoleLog
                         ("File state: " ++ show_opt (GeminiService.file_state fileStatus)))
                   st1 in
      (opt_is (GeminiService.file_state fileStatus) "ACTIVE" = true ->
       GeminiService.poll_from env fileName onStatusUpdate signal (S remaining) i st
       = (inr tt, st2)) /\
      (opt_is (GeminiService.file_state fileStatus) "FAILED" = true ->
       GeminiService.poll_from env fileName onStatusUpdate signal (S remaining) i st
       = (inl (JsError "File processing failed on Gemini server."), st2))
  end.
Proof.
  intros Hquiet Hget st1.
  destruct (never_fires_quiet signal (clock st) Hquiet) as (Hab & Hrun & _).
  cbn [GeminiService.poll_from].
  destruct answer as [e|fileStatus].
  - unfold bind at 1, now at 1. rewrite Hab.
    unfold bind at 1, emit at 1. unfold bind at 1, await at 1.
    rewrite push_clock, Hrun, Hget. reflexivity.
  - split; intros Hstate.
    + unfold bind at 1, now at 1. rewrite Hab.
      unfold bind at 1, emit at 1. unfold bind at 1, await at 1.
      rewrite push_clock, Hrun, Hget.
      unfold bind at 1, emit at 1. rewrite Hstate. reflexivity.
    + assert (Hna : opt_is (GeminiService.file_state fileStatus) "ACTIVE" = false).
      { destruct (GeminiService.file_state fileStatus) as [s|]; [|reflexivity].
        cbn [opt_is] in *. apply String.eqb_eq in Hstate. now subst s. }
      unfold bind at 1, now at 1. rewrite Hab.
      unfold bind at 1, emit at 1. unfold bind at 1, await at 1.
      rewrite push_clock, Hrun, Hget.
      unfold bind at 1, emit at 1. rewrite Hna, Hstate. reflexivity.
Qed.

Lemma waitForFileActive_prefix (env : GeminiService.Env) (fileName : string)
    (onStatusUpdate : bool) (signal : option AbortSignal) (k : nat) (st : gstate) :
  never_fires signal ->
  k < GeminiService.maxAttempts ->
  (forall j, j < k -> still_processing env j) ->
  exists remaining st1,
    GeminiService.waitForFileActive env fileName onStatusUpdate signal st
    = GeminiService.poll_from env fileName onStatusUpdate signal (S remaining) k st1 /\
    calls GeminiService.is_poll st1 = calls GeminiService.is_poll st + k /\
    calls GeminiService.is_timer st1 = calls GeminiService.is_timer st + k.
Proof.
  intros Hquiet Hk Hpolls.
  unfold GeminiService.waitForFileActive, bind at 1, emit at 1.
  set (st0 := push _ st).
  destruct (poll_quiet_prefix env fileName onStatusUpdate signal Hquiet k
              (S (GeminiService.maxAttempts - S k)) 0 st0) as (st1 & Hrun & Hp & Ht).
  { intros j Hj. apply Hpolls. lia. }
  exists (GeminiService.maxAttempts - S k), st1.
  replace (k + S (GeminiService.maxAttempts - S k)) with GeminiService.maxAttempts
    in Hrun by lia.
  split; [exact Hrun|].
  rewrite Hp, Ht. unfold st0. rewrite !calls_push. simpl. lia.
Qed.

(** X1. When nothing interrupts, the first [k] polls are answered with a
    state other than ACTIVE and FAILED, and poll [k < 120] reports ACTIVE,
    [waitForFileActive] returns normally after exactly [k + 1] polls and [k]
    timers. *)
Theorem waitForFileActive_becomes_active (env : GeminiService.Env) (fileName : string)
    (onStatusUpdate : bool) (signal : option AbortSignal) (k : nat) (st : gstate) :
  never_fires signal ->
  k < GeminiService.maxAttempts ->
  (forall j, j < k -> still_processing env j) ->
  reports_active env k ->
  exists st',
    GeminiService.waitForFileActive env fileName onStatusUpdate signal st = (inr tt, st') /\
    calls GeminiService.is_poll st' = calls GeminiService.is_poll st + S k /\
    calls GeminiService.is_timer st' = calls GeminiService.is_timer st + k.
Proof.
  intros Hquiet Hk Hpolls (fs & Hget & Hactive).
  destruct (waitForFileActive_prefix env fileName onStatusUpdate signal k st Hquiet Hk Hpolls)
    as (remaining & st1 & -> & Hp & Ht).
  pose proof (poll_answered env fileName onStatusUpdate signal remaining k st1
                (inr fs) Hquiet Hget) as H. cbv zeta in H.
  destruct H as (H & _). rewrite (H Hactive).
  eexists. split; [reflexivity|].
  rewrite !calls_push, !calls_tick, !calls_push, Hp, Ht. simpl. lia.
Qed.

(** X2. In the same situation, if poll [k] reports FAILED the call throws
    [File processing failed on Gemini server.] at once: [k + 1] polls, [k]
    timers, no further attempt. *)
Theorem waitForFileActive_remote_failure (env : GeminiService.Env) (fileName : string)
    (onStatusUpdate : bool) (signal : option AbortSignal) (k : nat) (st : gstate) :
  never_fires signal ->
  k < GeminiService.maxAttempts ->
  (forall j, j < k -> still_processing env j) ->
  reports_failed env k ->
  exists st',
    GeminiService.waitForFileActive env fileName onStatusUpdate signal st
    = (inl (JsError "File processing failed on Gemini server."), st') /\
    calls GeminiService.is_poll st' = calls GeminiService.is_poll st + S k /\
    calls GeminiService.is_timer st' = calls GeminiService.is_timer st + k.
Proof.
  intros Hquiet Hk Hpolls (fs & Hget & Hfailed).
  destruct (waitForFileActive_prefix env fileName onStatusUpdate signal k st Hquiet Hk Hpolls)
    as (remaining & st1 & -> & Hp & Ht).
  pose proof (poll_answered env fileName onStatusUpdate signal remaining k st1
                (inr fs) Hquiet Hget) as H. cbv zeta in H.
  destruct H as (_ & H). rewrite (H Hfailed).
  eexists. split; [reflexivity|].
  rewrite !calls_push, !calls_tick, !calls_push, Hp, Ht. simpl. lia.
Qed.

(** X3. In the same situation, if the request of poll [k] is rejected, the
    call throws the error of the request, whatever it is, after [k + 1] polls
    and [k] timers: the loop does not retry a failed request. *)
Theorem waitForFileActive_request_rejected (env : GeminiService.Env) (fileName : string)
    (onStatusUpdate : bool) (signal : option AbortSignal) (k : nat) (st : gstate)
    (e : js_error) :
  never_fires signal ->
  k < GeminiService.maxAttempts ->
  (forall j, j < k -> still_processing env j) ->
  GeminiService.files_get env k = inl e ->
  exists st',
    GeminiService.waitForFileActive env fileName onStatusUpdate signal st = (inl e, st') /\
    calls GeminiService.is_poll st' = calls GeminiService.is_poll st + S k /\
    calls GeminiService.is_timer st' = calls GeminiService.is_timer st + k.
Proof.
  intros Hquiet Hk Hpolls Hget.
  destruct (waitForFileActive_prefix env fileName onStatusUpdate signal k st Hquiet Hk Hpolls)
    as (remaining & st1 & -> & Hp & Ht).
  pose proof (poll_answered env fileName onStatusUpdate signal remaining k st1
                (inl e) Hquiet Hget) as H. cbv zeta in H.
  rewrite H. eexists. split; [reflexivity|].
  rewrite !calls_tick, !calls_push, Hp, Ht. simpl. lia.
Qed.

Lemma poll_from_bounded (env : GeminiService.Env) (fileName : string)
    (onStatusUpdate : bool) (signal : option AbortSignal) :
  forall remaining i (st : gstate),
  exists r st',
    GeminiService.poll_from env fileName onStatusUpdate signal remaining i st = (r, st') /\
    calls GeminiService.is_poll st' <= calls GeminiService.is_poll st + remaining /\
    calls GeminiService.is_timer st' + calls GeminiService.is_poll st
    <= calls GeminiService.is_timer st + calls GeminiService.is_poll st' /\
    (r = inr tt -> exists k, i <= k < i + remaining /\ reports_active env k).
Proof.
  induction remaining as [|remaining IH]; intros i st; cbn [GeminiService.poll_from].
  - eexists _, _. split; [reflexivity|]. repeat split; try lia. discriminate.
  - unfold bind at 1, now at 1.
    destruct (opt_aborted signal (clock st)).
    { eexists _, _. split; [reflexivity|]. repeat split; try lia. discriminate. }
    unfold bind at 1, emit at 1. unfold bind at 1, await at 1. rewrite push_clock.
    destruct (runWithCancellation (GeminiService.files_get env i) signal (clock st))
      as [e|fs] eqn:Hrun.
    { eexists _, _. split; [reflexivity|].
      rewrite !calls_tick, !calls_push. simpl.
      repeat split; try lia. discriminate. }
    apply runWithCancellation_inr in Hrun.
    unfold bind at 1, emit at 1.
    destruct (opt_is (GeminiService.file_state fs) "ACTIVE") eqn:Hactive.
    { eexists _, _. split; [reflexivity|].
      rewrite !calls_push, !calls_tick, !calls_push. simpl.
      repeat split; try lia. intros _. exists i. split; [lia|]. now exists fs. }
    destruct (opt_is (GeminiService.file_state fs) "FAILED").
    { eexists _, _. split; [reflexivity|].
      rewrite !calls_push, !calls_tick, !calls_push. simpl.
      repeat split; try lia. discriminate. }
    set (st1 := push _ (tick (push _ st))).
    assert (H1 : calls GeminiService.is_poll st1 = calls GeminiService.is_poll st + 1 /\
                 calls GeminiService.is_timer st1 = calls GeminiService.is_timer st).
    { unfold st1. rewrite !calls_push, !calls_tick, !calls_push. simpl. lia. }
    unfold bind at 1.
    set (upd := when onStatusUpdate _).
    assert (Hupd : exists st2, upd st1 = (inr tt, st2) /\
              calls GeminiService.is_poll st2 = calls GeminiService.is_poll st1 /\
              calls GeminiService.is_timer st2 = calls GeminiService.is_timer st1).
    { unfold upd, when. destruct onStatusUpdate.
      - eexists. split; [reflexivity|]. rewrite !calls_push. simpl. lia.
      - exists st1. now repeat split. }
    destruct Hupd as (st2 & -> & Hp2 & Ht2).
    unfold bind at 1, GeminiService.poll_delay at 1, bind at 1, emit at 1, await at 1.
    set (st3 := tick (push _ st2)).
    assert (H3 : calls GeminiService.is_poll st3 = calls GeminiService.is_poll st + 1 /\
                 calls GeminiService.is_timer st3 = calls GeminiService.is_timer st + 1).
    { unfold st3. rewrite !calls_tick, !calls_push, Hp2, Ht2. simpl. lia. }
    destruct (abort_or signal (inr tt) (clock (push (GeminiService.SetTimeout GeminiService.delayMs) st2)))
      as [e|[]].
    { eexists _, _. split; [reflexivity|]. repeat split; try lia. discriminate. }
    destruct (IH (S i) st3) as (r & st' & Hrest & Hp & Ht & Hret).
    exists r, st'. split; [exact Hrest|].
    repeat split; try lia.
    intros Hok. destruct (Hret Hok) as (k & Hk & Hact). exists k. split; [lia|exact Hact].
Qed.

(** X4. Whatever the environment answers and whenever the signal fires,
    [waitForFileActive] issues at most 120 polls, starts a timer only after a
    poll of its own, and returns normally only if one of the 120 polls
    reported ACTIVE. *)
Theorem waitForFileActive_bounded (env : GeminiService.Env) (fileName : string)
    (onStatusUpdate : bool) (signal : option AbortSignal) (st : gstate) :
  exists r st',
    GeminiService.waitForFileActive env fileName onStatusUpdate signal st = (r, st') /\
    calls GeminiService.is_poll st' <= calls GeminiService.is_poll st + 120 /\
    calls GeminiService.is_timer st' + calls GeminiService.is_poll st
    <= calls GeminiService.is_timer st + calls GeminiService.is_poll st' /\
    (r = inr tt -> exists k, k < 120 /\ reports_active env k).
Proof.
  unfold GeminiService.waitForFileActive, bind at 1, emit at 1.
  set (st0 := push _ st).
  destruct (poll_from_bounded env fileName onStatusUpdate signal
              GeminiService.maxAttempts 0 st0) as (r & st' & Hrun & Hp & Ht & Hret).
  assert (H0 : calls GeminiService.is_poll st0 = calls GeminiService.is_poll st /\
               calls GeminiService.is_timer st0 = calls GeminiService.is_timer st).
  { unfold st0. rewrite !calls_push. simpl. lia. }
  change GeminiService.maxAttempts with 120 in *.
  exists r, st'. split; [exact Hrun|].
  repeat split; try lia.
  intros Hok. destruct (Hret Hok) as (k & Hk & Hact). exists k. split; [lia|exact Hact].
Qed.

(** X5. The [catch] block rethrows the cancellation error as it is and logs
    nothing; any other error is logged exactly once; and what it throws is
    stable: handling the thrown error again would throw the same error. *)
Theorem process_catch_stable (error : js_error) (st : gstate) :
  exists e st',
    GeminiService.process_catch error st = (inl e, st') /\
    (message error = cancelled_msg -> e = error /\ st' = st) /\
    (message error <> cancelled_msg ->
     st' = push (GeminiService.ConsoleError "Gemini processing error:" error) st) /\
    (forall st2 : gstate, fst (GeminiService.process_catch e st2) = inl e).
Proof.
  unfold GeminiService.process_catch at 1.
  destruct (String.eqb_spec (message error) cancelled_msg) as [Hc|Hc].
  { exists error, st. split; [reflexivity|]. split; [auto|]. split; [now intros H|].
    intros st2. unfold GeminiService.process_catch. rewrite Hc. reflexivity. }
  unfold bind, emit, throw. cbv zeta.
  destruct (JSString.includes "429" (message error)) eqn:H429.
  { eexists _, _. split; [reflexivity|]. split; [now intros H|].
    split; [reflexivity|]. reflexivity. }
  destruct (JSString.includes "503" (message error)) eqn:H503.
  { eexists _, _. split; [reflexivity|]. split; [now intros H|].
    split; [reflexivity|]. reflexivity. }
  destruct (JSString.includes "SAFETY" (message error)) eqn:Hsafety.
  { eexists _, _. split; [reflexivity|]. split; [now intros H|].
    split; [reflexivity|]. reflexivity. }
  destruct (JSString.includes "400" (message error) && JSString.includes "context" (message error))
    eqn:Hctx.
  { eexists _, _. split; [reflexivity|]. split; [now intros H|].
    split; [reflexivity|]. reflexivity. }
  destruct (JSString.includes "403" (message error)) eqn:H403.
  { eexists _, _. split; [reflexivity|]. split; [now intros H|].
    split; [reflexivity|]. reflexivity. }
  eexists _, _. split; [reflexivity|]. split; [now intros H|]. split; [reflexivity|].
  intros st2. unfold GeminiService.process_catch.
  destruct (String.eqb_spec (message error) cancelled_msg) as [E|_]; [now elim Hc|].
  unfold bind, emit, throw. cbv zeta.
  rewrite H429, H503, Hsafety, Hctx, H403. reflexivity.
Qed.

Lemma never_fires_not_aborted (signal : option AbortSignal) (t : nat) :
  never_fires signal -> opt_aborted signal t = false.
Proof. intros H. now destruct (never_fires_quiet signal t H). Qed.

(** X6. With the credential absent or empty, and the signal not yet aborted,
    [processMediaWithGemini] throws [API Key is missing.] before any status
    update, file read, upload, poll or generation request; the only thing it
    logs is the error itself. *)
Theorem processMedia_missing_key (env : GeminiService.Env)
    (file : GeminiService.File) (options : GeminiService.ProcessingOptions)
    (onStatusUpdate : bool) (signal : option AbortSignal) (st : gstate) :
  opt_aborted signal (clock st) = false ->
  present (GeminiService.API_KEY env) = false ->
  GeminiService.processMediaWithGemini env file options onStatusUpdate signal st
  = (inl (JsError "API Key is missing."),
     push (GeminiService.ConsoleError "Gemini processing error:"
             (JsError "API Key is missing.")) st).
Proof.
  intros Hab Hkey.
  unfold GeminiService.processMediaWithGemini, try_catch, GeminiService.process_body.
  unfold bind at 1, now at 1. rewrite Hab, Hkey. reflexivity.
Qed.

Lemma silent_fileToGenerativePart p (env : GeminiService.Env)
    (file : GeminiService.File) (signal : option AbortSignal) :
  p (GeminiService.ReadAsDataURL (GeminiService.file_name file)) = false ->
  silent p (GeminiService.fileToGenerativePart env file signal).
Proof.
  intros H. unfold GeminiService.fileToGenerativePart.
  apply silent_bind; [now apply silent_emit|intros _]. apply silent_await.
Qed.

(** The body and the handler together, for a class of calls that none of
    the steps taken belongs to. *)
Lemma silent_processMedia p (env : GeminiService.Env)
    (file : GeminiService.File) (options : GeminiService.ProcessingOptions)
    (onStatusUpdate : bool) (signal : option AbortSignal) :
  (forall m e, p (GeminiService.ConsoleError m e) = false) ->
  (forall m, p (GeminiService.ConsoleLog m) = false) ->
  (forall model media prompt, p (GeminiService.GenerateContent model media prompt) = false) ->
  (onStatusUpdate = true -> forall m q, p (GeminiService.StatusUpdate m q) = false) ->
  ((GeminiService.file_size file <? GeminiService.INLINE_SIZE_LIMIT)%Z = true ->
   forall n, p (GeminiService.ReadAsDataURL n) = false) ->
  ((GeminiService.file_size file <? GeminiService.INLINE_SIZE_LIMIT)%Z = false ->
   (forall a b, p (GeminiService.FilesUpload a b) = false) /\
   (forall n, p (GeminiService.FilesGet n) = false) /\
   (forall ms, p (GeminiService.SetTimeout ms) = false)) ->
  silent p (GeminiService.processMediaWithGemini env file options onStatusUpdate signal).
Proof.
  intros Herr Hlog Hgen Hstatus Hsmall Hlarge.
  assert (Hupd : forall m q, silent p (when onStatusUpdate (emit (GeminiService.StatusUpdate m q)))).
  { intros m q. destruct onStatusUpdate; [|apply silent_ret].
    apply silent_emit. now apply Hstatus. }
  unfold GeminiService.processMediaWithGemini.
  apply silent_try_catch; [|intros e; now apply silent_process_catch].
  unfold GeminiService.process_body.
  apply silent_bind; [apply silent_now|intros t].
  destruct (opt_aborted signal t); [apply silent_throw|].
  destruct (negb (present (GeminiService.API_KEY env))); [apply silent_throw|].
  apply silent_bind.
  - destruct (GeminiService.file_size file <? GeminiService.INLINE_SIZE_LIMIT)%Z.
    + apply silent_bind; [apply Hupd|intros _].
      apply silent_bind; [|intros ?; apply silent_ret].
      apply silent_fileToGenerativePart. now apply Hsmall.
    + destruct (Hlarge eq_refl) as (Hup & Hget & Htimer).
      apply silent_bind; [apply Hupd|intros _].
      apply silent_bind; [apply silent_emit, Hup|intros _].
      apply silent_bind; [apply silent_await|intros uploadResult].
      destruct (negb (present (GeminiService.uri uploadResult))
                || negb (present (GeminiService.name uploadResult)));
        [apply silent_throw|].
      apply silent_bind; [apply Hupd|intros _].
      apply silent_bind; [|intros ?; apply silent_ret].
      apply silent_waitForFileActive; auto.
  - intros mediaPart.
    apply silent_bind; [apply Hupd|intros _].
    apply silent_bind; [apply silent_emit, Hgen|intros _].
    apply silent_bind; [apply silent_await|intros response].
    destruct (negb (present (GeminiService.text response))); [apply silent_throw|].
    apply silent_bind; [apply silent_lift|intros rawData].
    apply silent_expand.
Qed.

(** X7. A file below the inline limit of 20 MiB is never uploaded or polled
    for (no upload, no status request, no poll timer), and a file at or above
    the limit is never read into memory, whatever the environment answers and
    however the call ends. *)
Theorem processMedia_one_path (env : GeminiService.Env)
    (file : GeminiService.File) (options : GeminiService.ProcessingOptions)
    (onStatusUpdate : bool) (signal : option AbortSignal) (st : gstate) :
  ((GeminiService.file_size file < 20 * 1024 * 1024)%Z ->
   calls is_out_of_band
     (snd (GeminiService.processMediaWithGemini env file options onStatusUpdate signal st))
   = calls is_out_of_band st) /\
  ((20 * 1024 * 1024 <= GeminiService.file_size file)%Z ->
   calls is_read
     (snd (GeminiService.processMediaWithGemini env file options onStatusUpdate signal st))
   = calls is_read st).
Proof.
  split; intros Hsize.
  - apply (silent_processMedia is_out_of_band); try (intros; reflexivity).
    intros Hbig. apply Z.ltb_ge in Hbig.
    unfold GeminiService.INLINE_SIZE_LIMIT in Hbig. lia.
  - apply (silent_processMedia is_read); try (intros; reflexivity).
    + intros Hsmall. apply Z.ltb_lt in Hsmall.
      unfold GeminiService.INLINE_SIZE_LIMIT in Hsmall. lia.
    + intros _. repeat split.
Qed.

(** X8. Called without a progress callback, [processMediaWithGemini] reports
    no status at all, on either path and however the call ends. *)
Theorem processMedia_no_callback (env : GeminiService.Env)
    (file : GeminiService.File) (options : GeminiService.ProcessingOptions)
    (signal : option AbortSignal) (st : gstate) :
  calls is_status
    (snd (GeminiService.processMediaWithGemini env file options false signal st))
  = calls is_status st.
Proof.
  apply (silent_processMedia is_status); try (intros; reflexivity).
  - discriminate.
  - intros _. repeat split.
Qed.

Lemma silent_calls {A} p (c : M GeminiService.event A) (st : gstate) r st' :
  silent p c -> c st = (r, st') -> calls p st' = calls p st.
Proof. intros H E. specialize (H st). now rewrite E in H. Qed.

(** X9. One call issues at most one generation request, and exactly one
    when it returns a result. *)
Theorem processMedia_single_generation (env : GeminiService.Env)
    (file : GeminiService.File) (options : GeminiService.ProcessingOptions)
    (onStatusUpdate : bool) (signal : option AbortSignal) (st : gstate) :
  exists r st',
    GeminiService.processMediaWithGemini env file options onStatusUpdate signal st
    = (r, st') /\
    calls is_generate st' <= calls is_generate st + 1 /\
    (forall pd, r = inr pd -> calls is_generate st' = calls is_generate st + 1).
Proof.
  assert (Hcatch : forall e (s : gstate),
            exists e' s', GeminiService.process_catch e s = (inl e', s') /\
                          calls is_generate s' = calls is_generate s).
  { intros e s. destruct (process_catch_throws e s) as (e' & s' & Hc & _).
    exists e', s'. split; [exact Hc|].
    eapply silent_calls; [|exact Hc]. now apply silent_process_catch. }
  unfold GeminiService.processMediaWithGemini, try_catch, GeminiService.process_body.
  unfold bind at 1, now at 1.
  destruct (opt_aborted signal (clock st)).
  { unfold throw at 1. destruct (Hcatch cancelled st) as (e' & s' & -> & Hs).
    eexists _, _. split; [reflexivity|]. split; [lia|discriminate]. }
  destruct (negb (present (GeminiService.API_KEY env))).
  { unfold throw at 1.
    destruct (Hcatch (JsError "API Key is missing.") st) as (e' & s' & -> & Hs).
    eexists _, _. split; [reflexivity|]. split; [lia|discriminate]. }
  unfold bind at 1.
  match goal with
  | |- context [match ?c st with _ => _ end] =>
      assert (Hprep : silent is_generate c); [|pose proof (Hprep st) as H1;
                                               destruct (c st) as [[e|mediaPart] st1]]
  end.
  { destruct (GeminiService.file_size file <? GeminiService.INLINE_SIZE_LIMIT)%Z.
    - apply silent_bind; [apply silent_when; now apply silent_emit|intros _].
      apply silent_bind; [|intros ?; apply silent_ret].
      now apply silent_fileToGenerativePart.
    - apply silent_bind; [apply silent_when; now apply silent_emit|intros _].
      apply silent_bind; [now apply silent_emit|intros _].
      apply silent_bind; [apply silent_await|intros uploadResult].
      destruct (negb (present (GeminiService.uri uploadResult))
                || negb (present (GeminiService.name uploadResult)));
        [apply silent_throw|].
      apply silent_bind; [apply silent_when; now apply silent_emit|intros _].
      apply silent_bind; [|intros ?; apply silent_ret].
      apply silent_waitForFileActive; intros; reflexivity. }
  { cbn [snd] in H1. destruct (Hcatch e st1) as (e' & s' & -> & Hs).
    eexists _, _. split; [reflexivity|]. split; [lia|discriminate]. }
  cbn [snd] in H1.
  unfold bind at 1.
  match goal with
  | |- context [match ?c st1 with _ => _ end] =>
      assert (Hupd : exists st2, c st1 = (inr tt, st2) /\
                                 calls is_generate st2 = calls is_generate st1)
  end.
  { unfold when. destruct onStatusUpdate.
    - eexists. split; [reflexivity|]. rewrite calls_push. simpl. lia.
    - exists st1. now split. }
  destruct Hupd as (st2 & -> & H2).
  unfold bind at 1, emit at 1. unfold bind at 1, await at 1.
  set (st3 := tick (push _ st2)).
  assert (H3 : calls is_generate st3 = calls is_generate st + 1).
  { unfold st3. rewrite calls_tick, calls_push, H2, H1. reflexivity. }
  destruct (runWithCancellation (GeminiService.generateContent env) signal
              (clock (push (GeminiService.GenerateContent "gemini-3-flash-preview"
                              mediaPart (GeminiService.promptText options)) st2)))
    as [e|response].
  { destruct (Hcatch e st3) as (e' & s' & -> & Hs).
    eexists _, _. split; [reflexivity|]. split; [lia|discriminate]. }
  destruct (negb (present (GeminiService.text response))).
  { unfold throw at 1.
    destruct (Hcatch (JsError "No response from AI") st3) as (e' & s' & -> & Hs).
    eexists _, _. split; [reflexivity|]. split; [lia|discriminate]. }
  unfold bind at 1, lift at 1.
  destruct (GeminiService.JSON_parse env (show_opt (GeminiService.text response)))
    as [e|rawData].
  { destruct (Hcatch e st3) as (e' & s' & -> & Hs).
    eexists _, _. split; [reflexivity|]. split; [lia|discriminate]. }
  pose proof (silent_expand is_generate env rawData st3) as H4.
  destruct (GeminiService.expand env rawData st3) as [[e|pd] st4]; cbn [snd] in H4.
  { destruct (Hcatch e st4) as (e' & s' & -> & Hs).
    eexists _, _. split; [reflexivity|]. split; [lia|discriminate]. }
  eexists _, _. split; [reflexivity|]. split; [lia|]. intros _ _. lia.
Qed.

(** X10. For a file at or above the inline limit whose upload is answered
    without a URI or without a name (absent or empty), the call throws
    [Upload failed.] after the one upload: no status poll and no generation
    request follows. *)
Theorem processMedia_upload_incomplete (env : GeminiService.Env)
    (file : GeminiService.File) (options : GeminiService.ProcessingOptions)
    (onStatusUpdate : bool) (signal : option AbortSignal) (st : gstate)
    (uploadResult : GeminiService.UploadResult) :
  never_fires signal ->
  present (GeminiService.API_KEY env) = true ->
  (20 * 1024 * 1024 <= GeminiService.file_size file)%Z ->
  GeminiService.files_upload env = inr uploadResult ->
  present (GeminiService.uri uploadResult) = false \/
  present (GeminiService.name uploadResult) = false ->
  exists st',
    GeminiService.processMediaWithGemini env file options onStatusUpdate signal st
    = (inl (JsError "Upload failed."), st') /\
    calls is_upload st' = calls is_upload st + 1 /\
    calls GeminiService.is_poll st' = calls GeminiService.is_poll st /\
    calls is_generate st' = calls is_generate st.
Proof.
  intros Hquiet Hkey Hsize Hup Hmissing.
  assert (Hfalsy : negb (present (GeminiService.uri uploadResult))
                   || negb (present (GeminiService.name uploadResult)) = true).
  { destruct Hmissing as [-> | ->]; [reflexivity|apply orb_true_r]. }
  assert (Hbig : (GeminiService.file_size file <? GeminiService.INLINE_SIZE_LIMIT)%Z = false).
  { apply Z.ltb_ge. unfold GeminiService.INLINE_SIZE_LIMIT. lia. }
  unfold GeminiService.processMediaWithGemini, try_catch, GeminiService.process_body.
  unfold bind at 1, now at 1.
  rewrite (never_fires_not_aborted signal (clock st) Hquiet), Hkey, Hbig.
  cbn [negb]. unfold bind at 1. unfold bind at 1.
  destruct onStatusUpdate; cbn [when].
  - unfold emit at 1. unfold bind at 1, emit at 1. unfold bind at 1, await at 1.
    destruct (never_fires_quiet signal
                (clock (push (GeminiService.FilesUpload (GeminiService.file_name file)
                                (GeminiService.file_type file))
                          (push (GeminiService.StatusUpdate
                                   "Uploading large file to Gemini..." (of_Z 10)) st)))
                Hquiet) as (_ & -> & _).
    rewrite Hup, Hfalsy. unfold throw at 1.
    eexists. split; [reflexivity|].
    rewrite !calls_push, !calls_tick, !calls_push. simpl. repeat split; lia.
  - unfold ret at 1. unfold bind at 1, emit at 1. unfold bind at 1, await at 1.
    destruct (never_fires_quiet signal
                (clock (push (GeminiService.FilesUpload (GeminiService.file_name file)
                                (GeminiService.file_type file)) st))
                Hquiet) as (_ & -> & _).
    rewrite Hup, Hfalsy. unfold throw at 1.
    eexists. split; [reflexivity|].
    rewrite !calls_push, !calls_tick, !calls_push. simpl. repeat split; lia.
Qed.

(** *** The expansion, in general *)

Lemma get_readable (env : GeminiService.Env) (v : value) (key : string) (st : gstate) :
  readable v = true -> GeminiService.get env v key st = (inr (field v key), st).
Proof. destruct v; try discriminate; reflexivity. Qed.

Lemma get_unreadable (env : GeminiService.Env) (v : value) (key : string) (st : gstate) :
  readable v = false ->
  GeminiService.get env v key st = (inl (GeminiService.type_error env), st).
Proof. destruct v; try discriminate; reflexivity. Qed.

Lemma to_subtitle_readable (env : GeminiService.Env) (s : value) (st : gstate) :
  readable s = true -> GeminiService.to_subtitle env s st = (inr (subtitle_of s), st).
Proof.
  intros H. unfold GeminiService.to_subtitle, bind. now rewrite !get_readable.
Qed.

Lemma to_note_readable (env : GeminiService.Env) (n : value) (st : gstate) :
  readable n = true -> GeminiService.to_note env n st = (inr (note_of n), st).
Proof.
  intros H. unfold GeminiService.to_note, bind. now rewrite !get_readable.
Qed.

Lemma to_flashcard_run (env : GeminiService.Env) (c : value) (st : gstate) :
  readable c = true ->
  GeminiService.to_flashcard env c st
  = if truthy (field c "id")
    then (inr (flashcard_of c), st)
    else (inr {| GeminiService.card_id :=
                   VString (GeminiService.Math_random env (draws st));
                 GeminiService.term := field c "t";
                 GeminiService.definition := field c "d";
                 GeminiService.context := field c "c" |},
          {| clock := clock st; log := log st; draws := S (draws st) |}).
Proof.
  intros H. unfold GeminiService.to_flashcard, bind.
  rewrite (get_readable env c "id" st H).
  destruct (truthy (field c "id")).
  - unfold ret. cbv beta iota.
    repeat (rewrite get_readable by exact H; cbv beta iota). reflexivity.
  - unfold draw, ret. cbv beta iota.
    repeat (rewrite get_readable by exact H; cbv beta iota). reflexivity.
Qed.

Lemma mapM_flashcards (env : GeminiService.Env) (cards : list value) :
  forallb readable cards = true ->
  forall st : gstate,
    mapM (GeminiService.to_flashcard env) cards st
    = (inr (assign_ids (GeminiService.Math_random env) (draws st) cards),
       {| clock := clock st; log := log st;
          draws := draws st + generated_ids cards |}).
Proof.
  induction cards as [|c rest IH]; intros Hall st.
  - cbn [mapM assign_ids]. unfold ret, generated_ids. cbn. rewrite Nat.add_0_r.
    now destruct st.
  - cbn [forallb] in Hall. apply andb_prop in Hall as [Hc Hrest].
    cbn [mapM assign_ids]. unfold bind at 1.
    rewrite (to_flashcard_run env c st Hc).
    unfold generated_ids. cbn [filter].
    destruct (truthy (field c "id")); cbn [negb].
    + unfold bind at 1. rewrite (IH Hrest st). reflexivity.
    + unfold bind at 1. rewrite (IH Hrest). unfold ret, generated_ids.
      cbn [clock log draws List.length]. do 2 f_equal. lia.
Qed.

(** Mapping stops with the engine's error at the first unreadable element. *)
Lemma mapM_unreadable {B} (env : GeminiService.Env)
    (f : value -> M GeminiService.event B) (items : list value) :
  (forall x (st : gstate), readable x = false ->
     f x st = (inl (GeminiService.type_error env), st)) ->
  (forall x (st : gstate), readable x = true ->
     exists y st', f x st = (inr y, st') /\ clock st' = clock st /\ log st' = log st) ->
  forallb readable items = false ->
  forall st : gstate,
  exists st',
    mapM f items st = (inl (GeminiService.type_error env), st') /\
    clock st' = clock st /\ log st' = log st.
Proof.
  intros Hbad Hgood. induction items as [|x rest IH]; intros Hall st;
    cbn [forallb] in Hall; [discriminate|].
  cbn [mapM]. unfold bind at 1.
  destruct (readable x) eqn:Hx.
  - destruct (Hgood x st Hx) as (y & st1 & -> & Hc & Hl).
    unfold bind at 1. destruct (IH Hall st1) as (st' & -> & Hc' & Hl').
    exists st'. split; [reflexivity|]. now rewrite Hc', Hl'.
  - rewrite (Hbad x st Hx). exists st. now repeat split.
Qed.

Lemma array_map_unreadable {B} (env : GeminiService.Env)
    (f : value -> M GeminiService.event B) (v : value) :
  (forall x (st : gstate), readable x = false ->
     f x st = (inl (GeminiService.type_error env), st)) ->
  (forall x (st : gstate), readable x = true ->
     exists y st', f x st = (inr y, st') /\ clock st' = clock st /\ log st' = log st) ->
  readable_array v = false ->
  forall st : gstate,
  exists st',
    GeminiService.array_map env v f st = (inl (GeminiService.type_error env), st') /\
    clock st' = clock st /\ log st' = log st.
Proof.
  intros Hbad Hgood Hv st.
  destruct v; cbn [GeminiService.array_map readable_array] in *;
    try (exists st; now repeat split).
  now apply mapM_unreadable.
Qed.

Lemma to_subtitle_unreadable (env : GeminiService.Env) (s : value) (st : gstate) :
  readable s = false ->
  GeminiService.to_subtitle env s st = (inl (GeminiService.type_error env), st).
Proof. intros H. unfold GeminiService.to_subtitle, bind. now rewrite get_unreadable. Qed.

Lemma to_note_unreadable (env : GeminiService.Env) (n : value) (st : gstate) :
  readable n = false ->
  GeminiService.to_note env n st = (inl (GeminiService.type_error env), st).
Proof. intros H. unfold GeminiService.to_note, bind. now rewrite get_unreadable. Qed.

Lemma to_flashcard_unreadable (env : GeminiService.Env) (c : value) (st : gstate) :
  readable c = false ->
  GeminiService.to_flashcard env c st = (inl (GeminiService.type_error env), st).
Proof. intros H. unfold GeminiService.to_flashcard, bind. now rewrite get_unreadable. Qed.

Lemma to_flashcard_readable (env : GeminiService.Env) (c : value) (st : gstate) :
  readable c = true ->
  exists y st', GeminiService.to_flashcard env c st = (inr y, st') /\
                clock st' = clock st /\ log st' = log st.
Proof.
  intros H.
  pose proof (mapM_flashcards env [c]) as Hm. cbn [forallb] in Hm.
  rewrite H in Hm. specialize (Hm eq_refl st).
  cbn [mapM] in Hm. unfold bind at 1 in Hm.
  destruct (GeminiService.to_flashcard env c st) as [[e|y] st1]; [discriminate|].
  unfold bind, ret in Hm. injection Hm as _ Hst.
  exists y, st1. split; [reflexivity|]. subst st1. now split.
Qed.

Lemma readable_array_items (v : value) :
  readable_array v = true -> v = VArray (items_of v) /\ forallb readable (items_of v) = true.
Proof. destruct v; try discriminate. cbn. auto. Qed.

Lemma array_map_subtitles (env : GeminiService.Env) (v : value) (st : gstate) :
  readable_array v = true ->
  GeminiService.array_map env v (GeminiService.to_subtitle env) st
  = (inr (map subtitle_of (items_of v)), st).
Proof.
  intros H. destruct (readable_array_items v H) as (Hv & Hall).
  rewrite Hv at 1. cbn [GeminiService.array_map].
  apply mapM_pure. apply forallb_Forall in Hall.
  eapply Forall_impl; [|exact Hall]. intros s Hs. now apply to_subtitle_readable.
Qed.

Lemma array_map_notes (env : GeminiService.Env) (v : value) (st : gstate) :
  readable_array v = true ->
  GeminiService.array_map env v (GeminiService.to_note env) st
  = (inr (map note_of (items_of v)), st).
Proof.
  intros H. destruct (readable_array_items v H) as (Hv & Hall).
  rewrite Hv at 1. cbn [GeminiService.array_map].
  apply mapM_pure. apply forallb_Forall in Hall.
  eapply Forall_impl; [|exact Hall]. intros s Hs. now apply to_note_readable.
Qed.

(** The expansion of an accepted response, as a function. *)
Lemma expand_run (env : GeminiService.Env) (rawData : value) (st : gstate) :
  expandable rawData = true ->
  GeminiService.expand env rawData st
  = (inr {| GeminiService.subtitles := map subtitle_of (items_of (field rawData "subs"));
            GeminiService.notes := map note_of (items_of (field rawData "nts"));
            GeminiService.flashcards :=
              assign_ids (GeminiService.Math_random env) (draws st)
                (items_of (field rawData "cards")) |},
     {| clock := clock st; log := log st;
        draws := draws st + generated_ids (items_of (field rawData "cards")) |}).
Proof.
  unfold expandable. intros H.
  apply andb_prop in H as [H Hcards]. apply andb_prop in H as [H Hnts].
  apply andb_prop in H as [Hraw Hsubs].
  unfold GeminiService.expand.
  unfold bind at 1. rewrite (get_readable env rawData "subs" st Hraw).
  unfold bind at 1. rewrite (array_map_subtitles env _ st Hsubs).
  unfold bind at 1. rewrite (get_readable env rawData "nts" st Hraw).
  unfold bind at 1. rewrite (array_map_notes env _ st Hnts).
  unfold bind at 1. rewrite (get_readable env rawData "cards" st Hraw).
  unfold bind at 1.
  destruct (readable_array_items _ Hcards) as (Hv & Hall).
  rewrite Hv at 1. cbn [GeminiService.array_map].
  rewrite (mapM_flashcards env _ Hall st). reflexivity.
Qed.

(** X11. The expansion accepts exactly the readable responses whose [subs],
    [nts] and [cards] are arrays without [null] elements, and on those it
    computes a fixed function of the response and of the random source:
    subtitles and notes are the arrays mapped field by field (an absent field
    becoming [undefined]), each card keeps a truthy [id] or takes the next
    draw, and exactly as many draws are consumed as there are cards with a
    falsy [id]. *)
Theorem expand_accepts (env : GeminiService.Env) (rawData : value) (st : gstate) :
  expandable rawData = true ->
  GeminiService.expand env rawData st
  = (inr {| GeminiService.subtitles := map subtitle_of (items_of (field rawData "subs"));
            GeminiService.notes := map note_of (items_of (field rawData "nts"));
            GeminiService.flashcards :=
              assign_ids (GeminiService.Math_random env) (draws st)
                (items_of (field rawData "cards")) |},
     {| clock := clock st; log := log st;
        draws := draws st + generated_ids (items_of (field rawData "cards")) |}).
Proof. exact (expand_run env rawData st). Qed.

(** X12. On every other value the expansion throws the engine's
    [TypeError], whichever part is at fault, and issues no call. *)
Theorem expand_rejects (env : GeminiService.Env) (rawData : value) (st : gstate) :
  expandable rawData = false ->
  exists st',
    GeminiService.expand env rawData st = (inl (GeminiService.type_error env), st') /\
    clock st' = clock st /\ log st' = log st.
Proof.
  unfold expandable. intros H.
  unfold GeminiService.expand. unfold bind at 1.
  destruct (readable rawData) eqn:Hraw.
  2:{ rewrite (get_unreadable env rawData "subs" st Hraw).
      exists st. now repeat split. }
  rewrite (get_readable env rawData "subs" st Hraw). unfold bind at 1.
  destruct (readable_array (field rawData "subs")) eqn:Hsubs.
  2:{ destruct (array_map_unreadable env (GeminiService.to_subtitle env)
                  (field rawData "subs")) with (st := st) as (st' & -> & Hc & Hl); auto.
      - intros x s Hx. now apply to_subtitle_unreadable.
      - intros x s Hx. exists (subtitle_of x), s.
        split; [now apply to_subtitle_readable|now split].
      - exists st'. now repeat split. }
  rewrite (array_map_subtitles env _ st Hsubs).
  unfold bind at 1. rewrite (get_readable env rawData "nts" st Hraw). unfold bind at 1.
  destruct (readable_array (field rawData "nts")) eqn:Hnts.
  2:{ destruct (array_map_unreadable env (GeminiService.to_note env)
                  (field rawData "nts")) with (st := st) as (st' & -> & Hc & Hl); auto.
      - intros x s Hx. now apply to_note_unreadable.
      - intros x s Hx. exists (note_of x), s.
        split; [now apply to_note_readable|now split].
      - exists st'. now repeat split. }
  rewrite (array_map_notes env _ st Hnts).
  unfold bind at 1. rewrite (get_readable env rawData "cards" st Hraw). unfold bind at 1.
  cbn [andb] in H.
  destruct (array_map_unreadable env (GeminiService.to_flashcard env)
              (field rawData "cards")) with (st := st) as (st' & -> & Hc & Hl); auto.
  - intros x s Hx. now apply to_flashcard_unreadable.
  - intros x s Hx. now apply to_flashcard_readable.
  - exists st'. now repeat split.
Qed.

End GeminiMore.

(** ** The dashboard, further: subtitle export *)

Section ExportMore.
Context {N : JSNumber} {AudioBuffer : Type}.

Local Abbreviation event := (@Dashboard.event N AudioBuffer).

Lemma srt_step_block (type : Dashboard.export_type) (content : string)
    (sub : Dashboard.Subtitle) (index : nat) :
  Dashboard.srt_step type content sub index = content ++ srt_block type index sub.
Proof.
  unfold Dashboard.srt_step, srt_block, text_lines.
  destruct type; now rewrite !append_assoc.
Qed.

Lemma srt_forEach_blocks (type : Dashboard.export_type) (subs : list Dashboard.Subtitle) :
  forall index content,
    Dashboard.srt_forEach type subs index content
    = content ++ join (srt_blocks type index subs).
Proof.
  induction subs as [|sub rest IH]; intros index content;
    cbn [Dashboard.srt_forEach srt_blocks].
  - apply eq_sym, append_empty_r.
  - rewrite IH, srt_step_block, append_assoc. reflexivity.
Qed.

Lemma srt_content_blocks (type : Dashboard.export_type) (subs : list Dashboard.Subtitle) :
  Dashboard.srt_content type subs = join (srt_blocks type 0 subs).
Proof. unfold Dashboard.srt_content. now rewrite srt_forEach_blocks. Qed.

Lemma srt_blocks_nth (type : Dashboard.export_type) (subs : list Dashboard.Subtitle) :
  forall index i sub,
    nth_error subs i = Some sub ->
    nth_error (srt_blocks type index subs) i = Some (srt_block type (index + i) sub).
Proof.
  induction subs as [|s rest IH]; intros index [|i] sub H; simpl in *; try discriminate.
  - injection H as ->. now rewrite Nat.add_0_r.
  - rewrite (IH (S index) i sub H).
    replace (S index + i) with (index + S i) by lia. reflexivity.
Qed.

Lemma srt_blocks_length (type : Dashboard.export_type) (subs : list Dashboard.Subtitle) :
  forall index, List.length (srt_blocks type index subs) = List.length subs.
Proof. induction subs as [|s rest IH]; intros index; simpl; [|rewrite IH]; reflexivity. Qed.

Lemma join_app (a b : list string) : join (a ++ b)%list = join a ++ join b.
Proof.
  induction a as [|x a IH]; cbn [join fold_right app]; [reflexivity|].
  fold (join (a ++ b)%list). fold (join a). now rewrite IH, append_assoc.
Qed.

Lemma srt_blocks_app (type : Dashboard.export_type) (a b : list Dashboard.Subtitle) :
  forall index,
    srt_blocks type index (a ++ b)%list
    = (srt_blocks type index a ++ srt_blocks type (index + List.length a) b)%list.
Proof.
  induction a as [|x a IH]; intros index; cbn [srt_blocks app List.length].
  - now rewrite Nat.add_0_r.
  - rewrite IH. replace (S index + List.length a) with (index + S (List.length a)) by lia.
    reflexivity.
Qed.

(** C8. A timestamp without a comma is written with [,000] appended and one
    with a comma is written unchanged; and for every subtitle list, in every
    mode, the file that [exportSRT] hands to the browser is made of one block
    per subtitle, in list order, the block of the subtitle at position [i]
    starting with the line [i+1] and the line of its two timestamps so
    treated, start before end. *)
Theorem exportSRT_timestamps (type : Dashboard.export_type) (file : Dashboard.File)
    (subs : list Dashboard.Subtitle) :
  (forall t, ~ In ","%char (list_ascii_of_string t) ->
     Dashboard.srt_time t = t ++ ",000") /\
  (forall t, In ","%char (list_ascii_of_string t) -> Dashboard.srt_time t = t) /\
  (forall st : state event,
     Dashboard.exportSRT file subs type st
     = (inr tt,
        push (Dashboard.SetShowExportMenu false)
          (push (Dashboard.DownloadText
                   (Dashboard.base_name file ++ "_" ++ Dashboard.type_name type ++ ".srt")
                   (join (srt_blocks type 0 subs))) st))) /\
  List.length (srt_blocks type 0 subs) = List.length subs /\
  (forall i sub, nth_error subs i = Some sub ->
     exists text,
       nth_error (srt_blocks type 0 subs) i
       = Some (JSString.of_nat (i + 1) ++ Dashboard.nl
               ++ Dashboard.srt_time (Dashboard.startTime sub) ++ " --> "
               ++ Dashboard.srt_time (Dashboard.endTime sub) ++ Dashboard.nl ++ text)).
Proof.
  split; [|split; [|split; [|split]]].
  - intros t H. unfold Dashboard.srt_time. rewrite includes_char.
    apply count_char_In in H. now rewrite H.
  - intros t H. unfold Dashboard.srt_time. rewrite includes_char.
    destruct (JSString.count_char "," t) eqn:E; [|reflexivity].
    exfalso. now apply (proj1 (count_char_In _ _) E).
  - intros st. unfold Dashboard.exportSRT. rewrite srt_content_blocks. reflexivity.
  - apply srt_blocks_length.
  - intros i sub H. exists (text_lines type sub).
    now rewrite (srt_blocks_nth type subs 0 i sub H).
Qed.

(** X13. In bilingual mode the exported text is one block per subtitle, in
    list order, and the block at position [i] is the line [i+1], the
    timestamp line, the original text on one line, the translated text on the
    next, and a blank line. *)
Theorem exportSRT_bilingual_blocks (subs : list Dashboard.Subtitle) :
  Dashboard.srt_content Dashboard.bilingual subs
  = join (srt_blocks Dashboard.bilingual 0 subs) /\
  List.length (srt_blocks Dashboard.bilingual 0 subs) = List.length subs /\
  (forall i sub, nth_error subs i = Some sub ->
     nth_error (srt_blocks Dashboard.bilingual 0 subs) i
     = Some (JSString.of_nat (i + 1) ++ Dashboard.nl
             ++ Dashboard.srt_time (Dashboard.startTime sub) ++ " --> "
             ++ Dashboard.srt_time (Dashboard.endTime sub) ++ Dashboard.nl
             ++ Dashboard.textOriginal sub ++ Dashboard.nl
             ++ Dashboard.textVietnamese sub ++ Dashboard.nl ++ Dashboard.nl)) /\
  (forall (file : Dashboard.File) (st : state event),
     Dashboard.exportSRT file subs Dashboard.bilingual st
     = (inr tt,
        push (Dashboard.SetShowExportMenu false)
          (push (Dashboard.DownloadText
                   (Dashboard.base_name file ++ "_bilingual.srt")
                   (join (srt_blocks Dashboard.bilingual 0 subs))) st))).
Proof.
  split; [apply srt_content_blocks|]. split; [apply srt_blocks_length|]. split.
  - intros i sub H. now rewrite (srt_blocks_nth Dashboard.bilingual subs 0 i sub H).
  - intros file st. unfold Dashboard.exportSRT. rewrite srt_content_blocks. reflexivity.
Qed.

Lemma srt_blocks_vietnamese (subs subs' : list Dashboard.Subtitle) :
  Forall2 same_but_original subs subs' ->
  forall index,
    srt_blocks Dashboard.vietnamese index subs = srt_blocks Dashboard.vietnamese index subs'.
Proof.
  induction 1 as [|a b l l' (Hid & Hs & He & Hv) _ IH]; intros index; simpl; [reflexivity|].
  rewrite IH. unfold srt_block, text_lines. now rewrite Hs, He, Hv.
Qed.

(** X14. In translated-only mode the block at position [i] is the line
    [i+1], the timestamp line, the translated text and a blank line, and the
    original text is never written: two lists that differ only in original
    text export the same file. *)
Theorem exportSRT_vietnamese_blocks (subs : list Dashboard.Subtitle) :
  Dashboard.srt_content Dashboard.vietnamese subs
  = join (srt_blocks Dashboard.vietnamese 0 subs) /\
  (forall i sub, nth_error subs i = Some sub ->
     nth_error (srt_blocks Dashboard.vietnamese 0 subs) i
     = Some (JSString.of_nat (i + 1) ++ Dashboard.nl
             ++ Dashboard.srt_time (Dashboard.startTime sub) ++ " --> "
             ++ Dashboard.srt_time (Dashboard.endTime sub) ++ Dashboard.nl
             ++ Dashboard.textVietnamese sub ++ Dashboard.nl ++ Dashboard.nl)) /\
  (forall subs', Forall2 same_but_original subs subs' ->
     Dashboard.srt_content Dashboard.vietnamese subs'
     = Dashboard.srt_content Dashboard.vietnamese subs).
Proof.
  split; [apply srt_content_blocks|]. split.
  - intros i sub H. now rewrite (srt_blocks_nth Dashboard.vietnamese subs 0 i sub H).
  - intros subs' H. rewrite !srt_content_blocks.
    now rewrite (srt_blocks_vietnamese subs subs' H).
Qed.

Lemma count_char_app (c : ascii) (a b : string) :
  JSString.count_char c (a ++ b) = JSString.count_char c a + JSString.count_char c b.
Proof.
  induction a as [|x a IH]; cbn [append JSString.count_char]; [reflexivity|].
  rewrite IH. lia.
Qed.

(** X15. Normalising a timestamp is idempotent: the result always holds a
    comma, so a second pass leaves it as it is. *)
Theorem srt_time_idempotent (t : string) :
  Dashboard.srt_time (Dashboard.srt_time t) = Dashboard.srt_time t /\
  JSString.includes "," (Dashboard.srt_time t) = true.
Proof.
  assert (H : JSString.includes "," (Dashboard.srt_time t) = true).
  { unfold Dashboard.srt_time.
    destruct (JSString.includes "," t) eqn:E; [exact E|].
    rewrite includes_char, count_char_app. cbn [JSString.count_char].
    rewrite Ascii.eqb_refl. now rewrite Nat.add_comm. }
  split; [|exact H].
  unfold Dashboard.srt_time at 1. now rewrite H.
Qed.

(** X16. Export composes over concatenation: in every mode the text for
    [a ++ b] is the text for [a] followed by the blocks of [b] numbered from
    [length a + 1]; in particular an empty list exports the empty text. *)
Theorem exportSRT_append (type : Dashboard.export_type) (a b : list Dashboard.Subtitle) :
  Dashboard.srt_content type (a ++ b)%list
  = Dashboard.srt_content type a ++ join (srt_blocks type (List.length a) b) /\
  Dashboard.srt_content type (a ++ b)%list
  = Dashboard.srt_forEach type b (List.length a) (Dashboard.srt_content type a) /\
  Dashboard.srt_content type [] = "".
Proof.
  split; [|split].
  - rewrite !srt_content_blocks, srt_blocks_app, join_app. reflexivity.
  - rewrite srt_forEach_blocks, !srt_content_blocks, srt_blocks_app, join_app.
    reflexivity.
  - reflexivity.
Qed.

(** The first field of a split is the text before the first separator. *)
Lemma split_first_field (sep : ascii) (s : string) :
  JSString.count_char sep (hd "" (JSString.split sep s)) = 0 /\
  (s = hd "" (JSString.split sep s) \/
   exists rest, s = hd "" (JSString.split sep s) ++ String sep rest).
Proof.
  induction s as [|c s IH]; cbn [JSString.split].
  - split; [reflexivity|now left].
  - destruct (Ascii.eqb_spec c sep) as [->|Hne]; cbn [hd].
    + split; [reflexivity|]. right. now exists s.
    + destruct IH as (Hcount & Hshape).
      destruct (JSString.split sep s) as [|field fields] eqn:E; cbn [hd] in *.
      * pose proof (split_length sep s) as Hl. rewrite E in Hl. discriminate.
      * split.
        -- cbn [JSString.count_char].
           destruct (Ascii.eqb_spec c sep) as [->|_]; [now elim Hne|exact Hcount].
        -- destruct Hshape as [->|(rest & ->)]; [now left|right].
           now exists rest.
Qed.

(** X17. The base name used for every exported file is the part of the
    media file's name before its first dot: it holds no dot, and the name is
    either the base itself or the base followed by a dot and the rest. *)
Theorem base_name_before_first_dot (file : Dashboard.File) :
  JSString.count_char "." (Dashboard.base_name file) = 0 /\
  (Dashboard.file_name file = Dashboard.base_name file \/
   exists rest,
     Dashboard.file_name file = Dashboard.base_name file ++ String "." rest).
Proof. unfold Dashboard.base_name. apply split_first_field. Qed.

End ExportMore.

(** ** The dashboard: dubbed audio *)

Section Dubbing.
Context {N : JSNumber} {AudioBuffer : Type}.

Local Abbreviation event := (@Dashboard.event N AudioBuffer).
Local Abbreviation dstate := (state (@Dashboard.event N AudioBuffer)).
Local Abbreviation ctx_t := (@Dashboard.OfflineAudioContext N AudioBuffer).

(** [getTTSAudio] as a function of the environment: its outcome, the one
    request it logs when the credential is present, and the one wait. *)
Lemma getTTSAudio_run (tenv : GeminiService.TTSEnv AudioBuffer) (line : nat)
    (text voiceName : string) (st : dstate) :
  exists st',
    GeminiService.getTTSAudio Dashboard.TTSRequest tenv line text voiceName st
    = (tts_result tenv line, st') /\
    log st'
    = (log st ++ if present (GeminiService.tts_API_KEY tenv)
                 then [Dashboard.TTSRequest "gemini-2.5-flash-preview-tts" text voiceName]
                 else [])%list /\
    clock st' = clock st + (if present (GeminiService.tts_API_KEY tenv) then 1 else 0).
Proof.
  unfold GeminiService.getTTSAudio, tts_result.
  destruct (present (GeminiService.tts_API_KEY tenv)); cbn [negb].
  - unfold bind at 1, emit at 1. unfold bind at 1, await at 1.
    destruct (GeminiService.tts_generateContent tenv line) as [e|base64Audio].
    + eexists. split; [reflexivity|]. split; [reflexivity|]. cbn. lia.
    + destruct (negb (present base64Audio)).
      * eexists. split; [reflexivity|]. split; [reflexivity|]. cbn. lia.
      * unfold lift. eexists. split; [reflexivity|]. split; [reflexivity|]. cbn. lia.
  - exists st. split; [reflexivity|]. rewrite app_nil_r. split; [reflexivity|lia].
Qed.



Lemma add_no_sources (ctx : ctx_t) : add_sources ctx [] = ctx.
Proof. unfold add_sources. rewrite app_nil_r. now destruct ctx. Qed.

Lemma add_sources_app (ctx : ctx_t) (a b : list (AudioBuffer * num)) :
  add_sources (add_sources ctx a) b = add_sources ctx (a ++ b)%list.
Proof. unfold add_sources. cbn. now rewrite app_assoc. Qed.

(** One pass of the inner [try]/[catch]: it never throws, it starts the
    line's source or leaves the context as it was, and it warns exactly when
    it started nothing. *)
Lemma dub_line_run (env : Dashboard.DubEnv) (line : nat) (sub : Dashboard.Subtitle)
    (ctx : ctx_t) (st : dstate) :
  exists st',
    Dashboard.dub_line env line sub ctx st
    = (inr (add_sources ctx (sources_of (line_result env line sub))), st') /\
    log st'
    = (log st
       ++ (if present (GeminiService.tts_API_KEY (Dashboard.speech env))
           then [Dashboard.TTSRequest "gemini-2.5-flash-preview-tts"
                   (Dashboard.textVietnamese sub) "Kore"]
           else [])
       ++ match line_result env line sub with
          | inl e => [Dashboard.ConsoleWarn (Dashboard.id sub) e]
          | inr _ => []
          end)%list /\
    clock st' = clock st
                + (if present (GeminiService.tts_API_KEY (Dashboard.speech env))
                   then 1 else 0).
Proof.
  destruct (getTTSAudio_run (Dashboard.speech env) line (Dashboard.textVietnamese sub)
              "Kore" st) as (st1 & Hrun & Hlog & Hclock).
  unfold Dashboard.dub_line, try_catch, bind at 1. rewrite Hrun.
  unfold line_result.
  destruct (tts_result (Dashboard.speech env) line) as [e|buffer].
  - unfold bind, emit, ret. eexists. split; [|split].
    + cbn [sources_of]. now rewrite add_no_sources.
    + rewrite push_log, Hlog, app_assoc. reflexivity.
    + rewrite push_clock. exact Hclock.
  - unfold Dashboard.schedule.
    destruct (Dashboard.source_start env (Dashboard.parseTime (Dashboard.startTime sub)))
      as [e|].
    + unfold throw at 1. unfold bind, emit, ret. eexists. split; [|split].
      * cbn [sources_of]. now rewrite add_no_sources.
      * rewrite push_log, Hlog, app_assoc. reflexivity.
      * rewrite push_clock. exact Hclock.
    + unfold ret. exists st1. split; [reflexivity|].
      split; [now rewrite Hlog, app_nil_r|exact Hclock].
Qed.

(** The loop as a function of the environment: the context it leaves, the
    count it reaches and everything it logs. *)
Lemma dub_loop_run (env : Dashboard.DubEnv) (total : nat) (subs : list Dashboard.Subtitle) :
  forall line (ctx : ctx_t) count (st : dstate),
  exists st',
    Dashboard.dub_loop env total subs line ctx count st
    = (inr (add_sources ctx (started_lines env line subs), count + List.length subs), st') /\
    log st' = (log st ++ loop_trace env total line count subs)%list /\
    clock st' = clock st + (if present (GeminiService.tts_API_KEY (Dashboard.speech env))
                            then List.length subs else 0).
Proof.
  induction subs as [|sub rest IH]; intros line ctx count st;
    cbn [Dashboard.dub_loop started_lines loop_trace List.length].
  - exists st. unfold ret. rewrite Nat.add_0_r, app_nil_r, add_no_sources. split.
    + reflexivity.
    + split; [reflexivity|]. destruct (present _); lia.
  - destruct (dub_line_run env line sub ctx st) as (st1 & Hrun & Hlog & Hclock).
    unfold bind at 1. rewrite Hrun. unfold bind at 1, emit at 1.
    destruct (IH (S line) (add_sources ctx (sources_of (line_result env line sub)))
                (S count)
                (push (Dashboard.SetDubProgress (Dashboard.percent (S count) total)) st1))
      as (st' & Hrest & Hlog' & Hclock').
    exists st'. split; [|split].
    + rewrite Hrest, add_sources_app.
      replace (S count + List.length rest) with (count + S (List.length rest)) by lia.
      reflexivity.
    + rewrite Hlog', push_log, Hlog. unfold line_trace.
      rewrite <- !app_assoc. reflexivity.
    + rewrite Hclock', push_clock, Hclock. destruct (present _); lia.
Qed.

Lemma started_lines_length (env : @Dashboard.DubEnv N AudioBuffer)
    (subs : list Dashboard.Subtitle) :
  forall line total count,
    List.length (filter is_warning (loop_trace env total line count subs))
    + List.length (started_lines env line subs)
    = List.length subs.
Proof.
  induction subs as [|sub rest IH]; intros line total count;
    cbn [loop_trace started_lines List.length]; [reflexivity|].
  unfold line_trace. rewrite !filter_app, !length_app.
  specialize (IH (S line) total (S count)).
  destruct (present (GeminiService.tts_API_KEY (Dashboard.speech env)));
    destruct (line_result env line sub);
    cbn [filter is_warning List.length app Nat.add sources_of] in *; lia.
Qed.

(** Where a started source comes from. *)
Lemma started_lines_origin (env : @Dashboard.DubEnv N AudioBuffer)
    (subs : list Dashboard.Subtitle) :
  forall line buffer when,
    In (buffer, when) (started_lines env line subs) ->
    exists i sub,
      nth_error subs i = Some sub /\
      tts_result (Dashboard.speech env) (line + i) = inr buffer /\
      when = Dashboard.parseTime (Dashboard.startTime sub) /\
      Dashboard.source_start env when = None.
Proof.
  induction subs as [|s rest IH]; intros line buffer when H;
    cbn [started_lines] in H; [destruct H|].
  apply in_app_or in H as [H|H].
  - exists 0, s. rewrite Nat.add_0_r. split; [reflexivity|].
    unfold line_result in H.
    destruct (tts_result (Dashboard.speech env) line) as [e|b]; [destruct H|].
    destruct (Dashboard.source_start env (Dashboard.parseTime (Dashboard.startTime s)))
      as [e|] eqn:Hstart; [destruct H|].
    destruct H as [H|[]]. injection H as <- <-. auto.
  - destruct (IH (S line) buffer when H) as (i & sub & Hi & Ht & Hw & Hs).
    exists (S i), sub. replace (line + S i) with (S line + i) by lia. auto.
Qed.

(** Each line ends up started or warned about. *)
Lemma loop_accounts_for (env : @Dashboard.DubEnv N AudioBuffer)
    (subs : list Dashboard.Subtitle) :
  forall total line count i sub,
    nth_error subs i = Some sub ->
    match line_result env (line + i) sub with
    | inr source => In source (started_lines env line subs)
    | inl e => In (Dashboard.ConsoleWarn (Dashboard.id sub) e)
                 (loop_trace env total line count subs)
    end.
Proof.
  induction subs as [|s rest IH]; intros total line count [|i] sub Hi;
    cbn [nth_error] in Hi; try discriminate;
    cbn [started_lines loop_trace].
  - injection Hi as ->. rewrite Nat.add_0_r. unfold line_trace.
    destruct (line_result env line sub) as [e|source].
    + rewrite !in_app_iff. left. right. left. now left.
    + apply in_or_app. left. now left.
  - specialize (IH total (S line) (S count) i sub Hi).
    replace (line + S i) with (S line + i) by lia.
    destruct (line_result env (S line + i) sub); apply in_or_app; now right.
Qed.

Lemma loop_trace_requests (env : @Dashboard.DubEnv N AudioBuffer)
    (subs : list Dashboard.Subtitle) :
  forall total line count,
    filter is_tts_request (loop_trace env total line count subs)
    = if present (GeminiService.tts_API_KEY (Dashboard.speech env))
      then map (fun sub => Dashboard.TTSRequest "gemini-2.5-flash-preview-tts"
                             (Dashboard.textVietnamese sub) "Kore") subs
      else [].
Proof.
  induction subs as [|sub rest IH]; intros total line count; cbn [loop_trace map].
  - now destruct (present _).
  - unfold line_trace. rewrite !filter_app, IH.
    destruct (present (GeminiService.tts_API_KEY (Dashboard.speech env)));
      destruct (line_result env line sub); reflexivity.
Qed.

Lemma loop_trace_quiet (p : event -> bool)
    (env : Dashboard.DubEnv) (subs : list Dashboard.Subtitle) :
  (forall a b c, p (Dashboard.TTSRequest a b c) = false) ->
  (forall a b, p (Dashboard.ConsoleWarn a b) = false) ->
  (forall a, p (Dashboard.SetDubProgress a) = false) ->
  forall total line count, filter p (loop_trace env total line count subs) = [].
Proof.
  intros Hr Hw Hp. induction subs as [|sub rest IH]; intros total line count;
    cbn [loop_trace]; [reflexivity|].
  unfold line_trace. rewrite !filter_app, IH.
  destruct (present (GeminiService.tts_API_KEY (Dashboard.speech env)));
    destruct (line_result env line sub);
    cbn [filter app]; rewrite ?Hr, ?Hw, ?Hp; reflexivity.
Qed.


(** The whole run of the handler, as a function of the environment. *)
Lemma handleDownloadDubbedAudio_trace (env : Dashboard.DubEnv) (file : Dashboard.File)
    (subs : list Dashboard.Subtitle) (st : dstate) :
  exists st',
    Dashboard.handleDownloadDubbedAudio env file subs false st = (inr tt, st') /\
    log st'
    = (log st
       ++ [Dashboard.SetIsGeneratingDub true; Dashboard.SetDubProgress (of_Z 0)]
       ++ run_trace env file subs
       ++ [Dashboard.SetIsGeneratingDub false; Dashboard.SetDubProgress (of_Z 0)])%list.
Proof.
  unfold Dashboard.handleDownloadDubbedAudio.
  unfold bind at 1, emit at 1. unfold bind at 1, emit at 1.
  unfold try_finally, try_catch, Dashboard.dub_body.
  unfold bind at 1, emit at 1. unfold bind at 1, emit at 1.
  unfold bind at 1, lift at 1.
  unfold run_trace. fold (requested_frames subs).
  destruct (Dashboard.offline_context env (requested_frames subs)) as [e|frames];
    cbv beta iota.
  - unfold bind, emit. eexists. split; [reflexivity|].
    rewrite !push_log. unfold failure_trace.
    repeat rewrite <- app_assoc. reflexivity.
  - unfold bind at 1.
    match goal with
    | |- context [Dashboard.dub_loop env ?t subs 0 ?c 0 ?s] =>
        destruct (dub_loop_run env t subs 0 c 0 s) as (st1 & Hrun & Hlog & _)
    end.
    rewrite Hrun.
    unfold bind at 1, Dashboard.startRendering, bind at 1, emit at 1, await at 1.
    cbn [fst].
    destruct (Dashboard.rendering env) as [e|].
    + unfold bind, emit. eexists. split; [reflexivity|].
      rewrite !push_log, tick_log, push_log, Hlog, !push_log. unfold failure_trace.
      repeat rewrite <- app_assoc. reflexivity.
    + unfold bind, emit. eexists. split; [reflexivity|].
      rewrite !push_log, tick_log, push_log, Hlog, !push_log.
      unfold exported_wav, Dashboard.audioBufferToWav.
      cbn [add_sources Dashboard.numberOfChannels Dashboard.length
           Dashboard.sampleRate Dashboard.scheduled Dashboard.rb_numberOfChannels
           Dashboard.rb_length Dashboard.rb_sampleRate Dashboard.rb_mix app].
      repeat rewrite <- app_assoc. reflexivity.
Qed.

(** C10. [parseTime] splits at colons and converts each field with [Number]:
    three fields give [h*3600 + m*60 + s], two give [m*60 + s], every other
    field count gives 0 (so do a string without colon, the empty string and a
    string with three or more colons).  With such a timestamp a note click
    seeks to 0, in both revisions of the handler, and a subtitle whose start
    time it is and whose speech was synthesised has its source started at
    offset 0: the context the loop leaves holds that source, right after the
    ones it held before. *)
Theorem parseTime_by_field_count (timeStr : string) :
  (forall h m s, JSString.split ":" timeStr = [h; m; s] ->
     Dashboard.parseTime timeStr =
     nadd (nadd (nmul (Number h) (of_Z 3600)) (nmul (Number m) (of_Z 60))) (Number s)) /\
  (forall m s, JSString.split ":" timeStr = [m; s] ->
     Dashboard.parseTime timeStr = nadd (nmul (Number m) (of_Z 60)) (Number s)) /\
  (List.length (JSString.split ":" timeStr) <> 3 ->
   List.length (JSString.split ":" timeStr) <> 2 ->
     Dashboard.parseTime timeStr = of_Z 0 /\
     (forall st : state event,
        Dashboard.handleNoteClick true timeStr st
        = (inr tt, push (Dashboard.SeekTo (of_Z 0)) st)) /\
     (forall st : state event,
        Dashboard.handleNoteClick_inline true timeStr st
        = (inr tt, push (Dashboard.SeekTo (of_Z 0)) st)) /\
     (forall (env : Dashboard.DubEnv) total sub rest line (ctx : ctx_t) count
             (buffer : AudioBuffer) (st st' : state event),
        Dashboard.startTime sub = timeStr ->
        GeminiService.getTTSAudio Dashboard.TTSRequest (Dashboard.speech env) line
          (Dashboard.textVietnamese sub) "Kore" st = (inr buffer, st') ->
        exists ctx' st'' later,
          Dashboard.dub_loop env total (sub :: rest) line ctx count st
          = (inr (ctx', count + S (List.length rest)), st'') /\
          Dashboard.scheduled ctx'
          = (Dashboard.scheduled ctx ++ (buffer, of_Z 0) :: later)%list)) /\
  (JSString.count_char ":" timeStr = 0 -> Dashboard.parseTime timeStr = of_Z 0) /\
  (3 <= JSString.count_char ":" timeStr -> Dashboard.parseTime timeStr = of_Z 0) /\
  Dashboard.parseTime "" = of_Z 0.
Proof.
  split; [intros h m s; apply parseTime_three|].
  split; [intros m s; apply parseTime_two|].
  split; [|split; [|split]].
  - intros H3 H2. pose proof (parseTime_other timeStr H3 H2) as H0.
    split; [exact H0|]. split; [|split].
    + intros st. unfold Dashboard.handleNoteClick. now rewrite H0.
    + intros st. rewrite handleNoteClick_inline_agrees.
      unfold Dashboard.handleNoteClick. now rewrite H0.
    + intros env total sub rest line ctx count buffer st st' Hsub Htts.
      destruct (getTTSAudio_run (Dashboard.speech env) line
                  (Dashboard.textVietnamese sub) "Kore" st) as (st1 & Hrun & _).
      assert (Hres : tts_result (Dashboard.speech env) line = inr buffer) by congruence.
      destruct (dub_loop_run env total (sub :: rest) line ctx count st)
        as (st'' & Hloop & _).
      cbn [started_lines List.length] in Hloop.
      unfold line_result in Hloop.
      rewrite Hres, Hsub, H0, (Dashboard.zero_accepted env) in Hloop.
      cbn [sources_of app] in Hloop.
      eexists _, st'', _. split; [exact Hloop|]. reflexivity.
  - intros H0. apply parseTime_other; rewrite split_length, H0; discriminate.
  - intros H3. apply parseTime_other; rewrite split_length; lia.
  - reflexivity.
Qed.








(** X18. Whatever the environment answers, the loop never throws and ends
    with [processedCount] equal to the number of subtitles.  The context then
    holds, after what it held before and in list order, exactly the sources
    the loop started: a source is there only for a line whose speech was
    synthesised and whose parsed start time the platform accepted as an
    offset, and it sits at that offset.  Every line is accounted for: its
    source was started, or a warning carries its identifier and the error of
    the speech request or of [start]; and there are as many warnings as lines
    without a source. *)
Theorem dub_loop_schedules_successes (env : Dashboard.DubEnv) (total : nat)
    (subs : list Dashboard.Subtitle) (ctx : ctx_t) (st : dstate) :
  exists ctx' st',
    Dashboard.dub_loop env total subs 0 ctx 0 st = (inr (ctx', List.length subs), st') /\
    Dashboard.scheduled ctx'
    = (Dashboard.scheduled ctx ++ started_lines env 0 subs)%list /\
    Dashboard.numberOfChannels ctx' = Dashboard.numberOfChannels ctx /\
    Dashboard.length ctx' = Dashboard.length ctx /\
    Dashboard.sampleRate ctx' = Dashboard.sampleRate ctx /\
    calls is_warning st' + List.length (started_lines env 0 subs)
    = calls is_warning st + List.length subs /\
    (forall buffer when,
       In (buffer, when) (started_lines env 0 subs) ->
       exists i sub,
         nth_error subs i = Some sub /\
         tts_result (Dashboard.speech env) i = inr buffer /\
         when = Dashboard.parseTime (Dashboard.startTime sub) /\
         Dashboard.source_start env when = None) /\
    (forall i sub,
       nth_error subs i = Some sub ->
       match tts_result (Dashboard.speech env) i with
       | inl e => In (Dashboard.ConsoleWarn (Dashboard.id sub) e) (log st')
       | inr buffer =>
           match Dashboard.source_start env
                   (Dashboard.parseTime (Dashboard.startTime sub)) with
           | Some e => In (Dashboard.ConsoleWarn (Dashboard.id sub) e) (log st')
           | None =>
               In (buffer, Dashboard.parseTime (Dashboard.startTime sub))
                  (Dashboard.scheduled ctx')
           end
       end).
Proof.
  destruct (dub_loop_run env total subs 0 ctx 0 st) as (st' & Hrun & Hlog & _).
  eexists _, st'. split; [exact Hrun|]. cbn.
  split; [reflexivity|]. split; [reflexivity|]. split; [reflexivity|].
  split; [reflexivity|]. split; [|split].
  - unfold calls. rewrite Hlog, filter_app, length_app.
    pose proof (started_lines_length env subs 0 total 0). lia.
  - intros buffer when H.
    destruct (started_lines_origin env subs 0 buffer when H) as (i & sub & Hi).
    exists i, sub. exact Hi.
  - intros i sub Hi.
    pose proof (loop_accounts_for env subs total 0 0 i sub Hi) as H.
    cbn [Nat.add] in H. unfold line_result in H.
    destruct (tts_result (Dashboard.speech env) i) as [e|buffer].
    + rewrite Hlog. apply in_or_app. now right.
    + destruct (Dashboard.source_start env _) as [e|].
      * rewrite Hlog. apply in_or_app. now right.
      * apply in_or_app. now right.
Qed.

(** X19. With the credential present the loop sends exactly one speech
    request per subtitle, in list order, each for the translated text with
    the voice [Kore], and waits for each before the next one; failures of
    earlier lines do not change what is requested for later ones. *)
Theorem dub_loop_requests_in_order (env : Dashboard.DubEnv) (total : nat)
    (subs : list Dashboard.Subtitle) (ctx : ctx_t) (st : dstate) :
  present (GeminiService.tts_API_KEY (Dashboard.speech env)) = true ->
  filter is_tts_request
    (log (snd (Dashboard.dub_loop env total subs 0 ctx 0 st)))
  = (filter is_tts_request (log st)
     ++ map (fun sub => Dashboard.TTSRequest "gemini-2.5-flash-preview-tts"
                          (Dashboard.textVietnamese sub) "Kore") subs)%list /\
  clock (snd (Dashboard.dub_loop env total subs 0 ctx 0 st))
  = clock st + List.length subs.
Proof.
  intros Hkey.
  destruct (dub_loop_run env total subs 0 ctx 0 st) as (st' & Hrun & Hlog & Hclock).
  rewrite Hrun. cbn [snd]. split.
  - rewrite Hlog, filter_app, loop_trace_requests, Hkey. reflexivity.
  - rewrite Hclock, Hkey. reflexivity.
Qed.

(** X20. The export handler never throws.  Started while an export is in
    progress it does nothing at all; otherwise it raises the in-progress flag
    and resets the progress first, and the last two things it does, whatever
    failed in between, are to lower the flag and reset the progress. *)
Theorem handleDownloadDubbedAudio_releases (env : Dashboard.DubEnv)
    (file : Dashboard.File) (subs : list Dashboard.Subtitle) (st : dstate) :
  Dashboard.handleDownloadDubbedAudio env file subs true st = (inr tt, st) /\
  exists st' middle,
    Dashboard.handleDownloadDubbedAudio env file subs false st = (inr tt, st') /\
    log st'
    = (log st
       ++ [Dashboard.SetIsGeneratingDub true; Dashboard.SetDubProgress (of_Z 0)]
       ++ middle
       ++ [Dashboard.SetIsGeneratingDub false; Dashboard.SetDubProgress (of_Z 0)])%list.
Proof.
  split; [reflexivity|].
  destruct (handleDownloadDubbedAudio_trace env file subs st) as (st' & Hrun & Hlog).
  exists st', (run_trace env file subs). split; [exact Hrun|exact Hlog].
Qed.

(** X21. Each run of the export ends in exactly one of two ways, a download
    or an alert, never both and never neither.  When the offline context is
    created and rendering succeeds, one file is downloaded, under the name
    [<base>_dubbed_audio.wav], and no alert is shown.  When the constructor
    of the context throws, its error is logged and the alert is shown with no
    speech request, no rendering and no download; when rendering is rejected,
    its error is logged and the alert is shown with no download.  Failures of
    individual lines never raise the alert. *)
Theorem handleDownloadDubbedAudio_download_or_alert (env : Dashboard.DubEnv)
    (file : Dashboard.File) (subs : list Dashboard.Subtitle) (st : dstate) :
  exists st',
    Dashboard.handleDownloadDubbedAudio env file subs false st = (inr tt, st') /\
    calls is_download st' + calls is_alert st'
    = calls is_download st + calls is_alert st + 1 /\
    match Dashboard.offline_context env (requested_frames subs),
          Dashboard.rendering env with
    | inr _, None =>
        calls is_alert st' = calls is_alert st /\
        exists wav,
          In (Dashboard.DownloadWav (Dashboard.base_name file ++ "_dubbed_audio.wav") wav)
             (log st')
    | inr _, Some e =>
        calls is_download st' = calls is_download st /\
        In (Dashboard.ConsoleError "Dubbing generation failed" e) (log st')
    | inl e, _ =>
        calls is_download st' = calls is_download st /\
        In (Dashboard.ConsoleError "Dubbing generation failed" e) (log st') /\
        calls is_tts_request st' = calls is_tts_request st /\
        calls is_rendering st' = calls is_rendering st
    end.
Proof.
  destruct (handleDownloadDubbedAudio_trace env file subs st) as (st' & Hrun & Hlog).
  exists st'. split; [exact Hrun|].
  unfold calls. rewrite Hlog. unfold run_trace, failure_trace.
  destruct (Dashboard.offline_context env (requested_frames subs)) as [e|frames].
  - rewrite !filter_app, !length_app.
    split; [cbn; lia|]. split; [cbn; lia|]. split; [in_trace|].
    split; cbn; lia.
  - rewrite !filter_app, !length_app.
    rewrite !loop_trace_quiet by reflexivity.
    destruct (Dashboard.rendering env) as [e|].
    + split; [cbn; lia|]. split; [cbn; lia|]. in_trace.
    + split; [cbn; lia|]. split; [cbn; lia|]. eexists. in_trace.
Qed.

Lemma started_without_key (env : @Dashboard.DubEnv N AudioBuffer)
    (subs : list (@Dashboard.Subtitle N)) :
  present (GeminiService.tts_API_KEY (Dashboard.speech env)) = false ->
  forall line, started_lines env line subs = [].
Proof.
  intros Hkey. induction subs as [|sub rest IH]; intros line; cbn [started_lines];
    [reflexivity|].
  rewrite IH. unfold line_result, tts_result. now rewrite Hkey.
Qed.

(** X22. With the credential absent or empty the loop sends no speech
    request, warns once per subtitle and leaves the context as it was, with
    nothing started on it.  The export does not fail for that: it sends no
    request either, and once its context is created it warns once per
    subtitle and, when rendering succeeds, still downloads a file and shows
    no alert. *)
Theorem handleDownloadDubbedAudio_without_key (env : Dashboard.DubEnv)
    (file : Dashboard.File) (subs : list Dashboard.Subtitle) (st : dstate) :
  present (GeminiService.tts_API_KEY (Dashboard.speech env)) = false ->
  (forall total (ctx : ctx_t),
     exists st1,
       Dashboard.dub_loop env total subs 0 ctx 0 st = (inr (ctx, List.length subs), st1) /\
       calls is_tts_request st1 = calls is_tts_request st /\
       calls is_warning st1 = calls is_warning st + List.length subs) /\
  exists st',
    Dashboard.handleDownloadDubbedAudio env file subs false st = (inr tt, st') /\
    calls is_tts_request st' = calls is_tts_request st /\
    (forall frames,
       Dashboard.offline_context env (requested_frames subs) = inr frames ->
       calls is_warning st' = calls is_warning st + List.length subs /\
       (Dashboard.rendering env = None ->
        calls is_alert st' = calls is_alert st /\
        calls is_download st' = calls is_download st + 1)).
Proof.
  intros Hkey.
  assert (Hwarn : forall total,
            List.length (filter is_warning (loop_trace env total 0 0 subs))
            = List.length subs).
  { intros total. pose proof (started_lines_length env subs 0 total 0) as Hc.
    rewrite (started_without_key env subs Hkey) in Hc. cbn [List.length] in Hc. lia. }
  split.
  - intros total ctx.
    destruct (dub_loop_run env total subs 0 ctx 0 st) as (st1 & Hrun & Hlog & _).
    rewrite (started_without_key env subs Hkey), add_no_sources in Hrun.
    exists st1. split; [exact Hrun|].
    unfold calls. rewrite Hlog, !filter_app, !length_app.
    rewrite loop_trace_requests, Hkey, Hwarn. cbn [List.length]. lia.
  - destruct (handleDownloadDubbedAudio_trace env file subs st) as (st' & Hrun & Hlog).
    exists st'. split; [exact Hrun|].
    unfold calls. rewrite Hlog. unfold run_trace.
    destruct (Dashboard.offline_context env (requested_frames subs)) as [e|frames'].
    + split; [|discriminate].
      rewrite !filter_app, !length_app. cbn. lia.
    + rewrite !filter_app, !length_app.
      rewrite loop_trace_requests, Hkey.
      rewrite (loop_trace_quiet is_alert) by reflexivity.
      rewrite (loop_trace_quiet is_download) by reflexivity.
      rewrite Hwarn.
      destruct (Dashboard.rendering env) as [e|]; cbn.
      * split; [lia|]. intros frames _. split; [lia|discriminate].
      * split; [lia|]. intros frames _. split; [lia|]. intros _. split; lia.
Qed.

(** X23. For an empty subtitle list the export creates a context of 60
    seconds (24000 * 60 frames at 24000 Hz), sends no speech request and
    reports no per-line progress: between the opening and the closing state
    updates it only creates the two contexts, starts the rendering and, as
    rendering succeeds or not, downloads the file or logs and alerts. *)
Theorem handleDownloadDubbedAudio_empty (env : Dashboard.DubEnv)
    (file : Dashboard.File) (st : dstate) :
  exists st' wav,
    Dashboard.handleDownloadDubbedAudio env file [] false st = (inr tt, st') /\
    log st'
    = (log st
       ++ [Dashboard.SetIsGeneratingDub true; Dashboard.SetDubProgress (of_Z 0);
           Dashboard.NewAudioContext;
           Dashboard.NewOfflineAudioContext (of_Z 1) (nmul (of_Z 24000) (of_Z 60))
             (of_Z 24000);
           Dashboard.StartRendering]
       ++ match Dashboard.rendering env with
          | None =>
              [Dashboard.DownloadWav (Dashboard.base_name file ++ "_dubbed_audio.wav") wav]
          | Some e =>
              [Dashboard.ConsoleError "Dubbing generation failed" e;
               Dashboard.Alert
                 "Could not generate dubbed audio. Check API quota or video length."]
          end
       ++ [Dashboard.SetIsGeneratingDub false; Dashboard.SetDubProgress (of_Z 0)])%list.
Proof.
  destruct (handleDownloadDubbedAudio_trace env file [] st) as (st' & Hrun & Hlog).
  exists st', (exported_wav env (nmul (of_Z 24000) (of_Z 60)) []).
  split; [exact Hrun|]. rewrite Hlog.
  unfold run_trace, requested_frames. cbn [Dashboard.totalDuration map List.last].
  rewrite (Dashboard.minute_accepted env). cbn [loop_trace app List.length].
  destruct (Dashboard.rendering env); reflexivity.
Qed.

Lemma append_cancel_l (a b c : string) : a ++ b = a ++ c -> b = c.
Proof.
  induction a as [|x a IH]; cbn [append]; [auto|].
  intros H. injection H as H. auto.
Qed.

Lemma loop_trace_no_download (env : @Dashboard.DubEnv N AudioBuffer)
    (subs : list Dashboard.Subtitle) total line count name wav :
  ~ In (Dashboard.DownloadWav name wav) (loop_trace env total line count subs).
Proof.
  intros H.
  assert (Hf : In (Dashboard.DownloadWav name wav)
                 (filter is_download (loop_trace env total line count subs))).
  { apply filter_In. split; [exact H|reflexivity]. }
  rewrite loop_trace_quiet in Hf by reflexivity. destruct Hf.
Qed.

(** X24. The merge command names its files consistently with the exports.
    Its first input is the media file's own name; its second input is
    [<base>_dubbed_audio.wav], and whenever the export of the dubbed audio
    downloads a file, whatever the environment and the subtitles, it is under
    exactly that name; its output, [<base>_final.mp4], differs from both
    inputs, so the command never writes over a file it reads. *)
Theorem generateFFmpegCommand_names (file : Dashboard.File) :
  generateFFmpegCommand file
  = "ffmpeg -i " ++ dquote ++ Dashboard.file_name file ++ dquote
    ++ " -i " ++ dquote ++ (Dashboard.base_name file ++ "_dubbed_audio.wav") ++ dquote
    ++ " -c:v copy -c:a aac -map 0:v:0 -map 1:a:0 -shortest "
    ++ dquote ++ (Dashboard.base_name file ++ "_final.mp4") ++ dquote /\
  (forall (env : Dashboard.DubEnv) (subs : list Dashboard.Subtitle) (st : dstate)
          name wav,
     In (Dashboard.DownloadWav name wav)
        (log (snd (Dashboard.handleDownloadDubbedAudio env file subs false st))) ->
     In (Dashboard.DownloadWav name wav) (log st) \/
     name = Dashboard.base_name file ++ "_dubbed_audio.wav") /\
  Dashboard.base_name file ++ "_final.mp4"
  <> Dashboard.base_name file ++ "_dubbed_audio.wav" /\
  Dashboard.base_name file ++ "_final.mp4" <> Dashboard.file_name file.
Proof.
  split; [reflexivity|]. split; [|split].
  - intros env subs st name wav.
    destruct (handleDownloadDubbedAudio_trace env file subs st) as (st' & Hrun & Hlog).
    rewrite Hrun. cbn [snd]. rewrite Hlog. unfold run_trace, failure_trace.
    rewrite !in_app_iff. intros [H|[H|[H|H]]].
    + now left.
    + cbn [In] in H. destruct H as [H|[H|[]]]; discriminate H.
    + right. destruct H as [H|H].
      * cbn [In] in H. destruct H as [H|[H|[]]]; discriminate H.
      * destruct (Dashboard.offline_context env (requested_frames subs)) as [e|frames].
        -- cbn [In] in H. destruct H as [H|[H|[]]]; discriminate H.
        -- apply in_app_or in H as [H|H];
             [now apply loop_trace_no_download in H|].
           destruct H as [H|H]; [discriminate H|].
           destruct (Dashboard.rendering env) as [e|]; cbn [In] in H.
           ++ destruct H as [H|[H|[]]]; discriminate H.
           ++ destruct H as [H|[]]. now injection H as <- _.
    + cbn [In] in H. destruct H as [H|[H|[]]]; discriminate H.
  - intros H. apply append_cancel_l in H. discriminate.
  - intros H.
    destruct (split_first_field "." (Dashboard.file_name file))
      as (_ & [Hname | (rest & Hname)]);
      fold (Dashboard.base_name file) in Hname.
    + assert (Hempty : Dashboard.base_name file ++ "_final.mp4"
                       = Dashboard.base_name file ++ "")
        by (rewrite append_empty_r; congruence).
      apply append_cancel_l in Hempty. discriminate.
    + assert (Hrest : Dashboard.base_name file ++ "_final.mp4"
                      = Dashboard.base_name file ++ String "." rest) by congruence.
      apply append_cancel_l in Hrest. discriminate.
Qed.

End Dubbing.

(** ** The service, further: whole runs of the orchestrator *)

Section OrchestratorRuns.
Context {N : JSNumber}.

Local Abbreviation gstate := (state (@GeminiService.event N)).

Lemma fileToGenerativePart_run (env : GeminiService.Env) (file : GeminiService.File)
    (signal : option AbortSignal) (result : option string) (st : gstate) :
  never_fires signal ->
  GeminiService.reader env = GeminiService.ReadEnd result ->
  GeminiService.fileToGenerativePart env file signal st
  = (GeminiService.on_loadend result,
     tick (push (GeminiService.ReadAsDataURL (GeminiService.file_name file)) st)).
Proof.
  intros Hquiet Hread.
  unfold GeminiService.fileToGenerativePart, bind, emit, await.
  rewrite Hread.
  destruct signal as [sg|]; [|reflexivity].
  destruct (never_fires_quiet (Some sg)
              (clock (push (GeminiService.ReadAsDataURL (GeminiService.file_name file)) st))
              Hquiet) as (_ & _ & ->).
  reflexivity.
Qed.

(** The inline branch up to the media part. *)
Lemma inline_part_run (env : GeminiService.Env) (file : GeminiService.File)
    (onStatusUpdate : bool) (signal : option AbortSignal) (result : option string)
    (st : gstate) :
  never_fires signal ->
  GeminiService.reader env = GeminiService.ReadEnd result ->
  present result = true ->
  exists st1,
    (when onStatusUpdate
       (emit (GeminiService.StatusUpdate "Optimizing small file..." (of_Z 30))) ;;
     base64Data <- GeminiService.fileToGenerativePart env file signal ;;
     ret (GeminiService.InlineData (GeminiService.file_type file) base64Data))%js st
    = (inr (GeminiService.InlineData (GeminiService.file_type file)
              (nth_error (JSString.split "," (show_opt result)) 1)), st1) /\
    log st1
    = (log st ++ status_if onStatusUpdate "Optimizing small file..." (of_Z 30)
       ++ [GeminiService.ReadAsDataURL (GeminiService.file_name file)])%list /\
    clock st1 = S (clock st) /\ draws st1 = draws st.
Proof.
  intros Hquiet Hread Hres.
  unfold bind at 1.
  destruct onStatusUpdate; cbn [when status_if].
  - unfold emit at 1. unfold bind at 1.
    rewrite (fileToGenerativePart_run env file signal result _ Hquiet Hread).
    unfold GeminiService.on_loadend. rewrite Hres. unfold ret.
    eexists. split; [reflexivity|]. cbn. rewrite <- app_assoc. auto.
  - unfold ret at 1. unfold bind at 1.
    rewrite (fileToGenerativePart_run env file signal result _ Hquiet Hread).
    unfold GeminiService.on_loadend. rewrite Hres. unfold ret.
    eexists. split; [reflexivity|]. cbn. auto.
Qed.

(** The statements of [processMediaWithGemini] from the analysis status
    update on, for a given media part. *)
Local Abbreviation analysis env options onStatusUpdate signal mediaPart :=
  (when onStatusUpdate
     (emit (GeminiService.StatusUpdate
              "AI is analyzing FULL content (Deep Processing)..." (of_Z 80))) ;;
   emit (GeminiService.GenerateContent "gemini-3-flash-preview" mediaPart
           (GeminiService.promptText options)) ;;
   response <- await (runWithCancellation (GeminiService.generateContent env) signal) ;;
   if negb (present (GeminiService.text response))
   then throw (JsError "No response from AI") else
   rawData <- lift (GeminiService.JSON_parse env (show_opt (GeminiService.text response))) ;;
   GeminiService.expand env rawData)%js.

Lemma analysis_request (env : GeminiService.Env)
    (options : GeminiService.ProcessingOptions) (onStatusUpdate : bool)
    (signal : option AbortSignal) (mediaPart : GeminiService.Part) (st : gstate) :
  never_fires signal ->
  exists st1 : gstate,
    log st1
    = (log st
       ++ status_if onStatusUpdate
            "AI is analyzing FULL content (Deep Processing)..." (of_Z 80)
       ++ [GeminiService.GenerateContent "gemini-3-flash-preview" mediaPart
             (GeminiService.promptText options)])%list /\
    clock st1 = S (clock st) /\ draws st1 = draws st /\
    analysis env options onStatusUpdate signal mediaPart st
    = match GeminiService.generateContent env with
      | inl e => (inl e, st1)
      | inr response =>
          if negb (present (GeminiService.text response))
          then (inl (JsError "No response from AI"), st1)
          else match GeminiService.JSON_parse env
                       (show_opt (GeminiService.text response)) with
               | inl e => (inl e, st1)
               | inr rawData => GeminiService.expand env rawData st1
               end
      end.
Proof.
  intros Hquiet.
  unfold bind at 1.
  destruct onStatusUpdate; cbn [when status_if].
  - unfold emit at 1. unfold bind at 1, emit at 1. unfold bind at 1, await at 1.
    match goal with
    | |- context [runWithCancellation _ signal (clock ?s)] =>
        destruct (never_fires_quiet signal (clock s) Hquiet) as (_ & -> & _)
    end.
    eexists. split; [|split; [|split]]; cycle 3.
    + destruct (GeminiService.generateContent env) as [e|response]; [reflexivity|].
      destruct (negb (present (GeminiService.text response))); [reflexivity|].
      unfold bind, lift.
      destruct (GeminiService.JSON_parse env _) as [e|rawData]; reflexivity.
    + cbn. rewrite <- app_assoc. reflexivity.
    + reflexivity.
    + reflexivity.
  - unfold ret at 1. unfold bind at 1, emit at 1. unfold bind at 1, await at 1.
    match goal with
    | |- context [runWithCancellation _ signal (clock ?s)] =>
        destruct (never_fires_quiet signal (clock s) Hquiet) as (_ & -> & _)
    end.
    eexists. split; [|split; [|split]]; cycle 3.
    + destruct (GeminiService.generateContent env) as [e|response]; [reflexivity|].
      destruct (negb (present (GeminiService.text response))); [reflexivity|].
      unfold bind, lift.
      destruct (GeminiService.JSON_parse env _) as [e|rawData]; reflexivity.
    + cbn. reflexivity.
    + reflexivity.
    + reflexivity.
Qed.

(** X25. A whole run on the inline path.  When nothing interrupts, the
    credential is present, the file is below the inline limit, the reader
    ends with a non-empty result, the generation request answers with a text
    that parses to an accepted response, the call returns the expansion of
    that response after exactly one file read and one generation request, in
    this order, the request carrying the file's type and the part of the
    reader's result between its first and second comma; with a callback, the
    two status updates (30 and 80) come before the read and before the
    request. *)
Theorem processMedia_inline_success (env : GeminiService.Env)
    (file : GeminiService.File) (options : GeminiService.ProcessingOptions)
    (onStatusUpdate : bool) (signal : option AbortSignal) (st : gstate)
    (result : option string) (response : GeminiService.GenerateResponse)
    (rawData : value) :
  never_fires signal ->
  present (GeminiService.API_KEY env) = true ->
  (GeminiService.file_size file < 20 * 1024 * 1024)%Z ->
  GeminiService.reader env = GeminiService.ReadEnd result ->
  present result = true ->
  GeminiService.generateContent env = inr response ->
  present (GeminiService.text response) = true ->
  GeminiService.JSON_parse env (show_opt (GeminiService.text response)) = inr rawData ->
  expandable rawData = true ->
  exists st',
    GeminiService.processMediaWithGemini env file options onStatusUpdate signal st
    = (inr (expanded (GeminiService.Math_random env) (draws st) rawData), st') /\
    log st'
    = (log st
       ++ status_if onStatusUpdate "Optimizing small file..." (of_Z 30)
       ++ [GeminiService.ReadAsDataURL (GeminiService.file_name file)]
       ++ status_if onStatusUpdate
            "AI is analyzing FULL content (Deep Processing)..." (of_Z 80)
       ++ [GeminiService.GenerateContent "gemini-3-flash-preview"
             (GeminiService.InlineData (GeminiService.file_type file)
                (nth_error (JSString.split "," (show_opt result)) 1))
             (GeminiService.promptText options)])%list /\
    clock st' = clock st + 2.
Proof.
  intros Hquiet Hkey Hsize Hread Hres Hgen Htext Hparse Hexp.
  assert (Hsmall : (GeminiService.file_size file <? GeminiService.INLINE_SIZE_LIMIT)%Z = true).
  { apply Z.ltb_lt. unfold GeminiService.INLINE_SIZE_LIMIT. lia. }
  unfold GeminiService.processMediaWithGemini, try_catch, GeminiService.process_body.
  unfold bind at 1, now at 1.
  rewrite (never_fires_not_aborted signal (clock st) Hquiet), Hkey, Hsmall.
  cbn [negb]. unfold bind at 1.
  destruct (inline_part_run env file onStatusUpdate signal result st Hquiet Hread Hres)
    as (st1 & -> & Hlog1 & Hclock1 & Hdraws1).
  destruct (analysis_request env options onStatusUpdate signal
              (GeminiService.InlineData (GeminiService.file_type file)
                 (nth_error (JSString.split "," (show_opt result)) 1)) st1 Hquiet)
    as (st2 & Hlog2 & Hclock2 & Hdraws2 & ->).
  rewrite Hgen, Htext, Hparse. cbn [negb].
  rewrite (expand_run env rawData st2 Hexp).
  eexists. split; [unfold expanded; rewrite Hdraws2, Hdraws1; reflexivity|].
  cbn [log clock]. rewrite Hlog2, Hlog1, Hclock2, Hclock1.
  split; [|lia]. repeat rewrite <- app_assoc. reflexivity.
Qed.

Lemma poll_from_draws (env : GeminiService.Env) (fileName : string)
    (onStatusUpdate : bool) (signal : option AbortSignal) (remaining : nat) :
  forall i (st : gstate),
    draws (snd (GeminiService.poll_from env fileName onStatusUpdate signal remaining i st))
    = draws st.
Proof.
  induction remaining as [|remaining IH]; intros i st; cbn [GeminiService.poll_from];
    [reflexivity|].
  unfold bind at 1, now at 1.
  destruct (opt_aborted signal (clock st)); [reflexivity|].
  unfold bind at 1, emit at 1. unfold bind at 1, await at 1.
  destruct (runWithCancellation _ signal _) as [e|fileStatus]; [reflexivity|].
  cbv zeta. unfold bind at 1, emit at 1.
  destruct (opt_is _ "ACTIVE"); [reflexivity|].
  destruct (opt_is _ "FAILED"); [reflexivity|].
  unfold bind at 1.
  destruct onStatusUpdate; cbn [when].
  - unfold emit at 1. unfold bind at 1, GeminiService.poll_delay.
    unfold bind at 1, emit at 1, await at 1.
    destruct (abort_or signal _ _); [reflexivity|].
    rewrite IH. reflexivity.
  - unfold ret at 1. unfold bind at 1, GeminiService.poll_delay.
    unfold bind at 1, emit at 1, await at 1.
    destruct (abort_or signal _ _); [reflexivity|].
    rewrite IH. reflexivity.
Qed.

(** The wait that ends with ACTIVE at poll [k], with everything it leaves
    untouched. *)
Lemma waitForFileActive_active_run (env : GeminiService.Env) (fileName : string)
    (onStatusUpdate : bool) (signal : option AbortSignal) (k : nat) (st : gstate) :
  never_fires signal ->
  k < GeminiService.maxAttempts ->
  (forall j, j < k -> still_processing env j) ->
  reports_active env k ->
  exists st',
    GeminiService.waitForFileActive env fileName onStatusUpdate signal st = (inr tt, st') /\
    calls GeminiService.is_poll st' = calls GeminiService.is_poll st + S k /\
    calls GeminiService.is_timer st' = calls GeminiService.is_timer st + k /\
    calls is_read st' = calls is_read st /\
    calls is_upload st' = calls is_upload st /\
    calls is_generate st' = calls is_generate st /\
    draws st' = draws st.
Proof.
  intros Hquiet Hk Hpolls (fs & Hget & Hactive).
  assert (Hrun : exists st',
             GeminiService.waitForFileActive env fileName onStatusUpdate signal st
             = (inr tt, st') /\
             calls GeminiService.is_poll st' = calls GeminiService.is_poll st + S k /\
             calls GeminiService.is_timer st' = calls GeminiService.is_timer st + k).
  { destruct (waitForFileActive_prefix env fileName onStatusUpdate signal k st
                Hquiet Hk Hpolls) as (remaining & st1 & -> & Hp & Ht).
    pose proof (poll_answered env fileName onStatusUpdate signal remaining k st1
                  (inr fs) Hquiet Hget) as H. cbv zeta in H.
    destruct H as (H & _). rewrite (H Hactive).
    eexists. split; [reflexivity|].
    rewrite !calls_push, !calls_tick, !calls_push, Hp, Ht. simpl. lia. }
  destruct Hrun as (st' & Hrun & Hp & Ht).
  exists st'. split; [exact Hrun|]. split; [exact Hp|]. split; [exact Ht|].
  split; [|split; [|split]].
  - eapply silent_calls; [|exact Hrun].
    apply silent_waitForFileActive; intros; reflexivity.
  - eapply silent_calls; [|exact Hrun].
    apply silent_waitForFileActive; intros; reflexivity.
  - eapply silent_calls; [|exact Hrun].
    apply silent_waitForFileActive; intros; reflexivity.
  - pose proof (poll_from_draws env fileName onStatusUpdate signal
                  GeminiService.maxAttempts 0
                  (push (GeminiService.ConsoleLog
                           ("Waiting for file " ++ fileName ++ " to become active..."))
                        st)) as Hd.
    unfold GeminiService.waitForFileActive, bind, emit in Hrun.
    rewrite Hrun in Hd. exact Hd.
Qed.

(** The upload branch up to the media part. *)
Lemma upload_part_run (env : GeminiService.Env) (file : GeminiService.File)
    (onStatusUpdate : bool) (signal : option AbortSignal)
    (uploadResult : GeminiService.UploadResult) (k : nat) (st : gstate) :
  never_fires signal ->
  GeminiService.files_upload env = inr uploadResult ->
  present (GeminiService.uri uploadResult) = true ->
  present (GeminiService.name uploadResult) = true ->
  k < GeminiService.maxAttempts ->
  (forall j, j < k -> still_processing env j) ->
  reports_active env k ->
  exists st1,
    (when onStatusUpdate
       (emit (GeminiService.StatusUpdate "Uploading large file to Gemini..." (of_Z 10))) ;;
     emit (GeminiService.FilesUpload (GeminiService.file_name file)
             (GeminiService.file_type file)) ;;
     uploadResult <- await (runWithCancellation (GeminiService.files_upload env) signal) ;;
     if negb (present (GeminiService.uri uploadResult))
        || negb (present (GeminiService.name uploadResult))
     then throw (JsError "Upload failed.") else
     when onStatusUpdate
       (emit (GeminiService.StatusUpdate
                "File uploaded. Waiting for processing..." (of_Z 40))) ;;
     GeminiService.waitForFileActive env (show_opt (GeminiService.name uploadResult))
       onStatusUpdate signal ;;
     ret (GeminiService.FileData (show_opt (GeminiService.uri uploadResult))
            (GeminiService.file_type file)))%js st
    = (inr (GeminiService.FileData (show_opt (GeminiService.uri uploadResult))
              (GeminiService.file_type file)), st1) /\
    calls is_upload st1 = calls is_upload st + 1 /\
    calls GeminiService.is_poll st1 = calls GeminiService.is_poll st + S k /\
    calls GeminiService.is_timer st1 = calls GeminiService.is_timer st + k /\
    calls is_read st1 = calls is_read st /\
    calls is_generate st1 = calls is_generate st /\
    draws st1 = draws st.
Proof.
  intros Hquiet Hup Huri Hname Hk Hpolls Hact.
  unfold bind at 1.
  destruct onStatusUpdate; cbn [when].
  - unfold emit at 1. unfold bind at 1, emit at 1. unfold bind at 1, await at 1.
    match goal with
    | |- context [runWithCancellation _ signal (clock ?s)] =>
        destruct (never_fires_quiet signal (clock s) Hquiet) as (_ & -> & _)
    end.
    rewrite Hup, Huri, Hname. cbn [negb orb].
    unfold bind at 1, emit at 1. unfold bind at 1.
    match goal with
    | |- context [GeminiService.waitForFileActive env ?f true signal ?s] =>
        destruct (waitForFileActive_active_run env f true signal k s
                    Hquiet Hk Hpolls Hact)
          as (st1 & -> & Hp & Ht & Hr & Hu & Hg & Hd)
    end.
    unfold ret. eexists. split; [reflexivity|].
    rewrite Hp, Ht, Hr, Hu, Hg, Hd.
    rewrite !calls_push, !calls_tick, !calls_push. cbn. repeat split; lia.
  - unfold ret at 1. unfold bind at 1, emit at 1. unfold bind at 1, await at 1.
    match goal with
    | |- context [runWithCancellation _ signal (clock ?s)] =>
        destruct (never_fires_quiet signal (clock s) Hquiet) as (_ & -> & _)
    end.
    rewrite Hup, Huri, Hname. cbn [negb orb].
    unfold bind at 1, ret at 1. unfold bind at 1.
    match goal with
    | |- context [GeminiService.waitForFileActive env ?f false signal ?s] =>
        destruct (waitForFileActive_active_run env f false signal k s
                    Hquiet Hk Hpolls Hact)
          as (st1 & -> & Hp & Ht & Hr & Hu & Hg & Hd)
    end.
    unfold ret. eexists. split; [reflexivity|].
    rewrite Hp, Ht, Hr, Hu, Hg, Hd.
    rewrite !calls_tick, !calls_push. cbn. repeat split; lia.
Qed.

Lemma calls_log {event : Type} (p : event -> bool) (st st' : state event)
    (added : list event) :
  log st' = (log st ++ added)%list ->
  calls p st' = calls p st + List.length (filter p added).
Proof. intros H. unfold calls. now rewrite H, filter_app, length_app. Qed.

(** X26. A whole run on the upload path.  When nothing interrupts, the
    credential is present, the file is at or above the inline limit, the
    upload answers with a URI and a name, the first [k] polls report a state
    other than ACTIVE and FAILED and poll [k < 120] reports ACTIVE, and the
    generation request answers with a text that parses to an accepted
    response, the call returns the expansion of that response after one
    upload, [k + 1] polls, [k] timers and one generation request that refers
    to the uploaded file by its URI; the file is never read locally. *)
Theorem processMedia_upload_success (env : GeminiService.Env)
    (file : GeminiService.File) (options : GeminiService.ProcessingOptions)
    (onStatusUpdate : bool) (signal : option AbortSignal) (st : gstate)
    (uploadResult : GeminiService.UploadResult) (k : nat)
    (response : GeminiService.GenerateResponse) (rawData : value) :
  never_fires signal ->
  present (GeminiService.API_KEY env) = true ->
  (20 * 1024 * 1024 <= GeminiService.file_size file)%Z ->
  GeminiService.files_upload env = inr uploadResult ->
  present (GeminiService.uri uploadResult) = true ->
  present (GeminiService.name uploadResult) = true ->
  k < GeminiService.maxAttempts ->
  (forall j, j < k -> still_processing env j) ->
  reports_active env k ->
  GeminiService.generateContent env = inr response ->
  present (GeminiService.text response) = true ->
  GeminiService.JSON_parse env (show_opt (GeminiService.text response)) = inr rawData ->
  expandable rawData = true ->
  exists st',
    GeminiService.processMediaWithGemini env file options onStatusUpdate signal st
    = (inr (expanded (GeminiService.Math_random env) (draws st) rawData), st') /\
    calls is_upload st' = calls is_upload st + 1 /\
    calls GeminiService.is_poll st' = calls GeminiService.is_poll st + S k /\
    calls GeminiService.is_timer st' = calls GeminiService.is_timer st + k /\
    calls is_read st' = calls is_read st /\
    calls is_generate st' = calls is_generate st + 1 /\
    In (GeminiService.GenerateContent "gemini-3-flash-preview"
          (GeminiService.FileData (show_opt (GeminiService.uri uploadResult))
             (GeminiService.file_type file))
          (GeminiService.promptText options)) (log st').
Proof.
  intros Hquiet Hkey Hsize Hup Huri Hname Hk Hpolls Hact Hgen Htext Hparse Hexp.
  assert (Hbig : (GeminiService.file_size file <? GeminiService.INLINE_SIZE_LIMIT)%Z = false).
  { apply Z.ltb_ge. unfold GeminiService.INLINE_SIZE_LIMIT. lia. }
  unfold GeminiService.processMediaWithGemini, try_catch, GeminiService.process_body.
  unfold bind at 1, now at 1.
  rewrite (never_fires_not_aborted signal (clock st) Hquiet), Hkey, Hbig.
  cbn [negb]. unfold bind at 1.
  destruct (upload_part_run env file onStatusUpdate signal uploadResult k st
              Hquiet Hup Huri Hname Hk Hpolls Hact)
    as (st1 & -> & Hu & Hp & Ht & Hr & Hg & Hd).
  destruct (analysis_request env options onStatusUpdate signal
              (GeminiService.FileData (show_opt (GeminiService.uri uploadResult))
                 (GeminiService.file_type file)) st1 Hquiet)
    as (st2 & Hlog2 & Hclock2 & Hdraws2 & ->).
  rewrite Hgen, Htext, Hparse. cbn [negb].
  rewrite (expand_run env rawData st2 Hexp).
  eexists. split; [unfold expanded; rewrite Hdraws2, Hd; reflexivity|].
  match goal with |- calls _ ?s = _ /\ _ => set (st3 := s) end.
  assert (Hlog3 : log st3
                  = (log st1
                     ++ status_if onStatusUpdate
                          "AI is analyzing FULL content (Deep Processing)..." (of_Z 80)
                     ++ [GeminiService.GenerateContent "gemini-3-flash-preview"
                           (GeminiService.FileData
                              (show_opt (GeminiService.uri uploadResult))
                              (GeminiService.file_type file))
                           (GeminiService.promptText options)])%list)
    by exact Hlog2.
  rewrite !(calls_log _ st1 st3 _ Hlog3), Hu, Hp, Ht, Hr, Hg.
  rewrite Hlog3.
  destruct onStatusUpdate; cbn [status_if app filter List.length is_upload is_read
    is_generate GeminiService.is_poll GeminiService.is_timer];
    (repeat split; try lia); in_trace.
Qed.

Lemma process_catch_run (error : js_error) (st : gstate) :
  message error <> cancelled_msg ->
  GeminiService.process_catch error st
  = (inl (translated error),
     push (GeminiService.ConsoleError "Gemini processing error:" error) st).
Proof.
  intros Hc. unfold GeminiService.process_catch, translated.
  destruct (String.eqb_spec (message error) cancelled_msg) as [E|_]; [contradiction|].
  unfold bind, emit, throw. cbv zeta.
  destruct (JSString.includes "429" (message error)); [reflexivity|].
  destruct (JSString.includes "503" (message error)); [reflexivity|].
  destruct (JSString.includes "SAFETY" (message error)); [reflexivity|].
  destruct (JSString.includes "400" (message error) &&
            JSString.includes "context" (message error)); [reflexivity|].
  destruct (JSString.includes "403" (message error)); reflexivity.
Qed.

Lemma includes_not_cancelled (needle : string) (error : js_error) :
  JSString.includes needle cancelled_msg = false ->
  JSString.includes needle (message error) = true ->
  message error <> cancelled_msg.
Proof. intros Hn Hi Hc. rewrite Hc in Hi. congruence. Qed.

(** X28. The translation goes by substring, so it also applies to errors
    that do not come from the remote service: on the inline path, when the
    answered text fails to parse and the parser's message happens to contain
    [429] (a position, say), the call reports [API Quota Exceeded. Please try
    again later.] although its one generation request was answered. *)
Theorem processMedia_parse_error_as_quota (env : GeminiService.Env)
    (file : GeminiService.File) (options : GeminiService.ProcessingOptions)
    (onStatusUpdate : bool) (signal : option AbortSignal) (st : gstate)
    (result : option string) (response : GeminiService.GenerateResponse)
    (e : js_error) :
  never_fires signal ->
  present (GeminiService.API_KEY env) = true ->
  (GeminiService.file_size file < 20 * 1024 * 1024)%Z ->
  GeminiService.reader env = GeminiService.ReadEnd result ->
  present result = true ->
  GeminiService.generateContent env = inr response ->
  present (GeminiService.text response) = true ->
  GeminiService.JSON_parse env (show_opt (GeminiService.text response)) = inl e ->
  JSString.includes "429" (message e) = true ->
  exists st',
    GeminiService.processMediaWithGemini env file options onStatusUpdate signal st
    = (inl GeminiService.quota_exceeded, st') /\
    calls is_generate st' = calls is_generate st + 1 /\
    In (GeminiService.ConsoleError "Gemini processing error:" e) (log st').
Proof.
  intros Hquiet Hkey Hsize Hread Hres Hgen Htext Hparse H429.
  assert (Hsmall : (GeminiService.file_size file <? GeminiService.INLINE_SIZE_LIMIT)%Z = true).
  { apply Z.ltb_lt. unfold GeminiService.INLINE_SIZE_LIMIT. lia. }
  assert (Hc : message e <> cancelled_msg).
  { apply (includes_not_cancelled "429"); [reflexivity|exact H429]. }
  unfold GeminiService.processMediaWithGemini, try_catch, GeminiService.process_body.
  unfold bind at 1, now at 1.
  rewrite (never_fires_not_aborted signal (clock st) Hquiet), Hkey, Hsmall.
  cbn [negb]. unfold bind at 1.
  destruct (inline_part_run env file onStatusUpdate signal result st Hquiet Hread Hres)
    as (st1 & -> & Hlog1 & _ & _).
  destruct (analysis_request env options onStatusUpdate signal
              (GeminiService.InlineData (GeminiService.file_type file)
                 (nth_error (JSString.split "," (show_opt result)) 1)) st1 Hquiet)
    as (st2 & Hlog2 & _ & _ & ->).
  rewrite Hgen, Htext, Hparse. cbn [negb].
  rewrite (process_catch_run e st2 Hc).
  unfold translated. rewrite H429.
  eexists. split; [reflexivity|]. split.
  - rewrite calls_push. cbn [is_generate].
    rewrite (calls_log _ st1 st2 _ Hlog2), (calls_log _ st st1 _ Hlog1).
    destruct onStatusUpdate; cbn; lia.
  - unfold push. cbn [log]. in_trace.
Qed.

Lemma split_at_separator (sep : ascii) (a b : string) :
  JSString.count_char sep a = 0 ->
  JSString.split sep (a ++ String sep b) = a :: JSString.split sep b.
Proof.
  induction a as [|c a IH]; cbn [append JSString.split JSString.count_char].
  - intros _. now rewrite Ascii.eqb_refl.
  - destruct (Ascii.eqb c sep); [discriminate|].
    intros H. now rewrite (IH H).
Qed.

(** X29. What the reader's data URL becomes.  When nothing interrupts and
    the reader ends with [<header>,<payload>], neither part holding a comma,
    [fileToGenerativePart] resolves with the payload alone.  A non-empty
    result without any comma is not an error either: the promise resolves
    with [undefined]. *)
Theorem fileToGenerativePart_payload (env : GeminiService.Env)
    (file : GeminiService.File) (signal : option AbortSignal) (st : gstate)
    (result : string) :
  never_fires signal ->
  GeminiService.reader env = GeminiService.ReadEnd (Some result) ->
  exists r st',
    GeminiService.fileToGenerativePart env file signal st = (r, st') /\
    log st' = (log st ++ [GeminiService.ReadAsDataURL (GeminiService.file_name file)])%list /\
    (forall header payload,
       result = header ++ "," ++ payload ->
       JSString.count_char "," header = 0 ->
       JSString.count_char "," payload = 0 ->
       r = inr (Some payload)) /\
    (JSString.count_char "," result = 0 -> result <> "" -> r = inr None).
Proof.
  intros Hquiet Hread.
  rewrite (fileToGenerativePart_run env file signal (Some result) st Hquiet Hread).
  eexists _, _. split; [reflexivity|]. split; [reflexivity|]. split.
  - intros header payload -> Hh Hp.
    unfold GeminiService.on_loadend.
    replace (present (Some (header ++ "," ++ payload))) with true
      by (destruct header; reflexivity).
    cbn [show_opt append].
    rewrite (split_at_separator "," header payload Hh), (split_no_separator _ _ Hp).
    reflexivity.
  - intros Hnone Hne.
    unfold GeminiService.on_loadend.
    replace (present (Some result)) with true
      by (destruct result; [contradiction|reflexivity]).
    cbn [show_opt]. rewrite (split_no_separator _ _ Hnone). reflexivity.
Qed.

End OrchestratorRuns.

(* ===================================================================== *)
(** * Concrete runs *)
(* ===================================================================== *)

Lemma exportSRT_original_blocks_witness :
  Dashboard.srt_content Dashboard.original [Samples.line1; Samples.line2_retranslated]
  = Dashboard.srt_content Dashboard.original [Samples.line1; Samples.line2] /\
  nth_error (blocks_from 0 [Samples.line1; Samples.line2]) 1
  = Some (original_block 1 Samples.line2) /\
  List.length (blocks_from 0 [Samples.line1; Samples.line2]) = 2.
Proof.
  destruct (exportSRT_original_blocks (N := QNumber.QNum) (AudioBuffer := string)
              [Samples.line1; Samples.line2]) as (_ & Hlen & Hnth & Hsame & _).
  split; [|split].
  - apply Hsame. repeat constructor.
  - apply Hnth. reflexivity.
  - exact Hlen.
Defined.

(** C7, the claim as first stated: the translated text of a subtitle can
    appear in the original-only export, because it can occur in what the
    export does write. *)
Lemma exportSRT_original_shows_shared_text :
  Dashboard.textVietnamese Samples.line_ok = "OK" /\
  JSString.includes (Dashboard.textVietnamese Samples.line_ok)
    (Dashboard.srt_content Dashboard.original [Samples.line_ok]) = true.
Proof. split; reflexivity. Qed.

Lemma expand_renames_witness :
  GeminiService.expand (Samples.env_with "0.25") (VObject (Samples.response_props "c1"))
    GeminiService.start
  = (inr {| GeminiService.subtitles := [subtitle_of Samples.subtitle_json];
            GeminiService.notes := [note_of Samples.note_json];
            GeminiService.flashcards := [flashcard_of (Samples.card_json "c1")] |},
     GeminiService.start) /\
  GeminiService.card_id (flashcard_of (Samples.card_json "c1")) = VString "c1" /\
  GeminiService.textVietnamese (subtitle_of Samples.subtitle_json) = VString "Xin chao".
Proof.
  destruct (expand_renames (N := QNumber.QNum) (Samples.response_props "c1")
              [Samples.subtitle_json] [Samples.note_json] [Samples.card_json "c1"])
    as (Hrun & _); try reflexivity.
  split; [apply Hrun|]. split; reflexivity.
Defined.

(** C1, the claim as first stated: with every required field present but a
    card [id] that is the empty string, the same response expands to
    different results under different random draws, and neither keeps the
    [id] it was given. *)
Lemma expand_empty_id_is_random :
  forallb (has_fields ["i"; "s"; "e"; "en"; "vi"]) [Samples.subtitle_json] = true /\
  forallb (has_fields ["ts"; "ti"; "co"]) [Samples.note_json] = true /\
  forallb (has_fields ["id"; "t"; "d"; "c"]) [Samples.card_json ""] = true /\
  field (Samples.card_json "") "id" = VString "" /\
  option_map (map GeminiService.card_id)
    (match fst (GeminiService.expand (Samples.env_with "0.25")
                  (VObject (Samples.response_props "")) GeminiService.start) with
     | inr pd => Some (GeminiService.flashcards pd)
     | inl _ => None
     end) = Some [VString "0.25"] /\
  option_map (map GeminiService.card_id)
    (match fst (GeminiService.expand (Samples.env_with "0.75")
                  (VObject (Samples.response_props "")) GeminiService.start) with
     | inr pd => Some (GeminiService.flashcards pd)
     | inl _ => None
     end) = Some [VString "0.75"].
Proof. repeat split; reflexivity. Qed.

Lemma waitForFileActive_times_out_witness :
  exists st',
    GeminiService.waitForFileActive (Samples.env_with "0.25") "files/abc" true None
      GeminiService.start
    = (inl (JsError "File upload timed out."), st') /\
    tally GeminiService.is_poll st' = 120 /\
    tally (GeminiService.is_delay 5000) st' = 120.
Proof.
  destruct (waitForFileActive_times_out (N := QNumber.QNum) (Samples.env_with "0.25")
              "files/abc" true None GeminiService.start)
    as (st' & Hrun & Hp & _ & Hd).
  - exact I.
  - intros i _. eexists. split; [reflexivity|]. split; reflexivity.
  - exists st'. split; [exact Hrun|]. split; [exact Hp|exact Hd].
Defined.

(** C4, the claim as first stated: no poll returns ACTIVE or FAILED and no
    cancellation fires, yet the call ends after a single poll with the error
    of the failed request, not with the timeout error. *)
Lemma waitForFileActive_request_error :
  (forall i fileStatus,
     GeminiService.files_get Samples.offline_env i = inr fileStatus ->
     opt_is (GeminiService.file_state fileStatus) "ACTIVE" = false /\
     opt_is (GeminiService.file_state fileStatus) "FAILED" = false) /\
  never_fires None /\
  fst (GeminiService.waitForFileActive Samples.offline_env "files/abc" true None
         GeminiService.start)
  = inl (JsError "Failed to fetch") /\
  tally GeminiService.is_poll
    (snd (GeminiService.waitForFileActive Samples.offline_env "files/abc" true None
            GeminiService.start)) = 1.
Proof.
  split; [intros i fileStatus H; discriminate H|].
  split; [exact I|]. split; reflexivity.
Qed.

Lemma processMedia_already_aborted_witness :
  GeminiService.processMediaWithGemini (Samples.env_with "0.25") Samples.small_file
    Samples.auto_options true (Some {| fires_at := Some 0 |}) GeminiService.start
  = (inl (JsError "Processing cancelled by user."), GeminiService.start).
Proof.
  destruct (processMedia_already_aborted (N := QNumber.QNum) (Samples.env_with "0.25")
              Samples.small_file Samples.auto_options true {| fires_at := Some 0 |})
    as (Hrun & _); [reflexivity|].
  apply Hrun.
Defined.

(** The abort event arrives during the delay of the third iteration. *)
Lemma waitForFileActive_cancelled_witness :
  exists st',
    GeminiService.waitForFileActive (Samples.env_with "0.25") "files/abc" true
      (Some {| fires_at := Some 6 |}) GeminiService.start
    = (inl (JsError "Processing cancelled by user."), st') /\
    tally GeminiService.is_poll st' = 3.
Proof.
  destruct (waitForFileActive_cancelled (N := QNumber.QNum) (Samples.env_with "0.25")
              "files/abc" true {| fires_at := Some 6 |} 6 2 GeminiService.start)
    as (st' & Hrun & _ & Hp & _).
  - reflexivity.
  - unfold GeminiService.maxAttempts. lia.
  - intros j _. eexists. split; [reflexivity|]. split; reflexivity.
  - right. split; [reflexivity|].
    eexists. split; [reflexivity|]. split; reflexivity.
  - exists st'. split; [exact Hrun|exact Hp].
Defined.


(** ** The dashboard *)

Lemma parseTime_by_field_count_witness :
  Dashboard.parseTime (N := QNumber.QNum) "01:02:03" = of_Z 3723 /\
  Dashboard.parseTime (N := QNumber.QNum) "02:03" = of_Z 123 /\
  Dashboard.parseTime (N := QNumber.QNum) "42" = of_Z 0 /\
  Dashboard.parseTime (N := QNumber.QNum) "1:2:3:4" = of_Z 0 /\
  Dashboard.handleNoteClick (N := QNumber.QNum) (AudioBuffer := string) true "42"
    Dashboard.start
  = (inr tt, push (Dashboard.SeekTo (of_Z 0)) Dashboard.start) /\
  exists ctx' st' later,
    Dashboard.dub_loop Scenarios.steady_dub 1 [Scenarios.line_bare] 0 Samples.empty_ctx 0
      Dashboard.start
    = (inr (ctx', 1), st') /\
    Dashboard.scheduled ctx' = ("UENN", of_Z 0) :: later.
Proof.
  destruct (parseTime_by_field_count (N := QNumber.QNum) (AudioBuffer := string) "01:02:03")
    as (H3 & _).
  destruct (parseTime_by_field_count (N := QNumber.QNum) (AudioBuffer := string) "02:03")
    as (_ & H2 & _).
  destruct (parseTime_by_field_count (N := QNumber.QNum) (AudioBuffer := string) "42")
    as (_ & _ & Hother & Hbare & _).
  destruct (parseTime_by_field_count (N := QNumber.QNum) (AudioBuffer := string) "1:2:3:4")
    as (_ & _ & _ & _ & Hmany & _).
  split; [rewrite (H3 "01" "02" "03" eq_refl); reflexivity|].
  split; [rewrite (H2 "02" "03" eq_refl); reflexivity|].
  split; [apply Hbare; reflexivity|].
  split; [apply Hmany; simpl; lia|].
  destruct Hother as (_ & Hseek & _ & Hdub); [simpl; lia|simpl; lia|].
  split; [apply Hseek|].
  destruct (Hdub Scenarios.steady_dub 1 Scenarios.line_bare [] 0 Samples.empty_ctx 0
              "UENN" Dashboard.start
              (tick (push (Dashboard.TTSRequest "gemini-2.5-flash-preview-tts"
                             "Xin chao" "Kore") Dashboard.start))
              eq_refl eq_refl) as (ctx' & st' & later & Hrun & Hs).
  exists ctx', st', later. split; [exact Hrun|exact Hs].
Defined.

(** The first sample line has a start time without a comma and an end time
    with one. *)
Lemma exportSRT_timestamps_witness :
  Dashboard.srt_time "00:00:01" = "00:00:01,000" /\
  Dashboard.srt_time "00:00:02,500" = "00:00:02,500" /\
  Dashboard.exportSRT (N := QNumber.QNum) (AudioBuffer := string) Samples.video
    [Samples.line1] Dashboard.original Dashboard.start
  = (inr tt,
     push (Dashboard.SetShowExportMenu false)
       (push (Dashboard.DownloadText "lesson_original.srt"
                ("1" ++ Dashboard.nl ++ "00:00:01,000 --> 00:00:02,500" ++ Dashboard.nl
                 ++ "Hello" ++ Dashboard.nl ++ Dashboard.nl))
          Dashboard.start)).
Proof.
  destruct (exportSRT_timestamps (N := QNumber.QNum) (AudioBuffer := string)
              Dashboard.original Samples.video [Samples.line1])
    as (Hplain & Hcomma & Hrun & _).
  split; [|split].
  - apply (Hplain "00:00:01"). simpl. intros H.
    repeat (destruct H as [H|H]; [discriminate H|]). exact H.
  - apply (Hcomma "00:00:02,500"). simpl. auto 12.
  - rewrite Hrun. reflexivity.
Defined.





(** ** Further concrete runs *)

(** The upload becomes ACTIVE at the third poll. *)
Lemma waitForFileActive_becomes_active_witness :
  exists st',
    GeminiService.waitForFileActive (Scenarios.settles 2 Scenarios.active) "files/abc"
      true None GeminiService.start
    = (inr tt, st') /\
    calls GeminiService.is_poll st' = 3 /\
    calls GeminiService.is_timer st' = 2.
Proof.
  destruct (waitForFileActive_becomes_active (N := QNumber.QNum)
              (Scenarios.settles 2 Scenarios.active) "files/abc" true None 2
              GeminiService.start) as (st' & Hrun & Hp & Ht).
  - exact I.
  - unfold GeminiService.maxAttempts. lia.
  - intros j Hj. destruct j as [|[|j]]; [| |lia];
      (eexists; split; [reflexivity|]; split; reflexivity).
  - eexists. split; reflexivity.
  - exists st'. split; [exact Hrun|]. split; [exact Hp|exact Ht].
Defined.

(** The remote processing fails at the second poll. *)
Lemma waitForFileActive_remote_failure_witness :
  exists st',
    GeminiService.waitForFileActive (Scenarios.settles 1 Scenarios.failed) "files/abc"
      true None GeminiService.start
    = (inl (JsError "File processing failed on Gemini server."), st') /\
    calls GeminiService.is_poll st' = 2 /\
    calls GeminiService.is_timer st' = 1.
Proof.
  destruct (waitForFileActive_remote_failure (N := QNumber.QNum)
              (Scenarios.settles 1 Scenarios.failed) "files/abc" true None 1
              GeminiService.start) as (st' & Hrun & Hp & Ht).
  - exact I.
  - unfold GeminiService.maxAttempts. lia.
  - intros j Hj. destruct j as [|j]; [|lia].
    eexists. split; [reflexivity|]. split; reflexivity.
  - eexists. split; reflexivity.
  - exists st'. split; [exact Hrun|]. split; [exact Hp|exact Ht].
Defined.

(** The second status request fails on the network. *)
Lemma waitForFileActive_request_rejected_witness :
  exists st',
    GeminiService.waitForFileActive
      (Scenarios.settles 1 (inl (JsError "Failed to fetch"))) "files/abc"
      false None GeminiService.start
    = (inl (JsError "Failed to fetch"), st') /\
    calls GeminiService.is_poll st' = 2 /\
    calls GeminiService.is_timer st' = 1.
Proof.
  destruct (waitForFileActive_request_rejected (N := QNumber.QNum)
              (Scenarios.settles 1 (inl (JsError "Failed to fetch"))) "files/abc"
              false None 1 GeminiService.start (JsError "Failed to fetch"))
    as (st' & Hrun & Hp & Ht).
  - exact I.
  - unfold GeminiService.maxAttempts. lia.
  - intros j Hj. destruct j as [|j]; [|lia].
    eexists. split; [reflexivity|]. split; reflexivity.
  - reflexivity.
  - exists st'. split; [exact Hrun|]. split; [exact Hp|exact Ht].
Defined.

Lemma processMedia_missing_key_witness :
  GeminiService.processMediaWithGemini Scenarios.keyless Samples.small_file
    Samples.auto_options true None GeminiService.start
  = (inl (JsError "API Key is missing."),
     {| clock := 0;
        log := [GeminiService.ConsoleError "Gemini processing error:"
                  (JsError "API Key is missing.")];
        draws := 0 |}).
Proof.
  apply (processMedia_missing_key (N := QNumber.QNum) Scenarios.keyless
           Samples.small_file Samples.auto_options true None GeminiService.start);
    reflexivity.
Defined.

Lemma processMedia_upload_incomplete_witness :
  exists st',
    GeminiService.processMediaWithGemini Scenarios.nameless_upload Scenarios.large_file
      Samples.auto_options true None GeminiService.start
    = (inl (JsError "Upload failed."), st') /\
    calls is_upload st' = 1 /\
    calls GeminiService.is_poll st' = 0 /\
    calls is_generate st' = 0.
Proof.
  destruct (processMedia_upload_incomplete (N := QNumber.QNum) Scenarios.nameless_upload
              Scenarios.large_file Samples.auto_options true None GeminiService.start
              {| GeminiService.uri := Some "https://files/abc";
                 GeminiService.name := None |})
    as (st' & Hrun & Hu & Hp & Hg).
  - exact I.
  - reflexivity.
  - simpl. lia.
  - reflexivity.
  - right. reflexivity.
  - exists st'. split; [exact Hrun|]. split; [exact Hu|]. split; [exact Hp|exact Hg].
Defined.

(** A card without an [id] takes the first draw. *)
Lemma expand_accepts_witness :
  GeminiService.expand (Samples.env_with "0.25") (VObject (Samples.response_props ""))
    GeminiService.start
  = (inr {| GeminiService.subtitles := [subtitle_of Samples.subtitle_json];
            GeminiService.notes := [note_of Samples.note_json];
            GeminiService.flashcards :=
              [{| GeminiService.card_id := VString "0.25";
                  GeminiService.term := VString "hello";
                  GeminiService.definition := VString "a greeting";
                  GeminiService.context := VString "Hello, world" |}] |},
     {| clock := 0; log := []; draws := 1 |}).
Proof.
  apply (expand_accepts (N := QNumber.QNum) (Samples.env_with "0.25")
           (VObject (Samples.response_props "")) GeminiService.start).
  reflexivity.
Defined.

(** A response whose [subs] is [null]. *)
Lemma expand_rejects_witness :
  exists st',
    GeminiService.expand (Samples.env_with "0.25")
      (VObject [("subs", VNull); ("nts", VArray []); ("cards", VArray [])])
      GeminiService.start
    = (inl (JsError "TypeError"), st') /\
    clock st' = 0 /\ log st' = [].
Proof.
  apply (expand_rejects (N := QNumber.QNum) (Samples.env_with "0.25")
           (VObject [("subs", VNull); ("nts", VArray []); ("cards", VArray [])])
           GeminiService.start).
  reflexivity.
Defined.

Lemma dub_loop_requests_in_order_witness :
  filter is_tts_request
    (log (snd (Dashboard.dub_loop Samples.flaky_dub 3
                 [Samples.line1; Samples.line2; Samples.line3] 0 Samples.empty_ctx 0
                 Dashboard.start)))
  = [Dashboard.TTSRequest "gemini-2.5-flash-preview-tts" "Xin chao" "Kore";
     Dashboard.TTSRequest "gemini-2.5-flash-preview-tts" "Tam biet" "Kore";
     Dashboard.TTSRequest "gemini-2.5-flash-preview-tts" "Cam on" "Kore"] /\
  clock (snd (Dashboard.dub_loop Samples.flaky_dub 3
                [Samples.line1; Samples.line2; Samples.line3] 0 Samples.empty_ctx 0
                Dashboard.start)) = 3.
Proof.
  apply (dub_loop_requests_in_order (N := QNumber.QNum) Samples.flaky_dub 3
           [Samples.line1; Samples.line2; Samples.line3] Samples.empty_ctx
           Dashboard.start).
  reflexivity.
Defined.

Lemma handleDownloadDubbedAudio_without_key_witness :
  (exists st1,
     Dashboard.dub_loop Scenarios.keyless_dub 2 [Samples.line1; Samples.line2] 0
       Samples.empty_ctx 0 Dashboard.start
     = (inr (Samples.empty_ctx, 2), st1) /\
     calls is_warning st1 = 2) /\
  exists st',
    Dashboard.handleDownloadDubbedAudio Scenarios.keyless_dub Samples.video
      [Samples.line1; Samples.line2] false Dashboard.start
    = (inr tt, st') /\
    calls is_tts_request st' = 0 /\
    calls is_warning st' = 2 /\
    calls is_alert st' = 0 /\
    calls is_download st' = 1.
Proof.
  destruct (handleDownloadDubbedAudio_without_key (N := QNumber.QNum)
              Scenarios.keyless_dub Samples.video [Samples.line1; Samples.line2]
              Dashboard.start) as (Hloop & st' & Hrun & Hr & Hd).
  - reflexivity.
  - split.
    + destruct (Hloop 2 Samples.empty_ctx) as (st1 & Hl & _ & Hw1).
      exists st1. split; [exact Hl|exact Hw1].
    + destruct (Hd (of_Z 336000) eq_refl) as (Hw & Hok).
      destruct (Hok eq_refl) as (Ha & Hdl).
      exists st'. split; [exact Hrun|]. split; [exact Hr|]. split; [exact Hw|].
      split; [exact Ha|exact Hdl].
Defined.

Lemma processMedia_inline_success_witness :
  exists st',
    GeminiService.processMediaWithGemini (Samples.env_with "0.25") Samples.small_file
      Samples.auto_options true None GeminiService.start
    = (inr {| GeminiService.subtitles := [subtitle_of Samples.subtitle_json];
              GeminiService.notes := [note_of Samples.note_json];
              GeminiService.flashcards := [flashcard_of (Samples.card_json "c1")] |},
       st') /\
    log st'
    = [GeminiService.StatusUpdate "Optimizing small file..." (of_Z 30);
       GeminiService.ReadAsDataURL "lesson.mp4";
       GeminiService.StatusUpdate "AI is analyzing FULL content (Deep Processing)..."
         (of_Z 80);
       GeminiService.GenerateContent "gemini-3-flash-preview"
         (GeminiService.InlineData "video/mp4" (Some "AAAA"))
         (GeminiService.promptText Samples.auto_options)] /\
    clock st' = 2.
Proof.
  destruct (processMedia_inline_success (N := QNumber.QNum) (Samples.env_with "0.25")
              Samples.small_file Samples.auto_options true None GeminiService.start
              (Some "data:video/mp4;base64,AAAA") {| GeminiService.text := Some "{}" |}
              (VObject (Samples.response_props "c1")))
    as (st' & Hrun & Hlog & Hclock); try reflexivity.
  exists st'. split; [exact Hrun|]. split; [exact Hlog|exact Hclock].
Defined.

Lemma processMedia_upload_success_witness :
  exists st',
    fst (GeminiService.processMediaWithGemini (Scenarios.settles 2 Scenarios.active)
           Scenarios.large_file Samples.auto_options false None GeminiService.start)
    = inr (expanded (fun _ => "0.25") 0 (VObject (Samples.response_props ""))) /\
    snd (GeminiService.processMediaWithGemini (Scenarios.settles 2 Scenarios.active)
           Scenarios.large_file Samples.auto_options false None GeminiService.start)
    = st' /\
    calls is_upload st' = 1 /\
    calls GeminiService.is_poll st' = 3 /\
    calls GeminiService.is_timer st' = 2 /\
    calls is_read st' = 0 /\
    calls is_generate st' = 1 /\
    In (GeminiService.GenerateContent "gemini-3-flash-preview"
          (GeminiService.FileData "https://files/abc" "video/mp4")
          (GeminiService.promptText Samples.auto_options)) (log st').
Proof.
  destruct (processMedia_upload_success (N := QNumber.QNum)
              (Scenarios.settles 2 Scenarios.active) Scenarios.large_file
              Samples.auto_options false None GeminiService.start
              {| GeminiService.uri := Some "https://files/abc";
                 GeminiService.name := Some "files/abc" |} 2
              {| GeminiService.text := Some "{}" |}
              (VObject (Samples.response_props "")))
    as (st' & Hrun & Hu & Hp & Ht & Hr & Hg & Hin); try reflexivity.
  - simpl. lia.
  - unfold GeminiService.maxAttempts. lia.
  - intros j Hj. destruct j as [|[|j]]; [| |lia];
      (eexists; split; [reflexivity|]; split; reflexivity).
  - eexists. split; reflexivity.
  - exists st'. rewrite Hrun. split; [reflexivity|]. split; [reflexivity|].
    split; [exact Hu|]. split; [exact Hp|]. split; [exact Ht|].
    split; [exact Hr|]. split; [exact Hg|exact Hin].
Defined.

Lemma processMedia_parse_error_as_quota_witness :
  exists st',
    GeminiService.processMediaWithGemini Scenarios.unparsable Samples.small_file
      Samples.auto_options true None GeminiService.start
    = (inl (JsError "API Quota Exceeded. Please try again later."), st') /\
    calls is_generate st' = 1 /\
    In (GeminiService.ConsoleError "Gemini processing error:"
          (JsError "Unexpected token } in JSON at position 429")) (log st').
Proof.
  destruct (processMedia_parse_error_as_quota (N := QNumber.QNum) Scenarios.unparsable
              Samples.small_file Samples.auto_options true None GeminiService.start
              (Some "data:video/mp4;base64,AAAA") {| GeminiService.text := Some "{" |}
              (JsError "Unexpected token } in JSON at position 429"))
    as (st' & Hrun & Hg & Hin); try reflexivity.
  exists st'. split; [exact Hrun|]. split; [exact Hg|exact Hin].
Defined.

Lemma fileToGenerativePart_payload_witness :
  exists st',
    GeminiService.fileToGenerativePart (Samples.env_with "0.25") Samples.small_file None
      GeminiService.start
    = (inr (Some "AAAA"), st') /\
    log st' = [GeminiService.ReadAsDataURL "lesson.mp4"].
Proof.
  destruct (fileToGenerativePart_payload (N := QNumber.QNum) (Samples.env_with "0.25")
              Samples.small_file None GeminiService.start "data:video/mp4;base64,AAAA")
    as (r & st' & Hrun & Hlog & Hpayload & _).
  - exact I.
  - reflexivity.
  - exists st'. rewrite Hrun.
    rewrite (Hpayload "data:video/mp4;base64" "AAAA" eq_refl eq_refl eq_refl).
    split; [reflexivity|exact Hlog].
Defined.
